(** * TalentScout: the conversation core, embedded and verified

    A shallow embedding of the intake state machine ([core/state.py],
    [app.py]), the question generator ([core/qa_generator.py] and the
    fallback of [app.py]) and the answer scorer ([core/answer_scorer.py]),
    followed by the properties the specification states about them.

    Conventions of the embedding.
    - A Python [str] is a [string]; a character is one 8-bit code point
      (Latin-1), and [isspace], [lower], [\d] and [isdigit] are the Unicode
      ones restricted to that range.
    - A Python [dict] used as a map is a [gmap]; a [dict] decoded from JSON is
      an association list read with last-binding-wins.
    - Python's [json.loads] and [float] are library code: the operations take
      them as parameters, and executable fragments of both are given for
      running the model on concrete inputs.
    - The text-generation service and [uuid.uuid4] are the environment: their
      answers are inputs of the operations. *)

From Stdlib Require Import ZArith QArith Qabs Ascii String List Lia Bool.
From Stdlib Require PrimFloat FloatOps SpecFloat Uint63.
From stdpp Require Import base decidable option list gmap strings pretty.

Local Open Scope Z_scope.

(* ================================================================== *)
(** * Python strings *)
(* ================================================================== *)

Module PyStr.

Definition chars (s : string) : list ascii := list_ascii_of_string s.
Definition str (l : list ascii) : string := string_of_list_ascii l.

Definition code (c : ascii) : N := N_of_ascii c.

(** [str.isspace] on one code point below 256. *)
Definition isspace (c : ascii) : bool :=
  let n := code c in
  ((9 <=? n) && (n <=? 13) || (28 <=? n) && (n <=? 32)
   || (n =? 133) || (n =? 160))%N.

(** The regular-expression class [\d] below 256: the ten decimal digits. *)
Definition is_decimal (c : ascii) : bool :=
  let n := code c in ((48 <=? n) && (n <=? 57))%N.

(** [str.isdigit] on one code point below 256: the decimal digits and the
    superscripts one, two and three. *)
Definition isdigit_char (c : ascii) : bool :=
  let n := code c in
  (is_decimal c || (n =? 178) || (n =? 179) || (n =? 185))%N.

(** [str.lower] on one code point below 256. *)
Definition lower_char (c : ascii) : ascii :=
  let n := code c in
  if ((65 <=? n) && (n <=? 90)
      || (192 <=? n) && (n <=? 222) && negb (n =? 215))%N
  then ascii_of_N (n + 32) else c.

Fixpoint lstrip_chars (l : list ascii) : list ascii :=
  match l with
  | c :: l' => if isspace c then lstrip_chars l' else l
  | [] => []
  end.

Definition rstrip_chars (l : list ascii) : list ascii :=
  rev (lstrip_chars (rev l)).

(** [s.strip()] *)
Definition strip (s : string) : string :=
  str (rstrip_chars (lstrip_chars (chars s))).

(** [s.lower()] *)
Definition lower (s : string) : string :=
  str (map lower_char (chars s)).

(** [len(s)] *)
Definition len (s : string) : Z := Z.of_nat (String.length s).

(** Truth value of a string: non-empty. *)
Definition truthy (s : string) : bool :=
  match s with EmptyString => false | String _ _ => true end.

Fixpoint starts_with (p t : list ascii) : bool :=
  match p, t with
  | [], _ => true
  | a :: p', b :: t' => Ascii.eqb a b && starts_with p' t'
  | _ :: _, [] => false
  end.

Fixpoint contains_chars (p t : list ascii) : bool :=
  starts_with p t ||
  match t with
  | [] => false
  | _ :: t' => contains_chars p t'
  end.

(** [p in t] for two strings. *)
Definition contains (p t : string) : bool := contains_chars (chars p) (chars t).

(** [s.startswith(p)] *)
Definition startswith (s p : string) : bool := starts_with (chars p) (chars s).

(** [s.isdigit()]: non-empty and every character a digit. *)
Definition isdigit (s : string) : bool :=
  truthy s && forallb isdigit_char (chars s).

(** [s.split(sep)] for a one-character separator: always at least one piece. *)
Fixpoint split_chars (sep : ascii) (cur : list ascii) (l : list ascii) : list string :=
  match l with
  | [] => [str (rev cur)]
  | c :: l' =>
      if Ascii.eqb c sep then str (rev cur) :: split_chars sep [] l'
      else split_chars sep (c :: cur) l'
  end.

Definition split (sep : ascii) (s : string) : list string :=
  split_chars sep [] (chars s).

(** [s.replace(a, b)] for single characters. *)
Definition replace_char (a b : ascii) (s : string) : string :=
  str (map (fun c => if Ascii.eqb c a then b else c) (chars s)).

(** [s.strip(set)]: strip the characters of [set] from both ends. *)
Fixpoint lstrip_set (set : list ascii) (l : list ascii) : list ascii :=
  match l with
  | c :: l' => if existsb (Ascii.eqb c) set then lstrip_set set l' else l
  | [] => []
  end.

Definition strip_set (set : string) (s : string) : string :=
  str (rev (lstrip_set (chars set) (rev (lstrip_set (chars set) (chars s))))).

Fixpoint find_from (c : ascii) (l : list ascii) (i : Z) : Z :=
  match l with
  | [] => -1
  | x :: l' => if Ascii.eqb x c then i else find_from c l' (i + 1)
  end.

(** [s.find(c)]: the first index of [c], or [-1]. *)
Definition find (c : ascii) (s : string) : Z := find_from c (chars s) 0.

Fixpoint rfind_from (c : ascii) (l : list ascii) (i last : Z) : Z :=
  match l with
  | [] => last
  | x :: l' => rfind_from c l' (i + 1) (if Ascii.eqb x c then i else last)
  end.

(** [s.rfind(c)]: the last index of [c], or [-1]. *)
Definition rfind (c : ascii) (s : string) : Z := rfind_from c (chars s) 0 (-1).

(** [s[a:b]] for non-negative bounds. *)
Definition slice (s : string) (a b : Z) : string :=
  str (take (Z.to_nat (b - a)) (drop (Z.to_nat a) (chars s))).

(** What the specification means by "[p] occurs in [t]". *)
Definition occurs_in (p t : string) : Prop :=
  exists pre post : string, t = pre +:+ p +:+ post.

End PyStr.

(* ================================================================== *)
(** * core/state.py: exit detection *)
(* ================================================================== *)

(** The set literal of the source; [any] over it does not depend on the
    iteration order, so a list stands for the set. *)
Definition EXIT_KEYWORDS : list string :=
  ["quit"; "exit"; "bye"; "stop"; "goodbye"; "end"; "finish"; "done"].

(** [detect_exit], core/state.py lines 13-25. *)
Definition detect_exit (text : string) : bool :=
  if negb (PyStr.truthy text) then false
  else
    let t := PyStr.lower (PyStr.strip text) in
    if bool_decide (t ∈ EXIT_KEYWORDS) then true
    else existsb (fun keyword => PyStr.contains keyword t) EXIT_KEYWORDS.


(* ================================================================== *)
(** * Values of the Python runtime the core handles *)
(* ================================================================== *)

(** A Python [float]: every finite binary64 is a rational. *)
Inductive pyfloat : Type :=
| FFin (q : Q)
| FInf (negative : bool)
| FNan.

(** What [json.loads] returns. A decoded object keeps its members in text
    order; a repeated key is read at its last binding, as in the [dict]. *)
#[warnings="-register-all"]
Inductive json : Type :=
| JNull
| JBool (b : bool)
| JInt (n : Z)
| JFloat (f : pyfloat)
| JStr (s : string)
| JList (l : list json)
| JDict (kv : list (string * json)).

Fixpoint assoc_last (k : string) (kv : list (string * json)) : option json :=
  match kv with
  | [] => None
  | (k', v) :: rest =>
      match assoc_last k rest with
      | Some w => Some w
      | None => if String.eqb k k' then Some v else None
      end
  end.

(** [d.get(key, default)] on a decoded object. *)
Definition dict_get (kv : list (string * json)) (key : string) (dflt : json) : json :=
  match assoc_last key kv with
  | Some v => v
  | None => dflt
  end.

(** One answer of the text-generation service to one request: the call
    raises (transport error, bad status, a body without text content), or it
    returns the content string. *)
Inductive reply : Type :=
| Raises
| Content (raw : string).

(** [str(uuid.uuid4())[:8]]: the eight hexadecimal digits of the leading 32
    bits of the 128-bit identifier drawn. *)
Definition hex_digit (n : N) : ascii :=
  if (n <? 10)%N then ascii_of_N (48 + n) else ascii_of_N (87 + n).

Fixpoint hex_digits (width : nat) (n : N) (acc : list ascii) : list ascii :=
  match width with
  | O => acc
  | S w => hex_digits w (n / 16)%N (hex_digit (n mod 16)%N :: acc)
  end.

Definition uuid_prefix (u : N) : string :=
  PyStr.str (hex_digits 8 ((u / 2 ^ 96) mod 2 ^ 32)%N []).

(* ================================================================== *)
(** * core/schemas.py *)
(* ================================================================== *)

Record AnswerScore : Type := mkAnswerScore {
  score : Z;
  reasoning : string;
  strengths : list string;
  improvements : list string
}.

Record QAQuestion : Type := mkQAQuestion {
  topic : string;
  question : string;
  difficulty : string;
  question_id : option string
}.

(** [QASet] is its [items]. *)
Definition QASet : Type := list QAQuestion.

(** The per-question dict that [app.py] materializes, with its four keys. *)
Record QuestionRecord : Type := mkQuestionRecord {
  q_topic : string;
  q_question : string;
  q_difficulty : string;
  q_question_id : string
}.

Inductive Step : Type :=
| GREETING | CONSENT
| INTAKE_NAME | INTAKE_EMAIL | INTAKE_PHONE | INTAKE_YOE
| INTAKE_POSITION | INTAKE_LOCATION | INTAKE_TECH
| GENERATE_QA | TECHNICAL_QA | FOLLOWUP | END.

Global Instance Step_eq_dec : EqDecision Step.
Proof. solve_decision. Defined.

Record Candidate : Type := mkCandidate {
  full_name : option string;
  email : option string;
  phone : option string;
  years_experience : option pyfloat;
  desired_positions : list string;
  current_location : option string;
  tech_stack : list string;
  consent_given : bool;
  technical_questions : list QuestionRecord;
  technical_answers : gmap string string;
  answer_scores : gmap string AnswerScore;
  overall_score : option Q;
  additional_comments : option string
}.

(** [Candidate()] *)
Definition Candidate_default : Candidate :=
  mkCandidate None None None None [] None [] false [] ∅ ∅ None None.

Record ConversationState : Type := mkConversationState {
  step : Step;
  exit_detected : bool;
  current_question_index : Z;
  questions_asked : bool
}.

(** [Candidate.normalize_phone], the validator of the [phone] field. It
    runs when a [Candidate] is constructed or validated, not on attribute
    assignment. *)
Definition normalize_phone (v : option string) : option string :=
  match v with
  | None => None
  | Some t =>
      Some (PyStr.str
              (take 20 (filter (fun ch => PyStr.isdigit_char ch || Ascii.eqb ch "+" = true)
                               (PyStr.chars t))))
  end.

(** Attribute assignment. The models do not validate on assignment, so an
    assignment stores the value as it is. *)
Definition set_consent_given (v : bool) (c : Candidate) : Candidate :=
  mkCandidate (full_name c) (email c) (phone c) (years_experience c)
    (desired_positions c) (current_location c) (tech_stack c) v
    (technical_questions c) (technical_answers c) (answer_scores c)
    (overall_score c) (additional_comments c).

Definition set_full_name (v : option string) (c : Candidate) : Candidate :=
  mkCandidate v (email c) (phone c) (years_experience c)
    (desired_positions c) (current_location c) (tech_stack c) (consent_given c)
    (technical_questions c) (technical_answers c) (answer_scores c)
    (overall_score c) (additional_comments c).

Definition set_email (v : option string) (c : Candidate) : Candidate :=
  mkCandidate (full_name c) v (phone c) (years_experience c)
    (desired_positions c) (current_location c) (tech_stack c) (consent_given c)
    (technical_questions c) (technical_answers c) (answer_scores c)
    (overall_score c) (additional_comments c).

Definition set_phone (v : option string) (c : Candidate) : Candidate :=
  mkCandidate (full_name c) (email c) v (years_experience c)
    (desired_positions c) (current_location c) (tech_stack c) (consent_given c)
    (technical_questions c) (technical_answers c) (answer_scores c)
    (overall_score c) (additional_comments c).

Definition set_years_experience (v : option pyfloat) (c : Candidate) : Candidate :=
  mkCandidate (full_name c) (email c) (phone c) v
    (desired_positions c) (current_location c) (tech_stack c) (consent_given c)
    (technical_questions c) (technical_answers c) (answer_scores c)
    (overall_score c) (additional_comments c).

Definition set_desired_positions (v : list string) (c : Candidate) : Candidate :=
  mkCandidate (full_name c) (email c) (phone c) (years_experience c)
    v (current_location c) (tech_stack c) (consent_given c)
    (technical_questions c) (technical_answers c) (answer_scores c)
    (overall_score c) (additional_comments c).

Definition set_current_location (v : option string) (c : Candidate) : Candidate :=
  mkCandidate (full_name c) (email c) (phone c) (years_experience c)
    (desired_positions c) v (tech_stack c) (consent_given c)
    (technical_questions c) (technical_answers c) (answer_scores c)
    (overall_score c) (additional_comments c).

Definition set_tech_stack (v : list string) (c : Candidate) : Candidate :=
  mkCandidate (full_name c) (email c) (phone c) (years_experience c)
    (desired_positions c) (current_location c) v (consent_given c)
    (technical_questions c) (technical_answers c) (answer_scores c)
    (overall_score c) (additional_comments c).

Definition set_technical_questions (v : list QuestionRecord) (c : Candidate) : Candidate :=
  mkCandidate (full_name c) (email c) (phone c) (years_experience c)
    (desired_positions c) (current_location c) (tech_stack c) (consent_given c)
    v (technical_answers c) (answer_scores c)
    (overall_score c) (additional_comments c).

Definition set_technical_answers (v : gmap string string) (c : Candidate) : Candidate :=
  mkCandidate (full_name c) (email c) (phone c) (years_experience c)
    (desired_positions c) (current_location c) (tech_stack c) (consent_given c)
    (technical_questions c) v (answer_scores c)
    (overall_score c) (additional_comments c).

Definition set_answer_scores (v : gmap string AnswerScore) (c : Candidate) : Candidate :=
  mkCandidate (full_name c) (email c) (phone c) (years_experience c)
    (desired_positions c) (current_location c) (tech_stack c) (consent_given c)
    (technical_questions c) (technical_answers c) v
    (overall_score c) (additional_comments c).

Definition set_overall_score (v : option Q) (c : Candidate) : Candidate :=
  mkCandidate (full_name c) (email c) (phone c) (years_experience c)
    (desired_positions c) (current_location c) (tech_stack c) (consent_given c)
    (technical_questions c) (technical_answers c) (answer_scores c)
    v (additional_comments c).

Definition set_additional_comments (v : option string) (c : Candidate) : Candidate :=
  mkCandidate (full_name c) (email c) (phone c) (years_experience c)
    (desired_positions c) (current_location c) (tech_stack c) (consent_given c)
    (technical_questions c) (technical_answers c) (answer_scores c)
    (overall_score c) v.

Definition set_step (v : Step) (st : ConversationState) : ConversationState :=
  mkConversationState v (exit_detected st) (current_question_index st) (questions_asked st).

Definition set_exit_detected (v : bool) (st : ConversationState) : ConversationState :=
  mkConversationState (step st) v (current_question_index st) (questions_asked st).

Definition set_current_question_index (v : Z) (st : ConversationState) : ConversationState :=
  mkConversationState (step st) (exit_detected st) v (questions_asked st).

(* ================================================================== *)
(** * core/state.py: the next step *)
(* ================================================================== *)

Definition INTAKE_ORDER : list Step :=
  [INTAKE_NAME; INTAKE_EMAIL; INTAKE_PHONE; INTAKE_YOE;
   INTAKE_POSITION; INTAKE_LOCATION; INTAKE_TECH].

(** The value of an attribute as [next_step] inspects it. *)
Inductive attr : Type :=
| ANone
| AStr (s : string)
| AList (l : list string)
| AFloat (f : pyfloat)
| ABool (b : bool).

Definition attr_of_str (o : option string) : attr :=
  match o with Some s => AStr s | None => ANone end.

Definition attr_of_float (o : option pyfloat) : attr :=
  match o with Some f => AFloat f | None => ANone end.

(** The dict literal built in the loop body; a missing key raises. *)
Definition field_mapping : list (Step * string) :=
  [(INTAKE_NAME, "full_name"); (INTAKE_EMAIL, "email");
   (INTAKE_PHONE, "phone"); (INTAKE_YOE, "years_experience");
   (INTAKE_POSITION, "desired_positions");
   (INTAKE_LOCATION, "current_location"); (INTAKE_TECH, "tech_stack")].

Fixpoint field_lookup (s : Step) (m : list (Step * string)) : option string :=
  match m with
  | [] => None
  | (s', f) :: rest => if bool_decide (s = s') then Some f else field_lookup s rest
  end.

(** [getattr(candidate, field)]; an unknown attribute raises. *)
Definition getattr (c : Candidate) (field : string) : option attr :=
  if String.eqb field "full_name" then Some (attr_of_str (full_name c))
  else if String.eqb field "email" then Some (attr_of_str (email c))
  else if String.eqb field "phone" then Some (attr_of_str (phone c))
  else if String.eqb field "years_experience" then Some (attr_of_float (years_experience c))
  else if String.eqb field "desired_positions" then Some (AList (desired_positions c))
  else if String.eqb field "current_location" then Some (attr_of_str (current_location c))
  else if String.eqb field "tech_stack" then Some (AList (tech_stack c))
  else if String.eqb field "consent_given" then Some (ABool (consent_given c))
  else None.

(** [val is None or (isinstance(val, list) and not val)
     or (isinstance(val, str) and not val.strip())] *)
Definition is_empty_attr (val : attr) : bool :=
  match val with
  | ANone => true
  | AList l => match l with [] => true | _ => false end
  | AStr s => negb (PyStr.truthy (PyStr.strip s))
  | AFloat _ | ABool _ => false
  end.

Fixpoint next_step_loop (candidate : Candidate) (order : list Step) : option Step :=
  match order with
  | [] => Some GENERATE_QA
  | s :: rest =>
      field ← field_lookup s field_mapping;
      val ← getattr candidate field;
      if is_empty_attr val then Some s else next_step_loop candidate rest
  end.

(** [next_step(candidate, state)], core/state.py lines 27-54; [None] stands
    for a raised exception. *)
Definition next_step (candidate : Candidate) (state : ConversationState) : option Step :=
  if negb (consent_given candidate) then Some CONSENT
  else next_step_loop candidate INTAKE_ORDER.

(* ================================================================== *)
(** * core/answer_scorer.py *)
(* ================================================================== *)

(** Construction of an [AnswerScore] from typed values: the field
    constraint [ge=0, le=10] is checked, a violation raises. *)
Definition AnswerScore_checked (sc : Z) (r : string) (st im : list string) : option AnswerScore :=
  if (0 <=? sc) && (sc <=? 10) then Some (mkAnswerScore sc r st im) else None.

Definition Q_is_integral (q : Q) : bool := (Qnum q mod Z.pos (Qden q) =? 0).

(** Validation of an [int] field (lax mode) on the numbers that can reach
    it: an int, a bool, or a float without fractional part. *)
Definition validate_int (v : json) : option Z :=
  match v with
  | JInt n => Some n
  | JBool b => Some (if b then 1 else 0)
  | JFloat (FFin q) => if Q_is_integral q then Some (Qnum q / Z.pos (Qden q)) else None
  | _ => None
  end.

Definition validate_str (v : json) : option string :=
  match v with
  | JStr s => Some s
  | _ => None
  end.

Fixpoint validate_str_items (l : list json) : option (list string) :=
  match l with
  | [] => Some []
  | v :: rest =>
      s ← validate_str v;
      ss ← validate_str_items rest;
      Some (s :: ss)
  end.

Definition validate_str_list (v : json) : option (list string) :=
  match v with
  | JList l => validate_str_items l
  | _ => None
  end.

(** [AnswerScore(score=.., reasoning=.., strengths=.., improvements=..)] on
    decoded values; [None] is the validation error. *)
Definition AnswerScore_new (sc r st im : json) : option AnswerScore :=
  n ← validate_int sc;
  r' ← validate_str r;
  st' ← validate_str_list st;
  im' ← validate_str_list im;
  AnswerScore_checked n r' st' im'.

(** [v < k] and [v > k] between a decoded value and an int; [None] is the
    [TypeError] of an unordered pair. *)
Definition float_lt_int (f : pyfloat) (k : Z) : bool :=
  match f with
  | FFin q => negb (Qle_bool (inject_Z k) q)
  | FInf negative => negative
  | FNan => false
  end.

Definition float_gt_int (f : pyfloat) (k : Z) : bool :=
  match f with
  | FFin q => negb (Qle_bool q (inject_Z k))
  | FInf negative => negb negative
  | FNan => false
  end.

Definition py_lt_int (v : json) (k : Z) : option bool :=
  match v with
  | JInt n => Some (n <? k)
  | JBool b => Some ((if b then 1 else 0) <? k)
  | JFloat f => Some (float_lt_int f k)
  | _ => None
  end.

Definition py_gt_int (v : json) (k : Z) : option bool :=
  match v with
  | JInt n => Some (n >? k)
  | JBool b => Some ((if b then 1 else 0) >? k)
  | JFloat f => Some (float_gt_int f k)
  | _ => None
  end.

(** [min(k, v)]: [k] unless [v < k]. *)
Definition py_min_int (k : Z) (v : json) : option json :=
  b ← py_lt_int v k; Some (if b : bool then v else JInt k).

(** [max(k, v)]: [k] unless [v > k]. *)
Definition py_max_int (k : Z) (v : json) : option json :=
  b ← py_gt_int v k; Some (if b : bool then v else JInt k).

(** [simple_score_answer], core/answer_scorer.py lines 109-151.
    [word_count] is computed by the source and never read. *)
Definition simple_score_answer (answer topic difficulty : string) : option AnswerScore :=
  let answer_length := PyStr.len (PyStr.strip answer) in
  let '(score0, reasoning0, strengths0, improvements0) :=
    if answer_length <? 20 then
      (3, "Answer is too brief for a technical question", [],
       ["Provide more detailed explanation"; "Include examples or use cases"])
    else if answer_length <? 50 then
      (5, "Answer has basic content but lacks depth", ["Clear and concise"],
       ["Add more technical details"; "Explain the reasoning behind your answer"])
    else if answer_length <? 150 then
      (7, "Good comprehensive answer with adequate detail",
       ["Well-structured response"; "Good level of detail"],
       ["Could include more specific examples"])
    else
      (8, "Comprehensive and detailed answer",
       ["Thorough explanation"; "Good depth of knowledge"],
       ["Excellent detail level"]) in
  let score1 :=
    if String.eqb difficulty "easy" && (score0 >=? 6) then Z.min 10 (score0 + 1)
    else if String.eqb difficulty "hard" && (score0 <=? 7) then Z.max 1 (score0 - 1)
    else score0 in
  AnswerScore_checked score1 reasoning0 strengths0 improvements0.

(** The retry decorator: [attempts] calls at most, the first one that
    returns wins; [None] is the error raised once the attempts are used up. *)
Fixpoint retry {A : Type} (attempts : nat) (i : nat) (call : nat -> option A) : option A :=
  match attempts with
  | O => None
  | S n =>
      match call i with
      | Some a => Some a
      | None => retry n (S i) call
      end
  end.

Section Service.

(** [json.loads]; [None] is a decoding error. *)
Variable json_loads : string -> option json.

Definition parse_failure_default : json :=
  JDict [("score", JInt 5);
         ("reasoning", JStr "Unable to parse detailed scoring.");
         ("strengths", JList [JStr "Answer provided"]);
         ("improvements", JList [JStr "Could provide more detail"])].

(** [_extract_json], core/answer_scorer.py lines 27-47. *)
Definition _extract_json (text : string) : json :=
  match json_loads text with
  | Some v => v
  | None =>
      let start := PyStr.find "{" text in
      let end_ := PyStr.rfind "}" text in
      if negb (start =? -1) && negb (end_ =? -1) && (end_ >? start) then
        match json_loads (PyStr.slice text start (end_ + 1)) with
        | Some v => v
        | None => parse_failure_default
        end
      else parse_failure_default
  end.

(** The [try] block of [score_answer] (core/answer_scorer.py lines 93-107);
    [None] is any exception raised in
    it: the call failing, [.get] on a value that is no dict, an unordered
    comparison in the clamp, a validation error. *)
Definition score_answer_try (r : reply) : option AnswerScore :=
  match r with
  | Raises => None
  | Content response =>
      match _extract_json response with
      | JDict score_data =>
          m ← py_min_int 10 (dict_get score_data "score" (JInt 5));
          sc ← py_max_int 0 m;
          AnswerScore_new sc
            (dict_get score_data "reasoning" (JStr "No detailed reasoning provided"))
            (dict_get score_data "strengths" (JList []))
            (dict_get score_data "improvements" (JList []))
      | _ => None
      end
  end.

(** One call of the undecorated [score_answer]. The request only feeds the
    service, whose answer [r] is an input here. *)
Definition score_answer_call (question answer topic difficulty : string)
    (experience_years : pyfloat) (r : reply) : option AnswerScore :=
  match score_answer_try r with
  | Some a => Some a
  | None => simple_score_answer answer topic difficulty
  end.

(** [score_answer] under its retry decorator: [service i] is the service's
    answer to the request of attempt [i]. *)
Definition score_answer (question answer topic difficulty : string)
    (experience_years : pyfloat) (service : nat -> reply) : option AnswerScore :=
  retry 3 0 (fun i => score_answer_call question answer topic difficulty
                        experience_years (service i)).

End Service.

(** ** The overall score *)

(** The integer nearest to [a / b], ties to the even one ([b > 0]). *)
Definition div_half_even (a b : Z) : Z :=
  let q := a / b in
  match (2 * (a mod b)) ?= b with
  | Lt => q
  | Gt => q + 1
  | Eq => if Z.even q then q else q + 1
  end.

(** [a / b] on two ints, [a >= 0] and [b > 0]: the binary64 nearest to the
    quotient, ties to even, as a 53-bit significand [m] and a binary
    exponent [e] (the value is [m * 2^e]). Quotients outside the normal
    range of binary64 are not modelled. *)
Definition true_div (a b : Z) : Z * Z :=
  if a =? 0 then (0, 0)
  else
    let la := Z.log2 a in
    let lb := Z.log2 b in
    let l := if a * 2 ^ lb >=? b * 2 ^ la then la - lb else la - lb - 1 in
    let e := l - 52 in
    let m := if e <? 0 then div_half_even (a * 2 ^ (- e)) b
             else div_half_even a (b * 2 ^ e) in
    (m, e).

(** The same quotient computed by the machine's binary64 division, decoded
    to significand and exponent; used to compare [true_div] with it. *)
Definition machine_div (a b : Z) : option (Z * Z) :=
  match FloatOps.Prim2SF
          (PrimFloat.div (PrimFloat.of_uint63 (Uint63.of_Z a))
                         (PrimFloat.of_uint63 (Uint63.of_Z b))) with
  | SpecFloat.S754_zero _ => Some (0, 0)
  | SpecFloat.S754_finite false m e => Some (Z.pos m, e)
  | _ => None
  end.

(** The pairs total / count for up to [n] questions with scores 0 to 10. *)
Definition score_quotients (n : nat) : list (Z * Z) :=
  flat_map (fun b => map (fun a => (Z.of_nat a, Z.of_nat b)) (seq 0 (10 * b + 1)))
           (seq 1 n).

(** [round(x, 1)] on the binary64 [m * 2^e]: the decimal with one digit
    after the point nearest to its exact value, ties to even. The float
    returned is the one nearest to that decimal, which stands for it here. *)
Definition round1 (x : Z * Z) : Q :=
  let '(m, e) := x in
  let tenths := if e <? 0 then div_half_even (10 * m) (2 ^ (- e))
                else 10 * m * 2 ^ e in
  (tenths # 10)%Q.

Definition sum_scores (scores : gmap string AnswerScore) : Z :=
  map_fold (fun _ a acc => score a + acc) 0 scores.

(** [calculate_overall_score], core/answer_scorer.py lines 153-159. *)
Definition calculate_overall_score (scores : gmap string AnswerScore) : Q :=
  if bool_decide (scores = ∅) then 0%Q
  else
    let total_score := sum_scores scores in
    round1 (true_div total_score (Z.of_nat (size scores))).

(* ================================================================== *)
(** * core/qa_generator.py *)
(* ================================================================== *)

(** [l[:k]]: a negative [k] counts from the end. *)
Definition py_prefix {A : Type} (k : Z) (l : list A) : list A :=
  if k <? 0 then take (Z.to_nat (Z.of_nat (length l) + k)) l
  else take (Z.to_nat k) l.

(** [stack or [..]]: an empty list is false. *)
Definition or_default {A : Type} (l dflt : list A) : list A :=
  match l with
  | [] => dflt
  | _ :: _ => l
  end.

Definition DIFFICULTIES : list string := ["easy"; "medium"; "hard"].

(** The outcome of building a [QAQuestion] from the keywords of one
    decoded item. *)
Inductive built : Type :=
| Built (q : QAQuestion)
| Invalid        (* ValidationError: the loop skips the item *)
| NotMapping.    (* TypeError: not caught by the loop *)

Definition validate_difficulty (v : option json) : option string :=
  match v with
  | None => Some "medium"
  | Some (JStr s) => if bool_decide (s ∈ DIFFICULTIES) then Some s else None
  | Some _ => None
  end.

Definition validate_question_id (v : option json) : option (option string) :=
  match v with
  | None | Some JNull => Some None
  | Some (JStr s) => Some (Some s)
  | Some _ => None
  end.

Definition QAQuestion_fields (kv : list (string * json)) : option QAQuestion :=
  t ← assoc_last "topic" kv ≫= validate_str;
  q ← assoc_last "question" kv ≫= validate_str;
  d ← validate_difficulty (assoc_last "difficulty" kv);
  i ← validate_question_id (assoc_last "question_id" kv);
  Some (mkQAQuestion t q d i).

Definition QAQuestion_new (it : json) : built :=
  match it with
  | JDict kv =>
      match QAQuestion_fields kv with
      | Some q => Built q
      | None => Invalid
      end
  | _ => NotMapping
  end.

(** The loop over [data["items"]]; [None] is the uncaught [TypeError]. *)
Fixpoint build_items (l : list json) : option (list QAQuestion) :=
  match l with
  | [] => Some []
  | it :: rest =>
      match QAQuestion_new it with
      | NotMapping => None
      | Invalid => build_items rest
      | Built q => qs ← build_items rest; Some (q :: qs)
      end
  end.

(** [_fallback_items], core/qa_generator.py lines 44-55. *)
Definition _fallback_items (stack : list string) (k : Z) : list QAQuestion :=
  let base := or_default stack ["general software engineering"] in
  map (fun t => mkQAQuestion t ("Briefly explain core principles of " +:+ t +:+ ".")
                  "medium" None)
      (py_prefix k base).

(** [[s.strip() for s in stack if s and s.strip()]] *)
Definition normalize_stack (stack : list string) : list string :=
  map PyStr.strip
    (filter (fun s => PyStr.truthy s && PyStr.truthy (PyStr.strip s) = true) stack).

Section Generator.

Variable json_loads : string -> option json.

(** [_best_effort_json], core/qa_generator.py lines 30-41. [JNull] is
    Python's [None], which is also what a failed parse returns. *)
Definition _best_effort_json (text : string) : json :=
  match json_loads text with
  | Some v => v
  | None =>
      let start := PyStr.find "{" text in
      let end_ := PyStr.rfind "}" text in
      if negb (start =? -1) && negb (end_ =? -1) && (end_ >? start) then
        match json_loads (PyStr.slice text start (end_ + 1)) with
        | Some v => v
        | None => JNull
        end
      else JNull
  end.

(** One call of the undecorated [generate_stack_questions]
    (core/qa_generator.py lines 59-93); [None] is a
    raised exception (the service call, or an item that is no mapping). *)
Definition generate_call (stack : list string) (k : Z) (r : reply) : option QASet :=
  let stack := normalize_stack stack in
  match r with
  | Raises => None
  | Content raw =>
      let data := _best_effort_json raw in
      items ← match data with
              | JDict d =>
                  match assoc_last "items" d with
                  | Some (JList l) => build_items l
                  | _ => Some []
                  end
              | _ => Some []
              end;
      let items := match items with
                   | [] => _fallback_items stack k
                   | _ :: _ => items
                   end in
      Some (py_prefix k items)
  end.

(** The items that one call collects from a reply that came,
    core/qa_generator.py lines 79-88: the valid ones, in the reply's order;
    [None] is the exception of an item that is no mapping. *)
Definition collected_items (raw : string) : option (list QAQuestion) :=
  match _best_effort_json raw with
  | JDict d =>
      match assoc_last "items" d with
      | Some (JList l) => build_items l
      | _ => Some []
      end
  | _ => Some []
  end.

(** [generate_stack_questions] under its retry decorator. *)
Definition generate_stack_questions (stack : list string) (k : Z)
    (service : nat -> reply) : option QASet :=
  retry 3 0 (fun i => generate_call stack k (service i)).

End Generator.

(* ================================================================== *)
(** * app.py *)
(* ================================================================== *)

Definition INTAKE_STEPS : list Step :=
  [CONSENT; INTAKE_NAME; INTAKE_EMAIL; INTAKE_PHONE; INTAKE_YOE;
   INTAKE_POSITION; INTAKE_LOCATION; INTAKE_TECH].

(** ** The fallback of [generate_questions_sync] *)

Definition questions_map : list (string * string) :=
  [("python", "Explain the difference between lists and tuples in Python and when to use each.");
   ("django", "How does Django's ORM work and what are its main advantages?");
   ("javascript", "What is the difference between == and === in JavaScript?");
   ("react", "Explain the component lifecycle in React.");
   ("sql", "What's the difference between INNER JOIN and LEFT JOIN?");
   ("machine learning", "Explain the bias-variance tradeoff in machine learning.");
   ("data science", "How do you handle missing data in a dataset?");
   ("aws", "What are the key differences between EC2 and Lambda?");
   ("docker", "Explain the difference between Docker images and containers.");
   ("git", "What's the difference between merge and rebase in Git?");
   ("nodejs", "Explain the event loop in Node.js.");
   ("java", "What's the difference between abstract classes and interfaces in Java?");
   ("c++", "Explain the concept of RAII in C++.");
   ("kubernetes", "What's the difference between Deployment and StatefulSet?");
   ("mongodb", "Explain the difference between SQL and NoSQL databases.")].

(** The inner loop over [questions_map.items()], up to its [break]. *)
Fixpoint pick_question (tech_lower : string) (used_questions : list string)
    (m : list (string * string)) : option string :=
  match m with
  | [] => None
  | (key, q) :: rest =>
      if PyStr.contains key tech_lower || PyStr.contains tech_lower key then
        if negb (bool_decide (q ∈ used_questions)) then Some q
        else pick_question tech_lower used_questions rest
      else pick_question tech_lower used_questions rest
  end.

(** The loop over [base[:k]]. [draws] is the sequence of identifiers that
    [uuid.uuid4()] returns, [i] the number of draws made so far. *)
Fixpoint fallback_loop (techs : list string) (used_questions : list string)
    (draws : nat -> N) (i : nat) : list QAQuestion :=
  match techs with
  | [] => []
  | tech :: rest =>
      let tech_lower := PyStr.strip (PyStr.lower tech) in
      let picked := pick_question tech_lower used_questions questions_map in
      let used' := match picked with
                   | Some q => q :: used_questions
                   | None => used_questions
                   end in
      let question_text :=
        match picked with
        | Some q => q
        | None => "Describe a challenging project you worked on using " +:+ tech
                  +:+ " and how you solved key problems."
        end in
      mkQAQuestion tech question_text "medium" (Some (uuid_prefix (draws i)))
      :: fallback_loop rest used' draws (S i)
  end.

(** The [while len(items) < k] loop, [n] rounds of it. *)
Fixpoint pad_items (n : nat) (draws : nat -> N) (i : nat) : list QAQuestion :=
  match n with
  | O => []
  | S n' =>
      mkQAQuestion "general"
        "Describe your approach to debugging complex technical issues."
        "medium" (Some (uuid_prefix (draws i)))
      :: pad_items n' draws (S i)
  end.

(** The [except] branch of [generate_questions_sync], app.py lines 241-300:
    the questions, and the number of identifiers drawn. *)
Definition enhanced_fallback (stack : list string) (k : Z) (draws : nat -> N)
    : QASet * nat :=
  let base := or_default stack ["general software engineering"] in
  let items := fallback_loop (py_prefix k base) [] draws 0 in
  let missing := Z.to_nat (k - Z.of_nat (length items)) in
  let items := items ++ pad_items missing draws (length items) in
  (py_prefix k items, (length items)).

Section App.

Variable json_loads : string -> option json.

(** [float(s)]; [None] is the [ValueError]. *)
Variable py_float : string -> option pyfloat.

(** [generate_questions_sync], app.py lines 234-300: the question set, and
    the number of identifiers drawn on the way. *)
Definition generate_questions_sync (stack : list string) (k : Z)
    (service : nat -> reply) (draws : nat -> N) : QASet * nat :=
  match generate_stack_questions json_loads stack k service with
  | Some qa => (qa, O)
  | None => enhanced_fallback stack k draws
  end.

(** ** Intake validation *)

Definition consent_words : list string :=
  ["agree"; "yes"; "ok"; "proceed"; "accept"; "confirm"].

(** The class [[^@\s]] of [EMAIL_RX]. *)
Definition email_char (c : ascii) : bool :=
  negb (Ascii.eqb c "@") && negb (PyStr.isspace c).

Fixpoint split_at_first (c : ascii) (l : list ascii) : option (list ascii * list ascii) :=
  match l with
  | [] => None
  | x :: l' =>
      if Ascii.eqb x c then Some ([], l')
      else '(a, b) ← split_at_first c l'; Some (x :: a, b)
  end.

(** [[^@\s]+@[^@\s]+\.[^@\s]+] against a whole text. *)
Definition email_body (l : list ascii) : bool :=
  match split_at_first "@" l with
  | None => false
  | Some (loc, dom) =>
      match loc with [] => false | _ :: _ => true end
      && forallb email_char loc && forallb email_char dom
      && existsb (Ascii.eqb ".") (removelast (tail dom))
  end.

(** [EMAIL_RX.match(s)] seen as a truth value. The final [$] also matches
    before one newline that ends the text. *)
Definition EMAIL_RX_match (s : string) : bool :=
  let l := PyStr.chars s in
  email_body l ||
  match rev l with
  | c :: r => Ascii.eqb c "010" && email_body (rev r)
  | [] => false
  end.

(** [re.sub(r'[^\d+]', '', val)] on a text of code points below 256, where
    the ten digits 0 to 9 are the only decimal digits; [Unicode.clean_phone]
    is the pattern on the text of any script. *)
Definition clean_phone (val : string) : string :=
  PyStr.str (filter (fun ch => PyStr.is_decimal ch || Ascii.eqb ch "+" = true)
                    (PyStr.chars val)).

Definition phone_accepted (cleaned_phone : string) : bool :=
  (PyStr.len cleaned_phone >=? 6)
  && (PyStr.startswith cleaned_phone "+" || PyStr.isdigit cleaned_phone).

(** [0 <= years <= 50] *)
Definition years_in_range (years : pyfloat) : bool :=
  match years with
  | FFin q => Qle_bool 0 q && Qle_bool q 50
  | FInf _ | FNan => false
  end.

(** [[s.strip() for s in val.split(",") if s.strip()]] *)
Definition comma_list (val : string) : list string :=
  map PyStr.strip
    (filter (fun s => PyStr.truthy (PyStr.strip s) = true) (PyStr.split "," val)).

(** [val and len(val.strip()) >= 2] *)
Definition long_enough (val : string) : bool :=
  PyStr.truthy val && (PyStr.len (PyStr.strip val) >=? 2).

(** [apply_answer_to_step], app.py lines 52-135: the returned flag, and the
    candidate object as the call leaves it. The messages it emits go to the chat history,
    which the model leaves out. *)
Definition apply_answer_to_step (st : Step) (text : string) (c : Candidate)
    : bool * Candidate :=
  let val := PyStr.strip text in
  match st with
  | CONSENT =>
      if existsb (fun w => PyStr.contains w (PyStr.lower val)) consent_words
      then (true, set_consent_given true c)
      else (false, c)
  | INTAKE_NAME =>
      if long_enough val then (true, set_full_name (Some (PyStr.strip val)) c)
      else (false, c)
  | INTAKE_EMAIL =>
      let candidate_input := PyStr.lower (PyStr.strip_set ",. " (PyStr.strip val)) in
      if EMAIL_RX_match candidate_input then (true, set_email (Some candidate_input) c)
      else (false, c)
  | INTAKE_PHONE =>
      let cleaned_phone := clean_phone val in
      if phone_accepted cleaned_phone then (true, set_phone (Some cleaned_phone) c)
      else (false, c)
  | INTAKE_YOE =>
      match py_float (PyStr.replace_char "," "." val) with
      | Some years =>
          if years_in_range years then (true, set_years_experience (Some years) c)
          else (false, c)
      | None => (false, c)
      end
  | INTAKE_POSITION =>
      if long_enough val then (true, set_desired_positions (comma_list val) c)
      else (false, c)
  | INTAKE_LOCATION =>
      if long_enough val then (true, set_current_location (Some (PyStr.strip val)) c)
      else (false, c)
  | INTAKE_TECH =>
      if long_enough val then (true, set_tech_stack (comma_list val) c)
      else (false, c)
  | _ => (false, c)
  end.

(** ** The session *)

(** The entries of [st.session_state] that the core reads and writes.
    [generated_questions] and [technical_questions] are bound to the same
    list, which is never updated in place. The chat history only receives
    messages and is left out. *)
Record Session : Type := mkSession {
  candidate : Candidate;
  state : ConversationState;
  questions_generated : bool;
  generated_questions : list QuestionRecord
}.

Definition with_candidate (c : Candidate) (s : Session) : Session :=
  mkSession c (state s) (questions_generated s) (generated_questions s).

Definition with_state (st : ConversationState) (s : Session) : Session :=
  mkSession (candidate s) st (questions_generated s) (generated_questions s).

(** [initialize_session], first run: the greeting is said and the step is
    set to [CONSENT]. *)
Definition initial_session : Session :=
  mkSession Candidate_default (mkConversationState CONSENT false 0 false) false [].

(** How a call that updates the session ends: it returns a flag, or it
    raises; the session keeps the updates made before the exception. *)
Inductive outcome : Type :=
| Returned (flag : bool) (s : Session)
| Raised (s : Session).

(** [l[i]]: a negative index counts from the end, [None] is [IndexError]. *)
Definition py_index {A : Type} (l : list A) (i : Z) : option A :=
  if i <? 0 then
    if - i <=? Z.of_nat (length l) then l !! Z.to_nat (Z.of_nat (length l) + i)
    else None
  else l !! Z.to_nat i.

(** What the environment contributes to one run of the script: the answers
    of the service to the generator's and to the scorer's attempts, and the
    identifiers that [uuid.uuid4()] returns, in call order. *)
Record Env : Type := mkEnv {
  gen_service : nat -> reply;
  score_service : nat -> reply;
  draws : nat -> N
}.

(** [handle_technical_answer], app.py lines 137-232. *)
Definition handle_technical_answer (text : string) (service : nat -> reply)
    (s : Session) : outcome :=
  if negb (PyStr.truthy text) || (PyStr.len (PyStr.strip text) <? 10) then
    Returned false s
  else
    let current_idx := current_question_index (state s) in
    let questions := generated_questions s in
    if current_idx <? Z.of_nat (length questions) then
      match py_index questions current_idx with
      | None => Raised s
      | Some question =>
          (* the materialized dict always has the key, so [.get] never
             falls back to its default *)
          let question_id := q_question_id question in
          let c1 := set_technical_answers
                      (<[question_id := PyStr.strip text]>
                         (technical_answers (candidate s))) (candidate s) in
          let experience := match years_experience (candidate s) with
                            | Some y => y
                            | None => FFin 0
                            end in
          let scored :=
            match score_answer json_loads (q_question question) (PyStr.strip text)
                    (q_topic question) (q_difficulty question) experience service with
            | Some a => Some a
            | None => simple_score_answer (PyStr.strip text) (q_topic question)
                        (q_difficulty question)
            end in
          match scored with
          | None => Raised (with_candidate c1 s)
          | Some score_result =>
              let c2 := set_answer_scores
                          (<[question_id := score_result]> (answer_scores c1)) c1 in
              let st1 := set_current_question_index (current_idx + 1) (state s) in
              if current_idx + 1 <? Z.of_nat (length questions) then
                match py_index questions (current_idx + 1) with
                | Some _ => Returned true (with_state st1 (with_candidate c2 s))
                | None => Raised (with_state st1 (with_candidate c2 s))
                end
              else
                let overall := calculate_overall_score (answer_scores c2) in
                Returned true
                  (with_state (set_step FOLLOWUP st1)
                     (with_candidate (set_overall_score (Some overall) c2) s))
          end
      end
    else Returned false s.

(** [q.question_id or str(uuid.uuid4())[:8]] over [qa.items], app.py lines
    388-395. *)
Fixpoint materialize (items : list QAQuestion) (draws : nat -> N) (i : nat)
    : list QuestionRecord :=
  match items with
  | [] => []
  | q :: rest =>
      match question_id q with
      | Some qid =>
          if PyStr.truthy qid then
            mkQuestionRecord (topic q) (question q) (difficulty q) qid
            :: materialize rest draws i
          else
            mkQuestionRecord (topic q) (question q) (difficulty q)
              (uuid_prefix (draws i))
            :: materialize rest draws (S i)
      | None =>
          mkQuestionRecord (topic q) (question q) (difficulty q)
            (uuid_prefix (draws i))
          :: materialize rest draws (S i)
      end
  end.

(** The body of [if prompt:], app.py lines 335-379, for a non-empty
    [prompt]. An exception raised
    while the turn is processed is caught at the end of the block; the
    updates made before it stay. *)
Definition user_turn (prompt : string) (service : nat -> reply) (s : Session) : Session :=
  if detect_exit prompt then
    with_state (set_step END (set_exit_detected true (state s))) s
  else
    let current_step := step (state s) in
    if bool_decide (current_step ∈ INTAKE_STEPS) then
      let '(accepted, c) := apply_answer_to_step current_step prompt (candidate s) in
      let s1 := with_candidate c s in
      if accepted then
        match next_step c (state s1) with
        | Some n => with_state (set_step n (state s1)) s1
        | None => s1
        end
      else s1
    else if bool_decide (current_step = TECHNICAL_QA) then
      match handle_technical_answer prompt service s with
      | Returned _ s' => s'
      | Raised s' => s'
      end
    else if bool_decide (current_step = FOLLOWUP) then
      with_candidate
        (set_additional_comments (Some (PyStr.strip prompt)) (candidate s)) s
    else s.

(** The block that generates the questions once the intake is complete,
    app.py lines 382-425.
    Reading [questions_data[0]] of an empty list raises; the handler of the
    block then moves to [FOLLOWUP]. *)
Definition generation_block (env : Env) (s : Session) : Session :=
  if bool_decide (step (state s) = GENERATE_QA) && negb (questions_generated s) then
    let '(qa, drawn) := generate_questions_sync (tech_stack (candidate s)) 5
                          (gen_service env) (draws env) in
    let questions_data := materialize qa (draws env) drawn in
    let c1 := set_technical_questions questions_data (candidate s) in
    match questions_data with
    | [] =>
        mkSession c1 (set_step FOLLOWUP (state s)) (questions_generated s)
          questions_data
    | _ :: _ =>
        mkSession c1
          (set_current_question_index 0 (set_step TECHNICAL_QA (state s)))
          true questions_data
    end
  else s.

(** Whether the body of [if prompt:] leaves the run by [st.rerun()], which
    stops the script so that the lines after it run in the next run only:
    after an exit request (line 342), an accepted intake answer (line 363),
    an answer that [handle_technical_answer] accepted (line 368), a
    follow-up comment (line 374), and from the handler of an exception
    (line 379). A rejected answer leaves the block without a rerun. *)
Definition user_turn_reruns (prompt : string) (service : nat -> reply) (s : Session)
    : bool :=
  if detect_exit prompt then true
  else
    let current_step := step (state s) in
    if bool_decide (current_step ∈ INTAKE_STEPS) then
      fst (apply_answer_to_step current_step prompt (candidate s))
    else if bool_decide (current_step = TECHNICAL_QA) then
      match handle_technical_answer prompt service s with
      | Returned flag _ => flag
      | Raised _ => true
      end
    else bool_decide (current_step = FOLLOWUP).

(** What the call of [apply_answer_to_step] in the turn returns (line 349);
    [None] when the turn does not call it: after an exit request, which is
    handled first, and at a step that is no intake step. *)
Definition turn_verdict (prompt : string) (s : Session) : option bool :=
  if detect_exit prompt then None
  else if bool_decide (step (state s) ∈ INTAKE_STEPS) then
    Some (fst (apply_answer_to_step (step (state s)) prompt (candidate s)))
  else None.

(** One run of the script, from its first line to its last line or to the
    [st.rerun()] that ends it: the user's message, if there is one, and,
    unless the message has ended the run, the generation block. The rerun
    that [st.rerun()] asks for is the next run, without a message. *)
Definition script_run (prompt : option string) (env : Env) (s : Session) : Session :=
  match prompt with
  | Some p =>
      if PyStr.truthy p then
        if user_turn_reruns p (score_service env) s
        then user_turn p (score_service env) s
        else generation_block env (user_turn p (score_service env) s)
      else generation_block env s
  | None => generation_block env s
  end.

(** The states a session is in at the end of a run. Discarding the session
    (the reset button) starts another session from [initial_session]. *)
Inductive reachable : Session -> Prop :=
| reachable_initial : reachable initial_session
| reachable_run (s : Session) (prompt : option string) (env : Env) :
    reachable s -> reachable (script_run prompt env s).

End App.

(* ================================================================== *)
(** * Executable fragments of [json.loads] and [float] *)
(* ================================================================== *)

(** The value of the binary64 with significand [m] and exponent [e]. *)
Definition binary64_value (x : Z * Z) : Q :=
  let '(m, e) := x in
  if e <? 0 then (m # Z.to_pos (2 ^ (- e)))%Q else inject_Z (m * 2 ^ e).

Module Fragment.

Import PyStr.

Definition dquote : ascii := ascii_of_nat 34.
Definition backslash : ascii := ascii_of_nat 92.

Definition is_ws (c : ascii) : bool :=
  let n := code c in ((n =? 32) || (n =? 9) || (n =? 10) || (n =? 13))%N.

Fixpoint skip_ws (l : list ascii) : list ascii :=
  match l with
  | c :: r => if is_ws c then skip_ws r else l
  | [] => []
  end.

Fixpoint span_digits (l : list ascii) : list ascii * list ascii :=
  match l with
  | c :: r =>
      if is_decimal c then let '(ds, rest) := span_digits r in (c :: ds, rest)
      else ([], l)
  | [] => ([], [])
  end.

Definition digit_value (c : ascii) : Z := Z.of_N (code c) - 48.

Definition decimal_value (ds : list ascii) : Z :=
  fold_left (fun acc c => 10 * acc + digit_value c) ds 0.

(** The float nearest to the decimal [ip.fp]. *)
Definition float_of_decimal (negative : bool) (ip fp : list ascii) : pyfloat :=
  let q := binary64_value
             (true_div (decimal_value (ip ++ fp)) (10 ^ Z.of_nat (length fp))) in
  FFin (if negative then Qopp q else q).

Definition unescape (c : ascii) : option ascii :=
  if Ascii.eqb c dquote then Some dquote
  else if Ascii.eqb c backslash then Some backslash
  else if Ascii.eqb c "/" then Some "/"%char
  else if Ascii.eqb c "n" then Some "010"%char
  else if Ascii.eqb c "t" then Some "009"%char
  else if Ascii.eqb c "r" then Some "013"%char
  else if Ascii.eqb c "b" then Some "008"%char
  else if Ascii.eqb c "f" then Some "012"%char
  else None.

(** The characters of a string literal after its opening quote. *)
Fixpoint string_body (l : list ascii) (acc : list ascii) : option (string * list ascii) :=
  match l with
  | [] => None
  | c :: r =>
      if Ascii.eqb c dquote then Some (str (rev acc), r)
      else if Ascii.eqb c backslash then
        match r with
        | e :: r' =>
            match unescape e with
            | Some x => string_body r' (x :: acc)
            | None => None
            end
        | [] => None
        end
      else if (code c <? 32)%N then None
      else string_body r (c :: acc)
  end.

(** A number: an integer part without superfluous leading zero, and an
    optional fraction. Exponents are outside the fragment. *)
Definition number (l : list ascii) : option (json * list ascii) :=
  let '(negative, l1) := match l with
                         | c :: r => if Ascii.eqb c "-" then (true, r) else (false, l)
                         | [] => (false, l)
                         end in
  let '(ip, l2) := match l1 with
                   | c :: r => if Ascii.eqb c "0" then ([c], r) else span_digits l1
                   | [] => ([], [])
                   end in
  match ip with
  | [] => None
  | _ :: _ =>
      let whole := JInt (if negative then - decimal_value ip else decimal_value ip) in
      match l2 with
      | c :: r =>
          if Ascii.eqb c "." then
            match span_digits r with
            | ([], _) => Some (whole, l2)
            | (fp, l3) =>
                match l3 with
                | x :: _ => if Ascii.eqb x "e" || Ascii.eqb x "E" then None
                            else Some (JFloat (float_of_decimal negative ip fp), l3)
                | [] => Some (JFloat (float_of_decimal negative ip fp), l3)
                end
            end
          else if Ascii.eqb c "e" || Ascii.eqb c "E" then None
          else Some (whole, l2)
      | [] => Some (whole, l2)
      end
  end.

Definition literal (word : string) (v : json) (l : list ascii) : option (json * list ascii) :=
  if starts_with (chars word) l then Some (v, drop (String.length word) l) else None.

Fixpoint value (fuel : nat) (l : list ascii) : option (json * list ascii) :=
  match fuel with
  | O => None
  | S n =>
      match l with
      | [] => None
      | c :: r =>
          if Ascii.eqb c dquote then
            '(s, r') ← string_body r []; Some (JStr s, r')
          else if Ascii.eqb c "[" then
            match skip_ws r with
            | x :: r2 => if Ascii.eqb x "]" then Some (JList [], r2)
                         else elements n (x :: r2) []
            | [] => None
            end
          else if Ascii.eqb c "{" then
            match skip_ws r with
            | x :: r2 => if Ascii.eqb x "}" then Some (JDict [], r2)
                         else members n (x :: r2) []
            | [] => None
            end
          else if Ascii.eqb c "n" then literal "null" JNull l
          else if Ascii.eqb c "t" then literal "true" (JBool true) l
          else if Ascii.eqb c "f" then literal "false" (JBool false) l
          else if Ascii.eqb c "N" then literal "NaN" (JFloat FNan) l
          else if Ascii.eqb c "I" then literal "Infinity" (JFloat (FInf false)) l
          else if starts_with (chars "-Infinity") l then
            literal "-Infinity" (JFloat (FInf true)) l
          else number l
      end
  end
with elements (fuel : nat) (l : list ascii) (acc : list json) : option (json * list ascii) :=
  match fuel with
  | O => None
  | S n =>
      '(v, r) ← value n l;
      match skip_ws r with
      | x :: r2 =>
          if Ascii.eqb x "]" then Some (JList (rev (v :: acc)), r2)
          else if Ascii.eqb x "," then elements n (skip_ws r2) (v :: acc)
          else None
      | [] => None
      end
  end
with members (fuel : nat) (l : list ascii) (acc : list (string * json))
    : option (json * list ascii) :=
  match fuel with
  | O => None
  | S n =>
      match l with
      | q :: r0 =>
          if Ascii.eqb q dquote then
            '(k, r1) ← string_body r0 [];
            match skip_ws r1 with
            | colon :: r2 =>
                if Ascii.eqb colon ":" then
                  '(v, r3) ← value n (skip_ws r2);
                  match skip_ws r3 with
                  | x :: r4 =>
                      if Ascii.eqb x "}" then Some (JDict (rev ((k, v) :: acc)), r4)
                      else if Ascii.eqb x "," then members n (skip_ws r4) ((k, v) :: acc)
                      else None
                  | [] => None
                  end
                else None
            | [] => None
            end
          else None
      | [] => None
      end
  end.

(** The fragment of [json.loads]: one value between optional white space. *)
Definition json_loads (text : string) : option json :=
  let l := chars text in
  '(v, r) ← value (S (length l)) (skip_ws l);
  match skip_ws r with
  | [] => Some v
  | _ :: _ => None
  end.

(** The fragment of [float]: a decimal with optional sign between optional
    white space; [None] is the [ValueError]. *)
Definition py_float (text : string) : option pyfloat :=
  let l := chars (strip text) in
  let '(negative, l1) := match l with
                         | c :: r => if Ascii.eqb c "-" then (true, r)
                                     else if Ascii.eqb c "+" then (false, r)
                                     else (false, l)
                         | [] => (false, l)
                         end in
  let '(ip, l2) := span_digits l1 in
  match l2 with
  | [] => match ip with
          | [] => None
          | _ :: _ => Some (float_of_decimal negative ip [])
          end
  | c :: r =>
      if Ascii.eqb c "." then
        match span_digits r with
        | (fp, []) => match ip ++ fp with
                      | [] => None
                      | _ :: _ => Some (float_of_decimal negative ip fp)
                      end
        | (_, _ :: _) => None
        end
      else None
  end.

(** Writes a JSON text with apostrophes in the place of the double quotes. *)
Definition quoted (s : string) : string :=
  str (map (fun c => if Ascii.eqb c "'" then dquote else c) (chars s)).

End Fragment.

(* ================================================================== *)
(** * The specification's wording, for comparison with the code *)
(* ================================================================== *)

Module Spec.

(** "Unset": [None], an empty sequence, or a blank string. *)
Definition unset_text (o : option string) : bool :=
  match o with
  | None => true
  | Some s => bool_decide (PyStr.strip s = "")
  end.

Definition unset_number (o : option pyfloat) : bool :=
  match o with
  | None => true
  | Some _ => false
  end.

Definition unset_sequence (l : list string) : bool := bool_decide (l = []).

(** The required fields in their fixed order, each with its step. *)
Definition required_fields (c : Candidate) : list (bool * Step) :=
  [(unset_text (full_name c), INTAKE_NAME);
   (unset_text (email c), INTAKE_EMAIL);
   (unset_text (phone c), INTAKE_PHONE);
   (unset_number (years_experience c), INTAKE_YOE);
   (unset_sequence (desired_positions c), INTAKE_POSITION);
   (unset_text (current_location c), INTAKE_LOCATION);
   (unset_sequence (tech_stack c), INTAKE_TECH)].

(** Rules 1 to 3 of the transition function. *)
Definition step_by_rules (c : Candidate) : Step :=
  if consent_given c then
    match List.find fst (required_fields c) with
    | Some (_, s) => s
    | None => GENERATE_QA
    end
  else CONSENT.

(** The rule-based scorer: the base score is a step function of the
    trimmed length. *)
Definition base_score (trimmed_length : Z) : Z :=
  if decide (trimmed_length < 20) then 3
  else if decide (trimmed_length < 50) then 5
  else if decide (trimmed_length < 150) then 7
  else 8.

(** One point up for "easy" from 6 on, capped at 10; one point down for
    "hard" up to 7, floored at 1. *)
Definition adjusted_score (difficulty : string) (base : Z) : Z :=
  if decide (difficulty = "easy" /\ 6 <= base) then Z.min 10 (base + 1)
  else if decide (difficulty = "hard" /\ base <= 7) then Z.max 1 (base - 1)
  else base.

(** The fixed texts of each length bucket: reasoning, strengths,
    improvements. *)
Definition bucket_texts (base : Z) : string * list string * list string :=
  if decide (base = 3) then
    ("Answer is too brief for a technical question", [],
     ["Provide more detailed explanation"; "Include examples or use cases"])
  else if decide (base = 5) then
    ("Answer has basic content but lacks depth", ["Clear and concise"],
     ["Add more technical details"; "Explain the reasoning behind your answer"])
  else if decide (base = 7) then
    ("Good comprehensive answer with adequate detail",
     ["Well-structured response"; "Good level of detail"],
     ["Could include more specific examples"])
  else
    ("Comprehensive and detailed answer",
     ["Thorough explanation"; "Good depth of knowledge"],
     ["Excellent detail level"]).

(** The constraint [ge=0, le=10] of the [score] field, on every value of
    a mapping. *)
Definition scores_valid (scores : gmap string AnswerScore) : Prop :=
  map_Forall (fun _ a => 0 <= score a <= 10) scores.

(** The arithmetic mean of the score fields. *)
Definition mean_score (scores : gmap string AnswerScore) : Q :=
  (inject_Z (sum_scores scores) / inject_Z (Z.of_nat (size scores)))%Q.

(** The mapping written [{a: 8, b: 6}]: the scores under their ids. *)
Definition score_map (l : list (string * Z)) : gmap string AnswerScore :=
  list_to_map (map (fun p => (fst p, mkAnswerScore (snd p) "" [] [])) l).

(** The question ids of the candidate's [technical_questions]. *)
Definition question_ids (c : Candidate) : gset string :=
  list_to_set (map q_question_id (technical_questions c)).

(** The key sets of the two mappings grow from [s] to [s']. *)
Definition keys_grow (s s' : Session) : Prop :=
  dom (technical_answers (candidate s)) ⊆ dom (technical_answers (candidate s'))
  /\ dom (answer_scores (candidate s)) ⊆ dom (answer_scores (candidate s')).

(** The key sets of the two mappings are question ids. *)
Definition keys_are_question_ids (s : Session) : Prop :=
  dom (technical_answers (candidate s)) ⊆ question_ids (candidate s)
  /\ dom (answer_scores (candidate s)) ⊆ question_ids (candidate s).

(** The id a generated question carries, if it is not empty. *)
Definition carried_id (q : QAQuestion) : option string :=
  match question_id q with
  | Some qid => if PyStr.truthy qid then Some qid else None
  | None => None
  end.


End Spec.

(** The session an outcome carries. *)
Definition outcome_session (o : outcome) : Session :=
  match o with
  | Returned _ s => s
  | Raised s => s
  end.

(** What holds of every state of a session: both names are bound to the
    same question list, the keys are question ids, and nothing is recorded
    before the questions exist. *)
Definition session_inv (s : Session) : Prop :=
  generated_questions s = technical_questions (candidate s)
  /\ Spec.keys_are_question_ids s
  /\ (questions_generated s = false ->
      technical_answers (candidate s) = ∅
      /\ answer_scores (candidate s) = ∅
      /\ step (state s) <> TECHNICAL_QA).

(* ================================================================== *)
(** * Sample environments and sessions *)
(* ================================================================== *)

Module Sample.

(** A service that is down, one that answers with prose, and identifiers
    whose leading 32 bits count the draws. *)
Definition service_down : nat -> reply := fun _ => Raises.

Definition service_prose : nat -> reply :=
  fun _ => Content "Sorry, I cannot help with that.".

Definition counting_draws : nat -> N := fun i => (N.of_nat i * 2 ^ 96 + 12345)%N.

Definition env_down : Env := mkEnv service_down service_down counting_draws.

Definition run (prompt : string) (env : Env) (s : Session) : Session :=
  script_run Fragment.json_loads Fragment.py_float (Some prompt) env s.

(** The run without message that [st.rerun()] starts. *)
Definition rerun (env : Env) (s : Session) : Session :=
  script_run Fragment.json_loads Fragment.py_float None env s.

(** The session after consent and a name: it waits for the email. *)
Definition at_email : Session :=
  run "Jane Doe" env_down (run "I agree" env_down initial_session).

(** The session at the end of the run that takes the last intake answer:
    the questions are still to be generated. *)
Definition at_generation : Session :=
  run "python, sql" env_down
    (run "Berlin" env_down
       (run "Data Scientist" env_down
          (run "4" env_down
             (run "+123456" env_down
                (run "jane@x.com" env_down at_email))))).

(** The session after the whole intake and the rerun that generates the
    questions, with the service down. *)
Definition at_first_question : Session := rerun env_down at_generation.

(** The session after an exit request at the email step. *)
Definition after_exit : Session := run "bye" env_down at_email.

(** The session after an answer to each of the five questions. *)
Definition at_followup : Session :=
  run "Lists are mutable, tuples are not." env_down
    (run "Lists are mutable, tuples are not." env_down
       (run "Lists are mutable, tuples are not." env_down
          (run "Lists are mutable, tuples are not." env_down
             (run "Lists are mutable, tuples are not." env_down at_first_question)))).



(** A service answer with five valid items, the first with empty texts. *)
Definition five_items_one_blank : string :=
  Fragment.quoted
    "{'items': [{'topic': '', 'question': '', 'difficulty': 'easy'}, {'topic': 'a', 'question': 'b'}, {'topic': 'c', 'question': 'd'}, {'topic': 'e', 'question': 'f'}, {'topic': 'g', 'question': 'h'}]}".

End Sample.

(* ================================================================== *)
(** * More of the code: completeness check, normalizers, masking, history *)
(* ================================================================== *)

(** ** core/state.py: [is_intake_complete] *)

Inductive field_type : Type := T_str | T_number | T_list.

Definition required_fields : list (string * field_type) :=
  [("full_name", T_str); ("email", T_str); ("phone", T_str);
   ("years_experience", T_number); ("desired_positions", T_list);
   ("current_location", T_str); ("tech_stack", T_list)].

(** [getattr(candidate, field_name, None)] *)
Definition getattr_or_none (c : Candidate) (field_name : string) : attr :=
  match getattr c field_name with
  | Some v => v
  | None => ANone
  end.

(** [not val] *)
Definition attr_falsy (val : attr) : bool :=
  match val with
  | ANone => true
  | AStr s => negb (PyStr.truthy s)
  | AList l => match l with [] => true | _ :: _ => false end
  | AFloat (FFin q) => Qeq_bool q 0
  | AFloat _ => false
  | ABool b => negb b
  end.

(** The loop of [is_intake_complete], core/state.py lines 68-78:
    [Some false] is [return False], [Some true] the end of the loop, [None]
    the exception of [.strip()] on a value that is no string. *)
Fixpoint is_intake_complete_loop (c : Candidate) (fields : list (string * field_type))
    : option bool :=
  match fields with
  | [] => Some true
  | (field_name, ft) :: rest =>
      match getattr_or_none c field_name with
      | ANone => Some false
      | val =>
          blank ← match ft with
                  | T_str => match val with
                             | AStr s => Some (negb (PyStr.truthy (PyStr.strip s)))
                             | _ => None
                             end
                  | _ => Some false
                  end;
          if blank : bool then Some false
          else if match ft with T_list => attr_falsy val | _ => false end
               then Some false
               else is_intake_complete_loop c rest
      end
  end.

(** [is_intake_complete], core/state.py lines 56-80. *)
Definition is_intake_complete (c : Candidate) : option bool :=
  finished ← is_intake_complete_loop c required_fields;
  Some (if finished : bool then consent_given c else false).

(** ** core/schemas.py: the list normalizers *)

(** What a list field can be given: [None], one string, or a list. *)
Inductive raw_list : Type :=
| RNone
| RStr (s : string)
| RList (l : list string).

(** [norm_positions], core/schemas.py lines 35-42. *)
Definition norm_positions (v : raw_list) : list string :=
  match v with
  | RNone => []
  | RStr s =>
      filter (fun t => PyStr.truthy t = true)
             (map PyStr.strip (map PyStr.strip (PyStr.split "," s)))
  | RList l => filter (fun t => PyStr.truthy t = true) (map PyStr.strip l)
  end.

(** [norm_stack], core/schemas.py lines 44-51. *)
Definition norm_stack (v : raw_list) : list string :=
  match v with
  | RNone => []
  | RStr s =>
      filter (fun t => PyStr.truthy t = true)
             (map PyStr.strip (map PyStr.strip (PyStr.split "," s)))
  | RList l => filter (fun t => PyStr.truthy t = true) (map PyStr.strip l)
  end.

(** ** core/security.py: masking *)

(** [mask_email], core/security.py lines 24-35. [None] is the [IndexError]
    of [name[0]] on an empty local part. *)
Definition mask_email (email : string) : option string :=
  if negb (PyStr.truthy email) || negb (PyStr.contains "@" email) then Some email
  else
    match split_at_first "@" (PyStr.chars email) with
    | None => Some email
    | Some (name, domain) =>
        match name with
        | [] => None
        | first :: _ =>
            let masked_name :=
              if (length name <=? 2)%nat then [first; "*"%char]
              else first :: repeat "*"%char (length name - 2)
                   ++ [List.last name first] in
            Some (PyStr.str (masked_name ++ "@"%char :: domain))
        end
    end.

(** [mask_phone], core/security.py lines 37-54. The slices [cleaned[-2:]]
    and [cleaned[-4:]] are taken where the length exceeds 4, so they are
    the last two and the last four characters. *)
Definition mask_phone (phone : string) : string :=
  if negb (PyStr.truthy phone) then phone
  else
    let cleaned := PyStr.chars (clean_phone phone) in
    let n := length cleaned in
    if (n <=? 4)%nat then PyStr.str (repeat "*"%char n)
    else if PyStr.startswith (clean_phone phone) "+" then
      if (n <=? 6)%nat then
        PyStr.str (take 2 cleaned ++ repeat "*"%char (n - 4) ++ drop (n - 2) cleaned)
      else
        PyStr.str (take 2 cleaned ++ repeat "*"%char (n - 6) ++ drop (n - 4) cleaned)
    else PyStr.str (repeat "*"%char (n - 4) ++ drop (n - 4) cleaned).

(** ** The phone patterns on text of any script *)

(** The session model takes messages of code points below 256, where the
    pattern [\d] matches the ten digits 0 to 9 only. The two functions that
    clean a phone number with that pattern are given here on a text of
    arbitrary code points as well, the decimal digits of every script
    included. *)
Module Unicode.

(** A text: its code points. *)
Definition text : Type := list N.

(** The code points of a text of the session model. *)
Definition of_string (s : string) : text := map PyStr.code (PyStr.chars s).

(** [str.isspace] on one code point. *)
Definition isspace (n : N) : bool :=
  ((9 <=? n) && (n <=? 13) || (28 <=? n) && (n <=? 32) || (n =? 133) || (n =? 160)
   || (n =? 5760) || (8192 <=? n) && (n <=? 8202) || (n =? 8232) || (n =? 8233)
   || (n =? 8239) || (n =? 8287) || (n =? 12288))%N.

Fixpoint lstrip (l : text) : text :=
  match l with
  | [] => []
  | c :: r => if isspace c then lstrip r else l
  end.

Definition rstrip (l : text) : text := rev (lstrip (rev l)).

(** [s.strip()] *)
Definition strip (l : text) : text := rstrip (lstrip l).

(** The code point of the plus sign. *)
Definition plus : N := 43.

Section Classes.

(** Two classes of the interpreter's Unicode database: [decimal] holds the
    code points that the pattern [\d] matches, [digit] those that
    [str.isdigit] accepts. *)
Variable decimal digit : N -> bool.

(** [re.sub(r'[^\d+]', '', val)] *)
Definition clean_phone (val : text) : text :=
  filter (fun c => decimal c || (c =? plus)%N = true) val.

(** "Every character except digits and '+' removed". *)
Definition keep_digits_and_plus (val : text) : text :=
  filter (fun c => decimal c = true \/ c = plus) val.

(** [s.isdigit()]: non-empty and every character a digit. *)
Definition isdigit (s : text) : bool :=
  match s with
  | [] => false
  | _ :: _ => forallb digit s
  end.

(** [s.startswith('+')] *)
Definition startswith_plus (s : text) : bool :=
  match s with
  | c :: _ => (c =? plus)%N
  | [] => false
  end.

(** "Only digits, with at most one leading '+'". *)
Definition digits_after_optional_plus (s : text) : Prop :=
  Forall (fun c => digit c = true) s
  \/ exists rest : text, s = plus :: rest /\ Forall (fun c => digit c = true) rest.

(** The phone step of [apply_answer_to_step], app.py lines 58 and 92-98:
    the flag returned, and the phone of the candidate afterwards. *)
Definition phone_step (msg : text) (phone : option text) : bool * option text :=
  let val := strip msg in
  let cleaned_phone := clean_phone val in
  if (6 <=? length cleaned_phone)%nat
     && (startswith_plus cleaned_phone || isdigit cleaned_phone)
  then (true, Some cleaned_phone)
  else (false, phone).

(** [validate_phone_format], core/security.py lines 69-85. [None] is the
    [IndexError] of [cleaned[0]] on an empty text. *)
Definition validate_phone_format (phone : text) : option bool :=
  match phone with
  | [] => Some false
  | _ :: _ =>
      let cleaned := clean_phone phone in
      if (length cleaned <? 6)%nat || (20 <? length cleaned)%nat then Some false
      else
        match cleaned with
        | [] => None
        | c :: _ =>
            if negb (digit c || (c =? plus)%N) then Some false else Some true
        end
  end.

End Classes.

(** The two classes on the code points below 256 and on the Arabic-Indic
    digits, U+0660 to U+0669, as every version of the database has them
    there. *)
Definition some_decimal (n : N) : bool :=
  ((48 <=? n) && (n <=? 57) || (1632 <=? n) && (n <=? 1641))%N.

Definition some_digit (n : N) : bool :=
  (some_decimal n || (n =? 178) || (n =? 179) || (n =? 185))%N.

End Unicode.

(** ** core/security.py: input checks *)

(** [re.sub(r'\s+', ' ', t)]: every maximal run of white space becomes one
    space. [in_run] tells that the character before was white space. *)
Fixpoint collapse_spaces (in_run : bool) (l : list ascii) : list ascii :=
  match l with
  | [] => []
  | c :: r =>
      if PyStr.isspace c then
        if in_run then collapse_spaces true r
        else " "%char :: collapse_spaces true r
      else c :: collapse_spaces false r
  end.

(** The characters that [sanitize_input] removes: angle brackets, braces,
    square brackets and the backslash. *)
Definition harmful (c : ascii) : bool :=
  existsb (Ascii.eqb c) ["<"; ">"; "{"; "}"; "["; "]"; "\"]%char.

(** [sanitize_input], core/security.py lines 56-67. *)
Definition sanitize_input (text : string) : string :=
  if negb (PyStr.truthy text) then EmptyString
  else
    PyStr.str
      (take 1000
         (List.filter (fun c => negb (harmful c))
            (collapse_spaces false (PyStr.chars (PyStr.strip text))))).


(** The classes [[a-zA-Z]], [[a-zA-Z0-9._%+-]] and [[a-zA-Z0-9.-]] of the
    pattern of [validate_email_format]. *)
Definition ascii_letter (c : ascii) : bool :=
  let n := PyStr.code c in
  ((65 <=? n) && (n <=? 90) || (97 <=? n) && (n <=? 122))%N.

Definition local_char (c : ascii) : bool :=
  ascii_letter c || PyStr.is_decimal c
  || existsb (Ascii.eqb c) ["."; "_"; "%"; "+"; "-"]%char.

Definition domain_char (c : ascii) : bool :=
  ascii_letter c || PyStr.is_decimal c || existsb (Ascii.eqb c) ["."; "-"]%char.

(** [[a-zA-Z0-9.-]+\.[a-zA-Z]{2,}] against a whole text, [seen] characters
    of the first class being read already: the character at hand is the
    dot that the pattern names, after at least one character of the class
    and before two letters or more up to the end, or it is one more
    character of the class. *)
Fixpoint domain_body (seen : nat) (l : list ascii) : bool :=
  match l with
  | [] => false
  | c :: r =>
      Ascii.eqb c "." && (0 <? seen)%nat && (2 <=? length r)%nat
      && forallb ascii_letter r
      || domain_char c && domain_body (S seen) r
  end.

(** The pattern against a whole text. No character of the first class is
    an at sign, so the local part ends at the first one. *)
Definition validate_email_body (l : list ascii) : bool :=
  match split_at_first "@" l with
  | None => false
  | Some (loc, dom) =>
      match loc with [] => false | _ :: _ => true end
      && forallb local_char loc && domain_body 0 dom
  end.

(** [validate_email_format], core/security.py lines 87-94. The final [$]
    also matches before one newline that ends the text. *)
Definition validate_email_format (email : string) : bool :=
  if negb (PyStr.truthy email) then false
  else
    let l := PyStr.chars (PyStr.lower email) in
    validate_email_body l ||
    match rev l with
    | c :: r => Ascii.eqb c "010" && validate_email_body (rev r)
    | [] => false
    end.

(** ** ui/components.py: the progress display *)

(** [bool(v)] of an optional text. *)
Definition bool_of_text (o : option string) : bool :=
  match o with
  | Some s => PyStr.truthy s
  | None => false
  end.

(** The list [fields] of [show_progress], ui/components.py lines 26-35. *)
Definition progress_fields (c : Candidate) : list (string * bool) :=
  [("Consent", consent_given c);
   ("Name", bool_of_text (full_name c));
   ("Email", bool_of_text (email c));
   ("Phone", bool_of_text (phone c));
   ("Experience", match years_experience c with Some _ => true | None => false end);
   ("Position", match desired_positions c with [] => false | _ :: _ => true end);
   ("Location", bool_of_text (current_location c));
   ("Tech Stack", match tech_stack c with [] => false | _ :: _ => true end)].

(** [completed] and [total], lines 37-38: the numbers that the progress bar
    and its text show. *)
Definition completed (c : Candidate) : nat :=
  length (List.filter snd (progress_fields c)).

Definition total (c : Candidate) : nat := length (progress_fields c).

(** The first [k] of the eight fields are done and the others are not. *)
Definition filled_up_to (k : nat) (c : Candidate) : Prop :=
  map snd (progress_fields c) = replicate k true ++ replicate (8 - k) false.

(** Whether an accepted answer fills its field: always, except for a list
    answer without any entry. *)
Definition fills (st : Step) (text : string) : bool :=
  match st with
  | INTAKE_POSITION | INTAKE_TECH =>
      match comma_list (PyStr.strip text) with
      | [] => false
      | _ :: _ => true
      end
  | _ => true
  end.

(** ** ui/components.py: the chat history *)

(** One entry of the history: role and content. *)
Definition message : Type := (string * string)%type.

(** [append_message], ui/components.py lines 49-60. *)
Definition append_message (role content : string) (history : list message)
    : list message :=
  match List.last (map Some history) None with
  | Some (r, c) =>
      if String.eqb r role && String.eqb c content then history
      else history ++ [(role, content)]
  | None => history ++ [(role, content)]
  end.

(** ** Predicates that the properties of the session use *)

Module Wf.

(** No two neighbours of a history are the same message. *)
Definition no_repeat (history : list message) : Prop :=
  forall (i : nat) (m : message),
    history !! i = Some m -> history !! S i = Some m -> False.

(** A string without white space at either end. *)
Definition trimmed (s : string) : Prop := PyStr.strip s = s.

(** What the intake rules guarantee of the fields they set. *)
Definition fields_valid (c : Candidate) : Prop :=
  (forall n, full_name c = Some n -> 2 <= PyStr.len n /\ trimmed n)
  /\ (forall e, email c = Some e -> EMAIL_RX_match e = true)
  /\ (forall p, phone c = Some p ->
        6 <= PyStr.len p
        /\ Forall (fun ch => PyStr.is_decimal ch = true \/ ch = "+"%char)
                  (PyStr.chars p))
  /\ (forall y, years_experience c = Some y ->
        exists q : Q, y = FFin q /\ (0 <= q)%Q /\ (q <= 50)%Q)
  /\ (forall l, current_location c = Some l -> 2 <= PyStr.len l /\ trimmed l)
  /\ Forall (fun t => t <> "" /\ trimmed t) (desired_positions c)
  /\ Forall (fun t => t <> "" /\ trimmed t) (tech_stack c).

(** The steps before the questions exist. *)
Definition intake_phase (st : Step) : Prop := st ∈ INTAKE_STEPS \/ st = GENERATE_QA.

(** The shape of a session between the two blocks of a run: which values
    go together in the intake, while the questions are answered, in the
    follow-up and after an exit. *)
Record session_wf (s : Session) : Prop := mk_session_wf {
  wf_step : step (state s) <> GREETING;
  wf_intake :
    intake_phase (step (state s)) ->
    step (state s) = Spec.step_by_rules (candidate s)
    /\ questions_generated s = false;
  wf_fields : fields_valid (candidate s);
  wf_before :
    questions_generated s = false ->
    current_question_index (state s) = 0 /\ generated_questions s = [];
  wf_generated :
    questions_generated s = true ->
    Spec.step_by_rules (candidate s) = GENERATE_QA
    /\ (1 <= length (generated_questions s) <= 5)%nat;
  wf_technical :
    step (state s) = TECHNICAL_QA ->
    questions_generated s = true
    /\ current_question_index (state s) < Z.of_nat (length (generated_questions s));
  wf_followup :
    step (state s) = FOLLOWUP ->
    questions_generated s = true /\ is_Some (overall_score (candidate s));
  wf_index :
    0 <= current_question_index (state s) <= Z.of_nat (length (generated_questions s));
  wf_dom :
    dom (technical_answers (candidate s)) = dom (answer_scores (candidate s));
  wf_scores : Spec.scores_valid (answer_scores (candidate s));
  wf_overall :
    forall v, overall_score (candidate s) = Some v ->
      v = calculate_overall_score (answer_scores (candidate s))
      /\ (step (state s) = FOLLOWUP \/ step (state s) = END);
  wf_exit : exit_detected (state s) = true <-> step (state s) = END
}.

End Wf.

(** The session after an accepted answer to the current question [q],
    scored [sc]. *)
Definition answered (text : string) (q : QuestionRecord) (sc : AnswerScore)
    (s : Session) : Session :=
  let c1 := set_technical_answers
              (<[q_question_id q := PyStr.strip text]> (technical_answers (candidate s)))
              (candidate s) in
  let c2 := set_answer_scores (<[q_question_id q := sc]> (answer_scores c1)) c1 in
  let st1 := set_current_question_index (current_question_index (state s) + 1)
               (state s) in
  if current_question_index (state s) + 1 <? Z.of_nat (length (generated_questions s))
  then with_state st1 (with_candidate c2 s)
  else with_state (set_step FOLLOWUP st1)
         (with_candidate
            (set_overall_score (Some (calculate_overall_score (answer_scores c2))) c2) s).

(** The answered questions are the first [current_question_index] ones,
    and the follow-up starts when all of them are answered. *)
Definition answers_inv (s : Session) : Prop :=
  dom (technical_answers (candidate s))
  = list_to_set
      (map q_question_id
         (take (Z.to_nat (current_question_index (state s))) (generated_questions s)))
  /\ (step (state s) = FOLLOWUP ->
      current_question_index (state s) = Z.of_nat (length (generated_questions s))).

(** Unfolds the fields of a session that a step has rebuilt. *)
Ltac session_fields :=
  cbn [candidate state questions_generated generated_questions
       with_candidate with_state
       step exit_detected current_question_index questions_asked
       set_step set_exit_detected set_current_question_index
       full_name email phone years_experience desired_positions
       current_location tech_stack consent_given technical_questions
       technical_answers answer_scores overall_score additional_comments
       set_technical_questions set_technical_answers set_answer_scores
       set_overall_score set_additional_comments] in *.

(** Names the eight flags of the progress display. *)
Ltac name_flags c :=
  set (b0 := consent_given c) in *;
  set (b1 := bool_of_text (full_name c)) in *;
  set (b2 := bool_of_text (email c)) in *;
  set (b3 := bool_of_text (phone c)) in *;
  set (b4 := match years_experience c with Some _ => true | None => false end) in *;
  set (b5 := match desired_positions c with [] => false | _ :: _ => true end) in *;
  set (b6 := bool_of_text (current_location c)) in *;
  set (b7 := match tech_stack c with [] => false | _ :: _ => true end) in *;
  clearbody b0 b1 b2 b3 b4 b5 b6 b7.

(** Unfolds the fields of a candidate that an intake rule has rebuilt. *)
Ltac candidate_fields :=
  cbn [map snd fst replicate app Nat.sub
       full_name email phone years_experience desired_positions
       current_location tech_stack consent_given technical_questions
       technical_answers answer_scores overall_score additional_comments
       set_consent_given set_full_name set_email set_phone set_years_experience
       set_desired_positions set_current_location set_tech_stack
       set_technical_questions set_technical_answers set_answer_scores
       set_overall_score set_additional_comments bool_of_text].

(* ==== Properties ==== *)

(* ================================================================== *)
(** * Facts about the string operations *)
(* ================================================================== *)

Module PyStrFacts.

Import PyStr.

Lemma chars_str (l : list ascii) : chars (str l) = l.
Proof. apply list_ascii_of_string_of_list_ascii. Qed.

Lemma str_chars (s : string) : str (chars s) = s.
Proof. apply string_of_list_ascii_of_string. Qed.

Lemma chars_app (a b : string) : chars (a +:+ b) = chars a ++ chars b.
Proof.
  induction a as [|c a IH]; simpl; [reflexivity|].
  unfold chars in *. simpl. now rewrite IH.
Qed.

Lemma str_app (a b : list ascii) : str (a ++ b) = str a +:+ str b.
Proof.
  rewrite <- (str_chars (str a +:+ str b)), chars_app, !chars_str. reflexivity.
Qed.

Lemma chars_inj (a b : string) : chars a = chars b -> a = b.
Proof. intros H. rewrite <- (str_chars a), <- (str_chars b), H. reflexivity. Qed.

Lemma starts_with_spec (p t : list ascii) :
  starts_with p t = true <-> exists post, t = p ++ post.
Proof.
  revert t. induction p as [|a p IH]; intros t; simpl.
  - split; [intros _; exists t; reflexivity | reflexivity].
  - destruct t as [|b t].
    + split; [discriminate | intros [post H]; discriminate].
    + rewrite andb_true_iff, Ascii.eqb_eq, IH. split.
      * intros [-> [post ->]]. exists post. reflexivity.
      * intros [post H]. injection H as -> ->. split; [reflexivity | eauto].
Qed.

Lemma contains_chars_spec (p t : list ascii) :
  contains_chars p t = true <-> exists pre post, t = pre ++ p ++ post.
Proof.
  induction t as [|b t IH].
  - simpl. rewrite orb_false_r, starts_with_spec. split.
    + intros [post H]. exists [], post. exact H.
    + intros [pre [post H]]. destruct pre; [exists post; exact H | discriminate].
  - cbn [contains_chars]. rewrite orb_true_iff, starts_with_spec, IH. split.
    + intros [[post H] | [pre [post H]]].
      * exists [], post. exact H.
      * exists (b :: pre), post. rewrite H. reflexivity.
    + intros [pre [post H]]. destruct pre as [|x pre].
      * left. exists post. exact H.
      * right. injection H as _ H. exists pre, post. exact H.
Qed.

(** [p in t] holds exactly when [t] is some text, then [p], then some text. *)
Lemma contains_spec (p t : string) : contains p t = true <-> occurs_in p t.
Proof.
  unfold contains, occurs_in. rewrite contains_chars_spec. split.
  - intros [pre [post H]]. exists (str pre), (str post).
    apply chars_inj. rewrite !chars_app, !chars_str. exact H.
  - intros [pre [post H]]. exists (chars pre), (chars post).
    rewrite H, !chars_app. reflexivity.
Qed.

Lemma contains_refl (t : string) : contains t t = true.
Proof.
  apply contains_spec. exists "", "". apply chars_inj.
  rewrite !chars_app. simpl. now rewrite app_nil_r.
Qed.

Lemma truthy_false (s : string) : truthy s = false -> s = "".
Proof. destruct s; [reflexivity | discriminate]. Qed.

Lemma truthy_length (s : string) : truthy s = true <-> (0 < String.length s)%nat.
Proof. destruct s; simpl; split; intros; try discriminate; lia. Qed.

Lemma length_chars (s : string) : length (chars s) = String.length s.
Proof. induction s; simpl; [reflexivity | unfold chars in *; simpl; now f_equal]. Qed.

Lemma length_str (l : list ascii) : String.length (str l) = length l.
Proof. rewrite <- length_chars, chars_str. reflexivity. Qed.

Lemma length_app (a b : string) :
  String.length (a +:+ b) = (String.length a + String.length b)%nat.
Proof. rewrite <- !length_chars, chars_app, length_app. reflexivity. Qed.

Lemma eqb_decide (a b : string) : String.eqb a b = bool_decide (a = b).
Proof.
  destruct (String.eqb a b) eqn:E; symmetry.
  - apply bool_decide_eq_true, String.eqb_eq, E.
  - apply bool_decide_eq_false, String.eqb_neq, E.
Qed.

End PyStrFacts.

(* ================================================================== *)
(** * Exit detection *)
(* ================================================================== *)

Lemma existsb_elem_of {A : Type} (f : A -> bool) (l : list A) :
  existsb f l = true <-> exists x, x ∈ l /\ f x = true.
Proof.
  rewrite existsb_exists. split; intros [x [H1 H2]]; exists x; split;
    try assumption; now apply list_elem_of_In.
Qed.

(** C5. [detect_exit] answers true exactly when the trimmed, lowercased text
    contains one of the eight exit keywords as a substring; it is true on
    "please exit now", "bye" and "QUIT" and false on "hello". *)
Theorem detect_exit_iff_keyword_occurs :
  (forall text : string,
     detect_exit text = true <->
     exists kw : string,
       kw ∈ ["quit"; "exit"; "bye"; "stop"; "goodbye"; "end"; "finish"; "done"]
       /\ PyStr.occurs_in kw (PyStr.lower (PyStr.strip text)))
  /\ detect_exit "please exit now" = true
  /\ detect_exit "bye" = true
  /\ detect_exit "QUIT" = true
  /\ detect_exit "hello" = false.
Proof.
  split; [|repeat split; vm_compute; reflexivity].
  intros text. unfold detect_exit.
  change ["quit"; "exit"; "bye"; "stop"; "goodbye"; "end"; "finish"; "done"]
    with EXIT_KEYWORDS.
  destruct (PyStr.truthy text) eqn:Ht; cbn [negb].
  - case_bool_decide as Hin.
    + split; [intros _ | reflexivity].
      exists (PyStr.lower (PyStr.strip text)). split; [exact Hin|].
      apply PyStrFacts.contains_spec, PyStrFacts.contains_refl.
    + rewrite existsb_elem_of. split.
      * intros [kw [H1 H2]]. exists kw. split; [exact H1|].
        now apply PyStrFacts.contains_spec.
      * intros [kw [H1 H2]]. exists kw. split; [exact H1|].
        now apply PyStrFacts.contains_spec.
  - apply PyStrFacts.truthy_false in Ht. subst text. split; [discriminate|].
    intros [kw [H1 H2]]. apply PyStrFacts.contains_spec in H2.
    assert (Hall : forallb (fun k => negb (PyStr.contains k (PyStr.lower (PyStr.strip ""))))
                     EXIT_KEYWORDS = true) by (vm_compute; reflexivity).
    rewrite forallb_forall in Hall. apply list_elem_of_In in H1.
    specialize (Hall kw H1). rewrite H2 in Hall. discriminate.
Qed.

(* ================================================================== *)
(** * The next step *)
(* ================================================================== *)

Lemma is_empty_text (o : option string) :
  is_empty_attr (attr_of_str o) = Spec.unset_text o.
Proof.
  destruct o as [s|]; simpl; [|reflexivity].
  destruct (PyStr.strip s) eqn:E; reflexivity.
Qed.

Lemma is_empty_sequence (l : list string) :
  is_empty_attr (AList l) = Spec.unset_sequence l.
Proof. destruct l; reflexivity. Qed.

Lemma is_empty_number (o : option pyfloat) :
  is_empty_attr (attr_of_float o) = Spec.unset_number o.
Proof. destruct o; reflexivity. Qed.

Lemma next_step_by_rules (c : Candidate) (st : ConversationState) :
  next_step c st = Some (Spec.step_by_rules c).
Proof.
  unfold next_step, Spec.step_by_rules.
  destruct (consent_given c); cbn [negb]; [|reflexivity].
  unfold INTAKE_ORDER, Spec.required_fields. cbn [next_step_loop List.find fst].
  change (field_lookup INTAKE_NAME field_mapping) with (Some "full_name").
  change (field_lookup INTAKE_EMAIL field_mapping) with (Some "email").
  change (field_lookup INTAKE_PHONE field_mapping) with (Some "phone").
  change (field_lookup INTAKE_YOE field_mapping) with (Some "years_experience").
  change (field_lookup INTAKE_POSITION field_mapping) with (Some "desired_positions").
  change (field_lookup INTAKE_LOCATION field_mapping) with (Some "current_location").
  change (field_lookup INTAKE_TECH field_mapping) with (Some "tech_stack").
  cbn [mbind option_bind].
  change (getattr c "full_name") with (Some (attr_of_str (full_name c))).
  change (getattr c "email") with (Some (attr_of_str (email c))).
  change (getattr c "phone") with (Some (attr_of_str (phone c))).
  change (getattr c "years_experience") with (Some (attr_of_float (years_experience c))).
  change (getattr c "desired_positions") with (Some (AList (desired_positions c))).
  change (getattr c "current_location") with (Some (attr_of_str (current_location c))).
  change (getattr c "tech_stack") with (Some (AList (tech_stack c))).
  cbn [mbind option_bind].
  rewrite !is_empty_text, !is_empty_sequence, !is_empty_number.
  destruct (Spec.unset_text (full_name c)); [reflexivity|].
  destruct (Spec.unset_text (email c)); [reflexivity|].
  destruct (Spec.unset_text (phone c)); [reflexivity|].
  destruct (Spec.unset_number (years_experience c)); [reflexivity|].
  destruct (Spec.unset_sequence (desired_positions c)); [reflexivity|].
  destruct (Spec.unset_text (current_location c)); [reflexivity|].
  destruct (Spec.unset_sequence (tech_stack c)); reflexivity.
Qed.

(** C4. [next_step] returns (never raises) [CONSENT] without consent, else
    the step of the first of full_name, email, phone, years_experience,
    desired_positions, current_location, tech_stack that is unset, and
    [GENERATE_QA] when none is. *)
Theorem next_step_first_unset (c : Candidate) (st : ConversationState) :
  next_step c st = Some (Spec.step_by_rules c).
Proof. apply next_step_by_rules. Qed.

(* ================================================================== *)
(** * The answer scorer *)
(* ================================================================== *)

Lemma AnswerScore_checked_range sc r st im a :
  AnswerScore_checked sc r st im = Some a -> 0 <= score a <= 10.
Proof.
  unfold AnswerScore_checked. destruct (_ && _) eqn:E; [|discriminate].
  intros [= <-]. simpl. apply andb_true_iff in E. lia.
Qed.

Lemma AnswerScore_new_range sc r st im a :
  AnswerScore_new sc r st im = Some a -> 0 <= score a <= 10.
Proof.
  unfold AnswerScore_new. intros H.
  destruct (validate_int sc); [|discriminate].
  destruct (validate_str r); [|discriminate].
  destruct (validate_str_list st); [|discriminate].
  destruct (validate_str_list im); [|discriminate].
  simpl in H. eauto using AnswerScore_checked_range.
Qed.

Lemma simple_score_answer_by_rule (answer topic difficulty : string) :
  let base := Spec.base_score (PyStr.len (PyStr.strip answer)) in
  simple_score_answer answer topic difficulty =
  Some {| score := Spec.adjusted_score difficulty base;
          reasoning := fst (fst (Spec.bucket_texts base));
          strengths := snd (fst (Spec.bucket_texts base));
          improvements := snd (Spec.bucket_texts base) |}.
Proof.
  unfold simple_score_answer, Spec.base_score.
  set (n := PyStr.len (PyStr.strip answer)).
  rewrite !PyStrFacts.eqb_decide.
  destruct (Z.ltb_spec n 20); [destruct (decide (n < 20)); [|lia] |
    destruct (decide (n < 20)); [lia|];
    destruct (Z.ltb_spec n 50); [destruct (decide (n < 50)); [|lia] |
      destruct (decide (n < 50)); [lia|];
      destruct (Z.ltb_spec n 150); [destruct (decide (n < 150)); [|lia] |
        destruct (decide (n < 150)); [lia|]]]];
    cbv zeta; unfold Spec.adjusted_score;
    repeat case_bool_decide; subst; try discriminate;
    repeat (case_decide; try (exfalso; intuition (congruence || lia)));
    vm_compute; reflexivity.
Qed.

(** C7. The rule-based scorer returns (its result always validates) the
    base score 3, 5, 7 or 8 for a trimmed length below 20, below 50, below
    150 or not, one point up (at most 10) for "easy" from base 6 on, one
    point down (at least 1) for "hard" up to base 7, with the fixed
    reasoning, strengths and improvements of the length bucket. *)
Theorem simple_score_answer_rule (answer topic difficulty : string) :
  let base := Spec.base_score (PyStr.len (PyStr.strip answer)) in
  simple_score_answer answer topic difficulty =
  Some {| score := Spec.adjusted_score difficulty base;
          reasoning := fst (fst (Spec.bucket_texts base));
          strengths := snd (fst (Spec.bucket_texts base));
          improvements := snd (Spec.bucket_texts base) |}.
Proof. apply simple_score_answer_by_rule. Qed.

Lemma simple_score_answer_returns (answer topic difficulty : string) :
  exists a, simple_score_answer answer topic difficulty = Some a /\ 0 <= score a <= 10.
Proof.
  destruct (simple_score_answer answer topic difficulty) as [a|] eqn:E.
  - exists a. split; [reflexivity|].
    unfold simple_score_answer in E.
    repeat match type of E with
           | context [if ?b then _ else _] => destruct b
           end;
      cbv zeta beta iota in E; eauto using AnswerScore_checked_range.
  - rewrite simple_score_answer_by_rule in E. discriminate.
Qed.

(** C6. Whatever the service answers at each attempt (text that decodes,
    text that does not, an exception) and whatever [json.loads] makes of it,
    [score_answer] returns an [AnswerScore], never an error, and its score
    lies between 0 and 10. *)
Theorem score_answer_total_bounded
    (json_loads : string -> option json)
    (question answer topic difficulty : string) (experience_years : pyfloat)
    (service : nat -> reply) :
  exists a : AnswerScore,
    score_answer json_loads question answer topic difficulty experience_years service
    = Some a
    /\ 0 <= score a <= 10.
Proof.
  unfold score_answer. cbn [retry]. unfold score_answer_call.
  destruct (score_answer_try json_loads (service 0%nat)) as [a|] eqn:E.
  - exists a. split; [reflexivity|].
    unfold score_answer_try in E.
    destruct (service 0%nat); [discriminate|].
    destruct (_extract_json json_loads raw); try discriminate.
    destruct (py_min_int _ _); [|discriminate]. simpl in E.
    destruct (py_max_int _ _); [|discriminate]. simpl in E.
    eauto using AnswerScore_new_range.
  - destruct (simple_score_answer_returns answer topic difficulty) as [a [Ha Hr]].
    exists a. rewrite Ha. split; [reflexivity | exact Hr].
Qed.

(* ================================================================== *)
(** * The overall score *)
(* ================================================================== *)

Lemma div_half_even_near (a b : Z) :
  0 < b -> - b <= 2 * (b * div_half_even a b - a) <= b.
Proof.
  intros Hb. unfold div_half_even.
  pose proof (Z.div_mod a b ltac:(lia)) as Hdm.
  pose proof (Z.mod_pos_bound a b Hb) as Hm.
  destruct (Z.compare_spec (2 * (a mod b)) b) as [H|H|H].
  - destruct (Z.even (a / b)); nia.
  - nia.
  - nia.
Qed.

Lemma true_div_near (a b : Z) :
  0 < a -> 0 < b -> a <= 10 * b ->
  exists m s : Z,
    true_div a b = (m, - s) /\ 49 <= s /\ - b <= 2 * (b * m - a * 2 ^ s) <= b.
Proof.
  intros Ha Hb Hab. unfold true_div.
  destruct (Z.eqb_spec a 0) as [|_]; [lia|].
  pose proof (Z.log2_spec a Ha) as [Ha1 Ha2].
  pose proof (Z.log2_spec b Hb) as [Hb1 Hb2].
  pose proof (Z.log2_nonneg a) as Hla. pose proof (Z.log2_nonneg b) as Hlb.
  set (la := Z.log2 a) in *. set (lb := Z.log2 b) in *.
  assert (Hpa : 0 < 2 ^ la) by (apply Z.pow_pos_nonneg; lia).
  assert (Hpb : 0 < 2 ^ lb) by (apply Z.pow_pos_nonneg; lia).
  set (l := if a * 2 ^ lb >=? b * 2 ^ la then la - lb else la - lb - 1).
  assert (Hl : l <= 3).
  { subst l. destruct (Z.geb_spec (a * 2 ^ lb) (b * 2 ^ la)) as [H|H].
    - assert (2 ^ la < 2 ^ (lb + 4)).
      { rewrite Z.pow_add_r by lia. change (2 ^ 4) with 16. nia. }
      apply Z.pow_lt_mono_r_iff in H0; lia.
    - assert (2 ^ la < 2 ^ (lb + 5)).
      { rewrite Z.pow_add_r by lia. change (2 ^ 5) with 32.
        rewrite Z.pow_succ_r in Hb2 by lia. nia. }
      apply Z.pow_lt_mono_r_iff in H0; lia. }
  exists (div_half_even (a * 2 ^ (52 - l)) b), (52 - l).
  destruct (Z.ltb_spec (l - 52) 0) as [_|]; [|lia].
  replace (- (l - 52)) with (52 - l) by lia.
  replace (- (52 - l)) with (l - 52) by lia.
  split; [reflexivity|]. split; [lia|].
  apply div_half_even_near, Hb.
Qed.

Lemma round1_true_div_near (a b : Z) :
  0 < a -> 0 < b -> a <= 10 * b -> b < 2 ^ 45 ->
  exists tenths : Z,
    round1 (true_div a b) = (tenths # 10)%Q
    /\ - b <= 2 * (b * tenths - 10 * a) <= b.
Proof.
  intros Ha Hb Hab Hsmall.
  destruct (true_div_near a b Ha Hb Hab) as (m & s & -> & Hs & Hm).
  unfold round1. destruct (Z.ltb_spec (- s) 0) as [_|]; [|lia].
  rewrite Z.opp_involutive.
  exists (div_half_even (10 * m) (2 ^ s)). split; [reflexivity|].
  assert (Hp : 2 ^ 49 <= 2 ^ s) by (apply Z.pow_le_mono_r; lia).
  pose proof (div_half_even_near (10 * m) (2 ^ s) ltac:(lia)) as Ht.
  set (t := div_half_even (10 * m) (2 ^ s)) in *.
  set (p := 2 ^ s) in *.
  assert (H10 : 10 * b < p).
  { change (2 ^ 45) with 35184372088832 in Hsmall.
    change (2 ^ 49) with 562949953421312 in Hp. lia. }
  assert (Hup : p * (2 * (b * t - 10 * a)) < p * (b + 1)) by nia.
  assert (Hlo : p * (- (b + 1)) < p * (2 * (b * t - 10 * a))) by nia.
  apply Z.mul_lt_mono_pos_l in Hup; [|lia].
  apply Z.mul_lt_mono_pos_l in Hlo; [|lia].
  lia.
Qed.

Lemma sum_scores_bounds (scores : gmap string AnswerScore) :
  Spec.scores_valid scores ->
  0 <= sum_scores scores <= 10 * Z.of_nat (size scores).
Proof.
  unfold sum_scores, Spec.scores_valid.
  apply (map_fold_weak_ind
           (fun r (m : gmap string AnswerScore) =>
              map_Forall (fun _ a => 0 <= score a <= 10) m ->
              0 <= r <= 10 * Z.of_nat (size m))).
  - intros _. rewrite map_size_empty. lia.
  - intros i x m r Hi IH Hall.
    apply map_Forall_insert in Hall as [Hx Hm]; [|exact Hi].
    specialize (IH Hm). rewrite map_size_insert_None by exact Hi. lia.
Qed.

(** On every total and count that up to twenty questions can produce,
    [true_div] is the machine's binary64 quotient. *)
Lemma true_div_is_machine_div :
  forallb (fun '(a, b) =>
             match machine_div a b with
             | Some (m, e) => let '(m', e') := true_div a b in (m =? m') && (e =? e')
             | None => false
             end)
          (score_quotients 20) = true.
Proof. vm_compute. reflexivity. Qed.

Lemma tenths_near_mean (t a n : Z) :
  0 < n -> - n <= 2 * (n * t - 10 * a) <= n ->
  (Qabs ((t # 10) - inject_Z a / inject_Z n) <= 1 # 20)%Q.
Proof.
  intros Hn H. apply Qabs_Qle_condition.
  destruct n as [|p|p]; try lia.
  unfold Qle, Qminus, Qplus, Qopp, Qdiv, Qmult, Qinv, inject_Z. simpl.
  split; nia.
Qed.

(** C8. For a mapping of valid scores, [calculate_overall_score] returns a
    number with one decimal that lies within one twentieth of the
    arithmetic mean of the scores, i.e. the mean rounded to one decimal
    place (for any mapping of fewer than 2^45 entries, beyond which binary64
    division is too coarse); it returns 0.0 for the empty mapping, 7.0 for
    the scores 8 and 6, and 8.0 for the scores 7, 8 and 9. *)
Theorem overall_score_is_rounded_mean :
  (forall scores : gmap string AnswerScore,
     scores <> ∅ ->
     Spec.scores_valid scores ->
     Z.of_nat (size scores) < 2 ^ 45 ->
     exists tenths : Z,
       calculate_overall_score scores = (tenths # 10)%Q
       /\ (Qabs ((tenths # 10) - Spec.mean_score scores) <= 1 # 20)%Q)
  /\ calculate_overall_score ∅ = 0%Q
  /\ Qeq (calculate_overall_score (Spec.score_map [("a", 8); ("b", 6)])) 7
  /\ Qeq (calculate_overall_score (Spec.score_map [("a", 7); ("b", 8); ("c", 9)])) 8.
Proof.
  split; [|repeat split; vm_compute; reflexivity].
  intros scores Hne Hvalid Hsmall.
  unfold calculate_overall_score. rewrite bool_decide_eq_false_2 by exact Hne.
  pose proof (sum_scores_bounds scores Hvalid) as Hsum.
  assert (Hn : 0 < Z.of_nat (size scores)).
  { apply map_size_non_empty_iff in Hne. lia. }
  unfold Spec.mean_score. cbv zeta.
  destruct (Z.eq_dec (sum_scores scores) 0) as [H0|H0].
  - rewrite H0. exists 0. split; [reflexivity|].
    apply tenths_near_mean; lia.
  - destruct (round1_true_div_near (sum_scores scores) (Z.of_nat (size scores)))
      as (t & Ht & Hnear); try lia.
    exists t. split; [exact Ht|]. apply tenths_near_mean; lia.
Qed.

Lemma overall_score_is_rounded_mean_witness :
  exists tenths : Z,
    calculate_overall_score (Spec.score_map [("q1", 7); ("q2", 4); ("q3", 9)])
    = (tenths # 10)%Q
    /\ (Qabs ((tenths # 10)
              - Spec.mean_score
                  (Spec.score_map [("q1", 7%Z); ("q2", 4%Z); ("q3", 9%Z)]))
        <= 1 # 20)%Q.
Proof.
  apply (proj1 overall_score_is_rounded_mean).
  - intros H. apply (f_equal size) in H. vm_compute in H. discriminate.
  - unfold Spec.scores_valid. apply map_Forall_to_list.
    vm_compute. repeat constructor; discriminate.
  - vm_compute. reflexivity.
Defined.

(* ================================================================== *)
(** * The phone step *)
(* ================================================================== *)

Lemma clean_phone_kept (val : string) :
  Forall (fun ch => PyStr.is_decimal ch = true \/ ch = "+"%char)
         (PyStr.chars (clean_phone val)).
Proof.
  unfold clean_phone. rewrite PyStrFacts.chars_str.
  apply Forall_forall. intros ch Hin.
  rewrite <- ?list_elem_of_In in Hin. apply list_elem_of_filter in Hin as [Hin _].
  apply orb_true_iff in Hin as [H | H]; [left; exact H | right].
  now apply Ascii.eqb_eq.
Qed.

(** *** The rule on text of any script *)

Lemma unicode_clean_phone_keeps (decimal : N -> bool) (val : Unicode.text) :
  Unicode.clean_phone decimal val = Unicode.keep_digits_and_plus decimal val.
Proof.
  unfold Unicode.clean_phone, Unicode.keep_digits_and_plus.
  apply list_filter_iff. intros c. rewrite orb_true_iff, N.eqb_eq. reflexivity.
Qed.

Lemma unicode_kept (decimal : N -> bool) (val : Unicode.text) :
  Forall (fun c => decimal c = true \/ c = Unicode.plus)
         (Unicode.keep_digits_and_plus decimal val).
Proof.
  unfold Unicode.keep_digits_and_plus. apply Forall_forall. intros c Hin.
  rewrite <- ?list_elem_of_In in Hin. apply list_elem_of_filter in Hin. tauto.
Qed.

(** On a cleaned text [str.isdigit] holds exactly when the text is not
    empty and has no plus sign. *)
Lemma unicode_isdigit_kept (decimal digit : N -> bool) (l : Unicode.text) :
  (forall c, decimal c = true -> digit c = true) ->
  digit Unicode.plus = false ->
  Forall (fun c => decimal c = true \/ c = Unicode.plus) l ->
  Unicode.isdigit digit l = true
  <-> l <> [] /\ Forall (fun c => decimal c = true) l.
Proof.
  intros Hsub Hplus Hl.
  assert (Hall : forallb digit l = true <-> Forall (fun c => decimal c = true) l).
  { induction Hl as [|c l Hc Hl IH]; cbn [forallb].
    - split; [constructor | reflexivity].
    - rewrite andb_true_iff, IH. split.
      + intros [H1 H2]. constructor; [|exact H2].
        destruct Hc as [Hd | ->]; [exact Hd | congruence].
      + intros H. inversion H as [|? ? Hd Hr]; subst. split; [|exact Hr].
        apply Hsub, Hd. }
  destruct l as [|c l]; cbn [Unicode.isdigit].
  - split; [discriminate | intros [H _]; congruence].
  - rewrite Hall. split; [intros H; split; [discriminate | exact H] | tauto].
Qed.

(** C2 (amended). At the phone step the validator removes every character
    except decimal digits, those of any script that the pattern [\d]
    matches, and '+' signs, wherever they stand; it accepts exactly when
    the result has length at least 6 and is all digits or starts with '+';
    an accepted input commits that result, which consists of digits and
    '+' signs only, and a rejected one leaves the phone as it was. The two
    hypotheses hold of the interpreter's classes: a decimal digit passes
    [str.isdigit], the plus sign does not. *)
Theorem phone_step_keeps_digits_and_plus
    (decimal digit : N -> bool) (msg : Unicode.text) (phone : option Unicode.text) :
  (forall c, decimal c = true -> digit c = true) ->
  digit Unicode.plus = false ->
  let cleaned := Unicode.keep_digits_and_plus decimal (Unicode.strip msg) in
  let result := Unicode.phone_step decimal digit msg phone in
  Forall (fun c => decimal c = true \/ c = Unicode.plus) cleaned
  /\ (fst result = true <->
      (6 <= length cleaned)%nat
      /\ (Forall (fun c => decimal c = true) cleaned
          \/ exists rest : Unicode.text, cleaned = Unicode.plus :: rest))
  /\ snd result = (if fst result then Some cleaned else phone).
Proof.
  intros Hsub Hplus cleaned result. subst cleaned result.
  split; [apply unicode_kept|].
  unfold Unicode.phone_step. cbv zeta. rewrite unicode_clean_phone_keeps.
  set (cleaned := Unicode.keep_digits_and_plus decimal (Unicode.strip msg)).
  pose proof (unicode_isdigit_kept decimal digit cleaned Hsub Hplus
                (unicode_kept decimal (Unicode.strip msg))) as Hdigit.
  assert (Hrule : (6 <=? length cleaned)%nat
                  && (Unicode.startswith_plus cleaned || Unicode.isdigit digit cleaned)
                  = true
                  <-> (6 <= length cleaned)%nat
                      /\ (Forall (fun c => decimal c = true) cleaned
                          \/ exists rest : Unicode.text, cleaned = Unicode.plus :: rest)).
  { rewrite andb_true_iff, orb_true_iff, Nat.leb_le, Hdigit. split.
    - intros [H6 [H | [_ H]]]; [|tauto]. split; [exact H6|]. right.
      destruct cleaned as [|c rest]; [discriminate|]. cbn in H.
      apply N.eqb_eq in H. subst c. eauto.
    - intros [H6 [H | [rest H]]].
      + split; [exact H6|]. right. split; [|exact H].
        intros E. rewrite E in H6. cbn in H6. lia.
      + split; [exact H6|]. left. rewrite H. reflexivity. }
  destruct ((6 <=? length cleaned)%nat
            && (Unicode.startswith_plus cleaned || Unicode.isdigit digit cleaned));
    cbn [fst snd]; split; try reflexivity; tauto.
Qed.

Lemma phone_step_keeps_digits_and_plus_witness :
  fst (Unicode.phone_step Unicode.some_decimal Unicode.some_digit
         [1633; 1634; 1635; 1636; 1637; 1638]%N None) = true.
Proof.
  destruct (phone_step_keeps_digits_and_plus Unicode.some_decimal Unicode.some_digit
              [1633; 1634; 1635; 1636; 1637; 1638]%N None) as (_ & Hrule & _).
  - intros c H. unfold Unicode.some_digit. rewrite H. reflexivity.
  - vm_compute. reflexivity.
  - apply Hrule. split; [vm_compute; lia|]. left. vm_compute.
    repeat constructor.
Defined.

(** *** The session model's phone step is the rule on code points below 256 *)

Lemma isspace_code (ch : ascii) : Unicode.isspace (PyStr.code ch) = PyStr.isspace ch.
Proof. destruct ch as [[] [] [] [] [] [] [] []]; vm_compute; reflexivity. Qed.

Lemma plus_code (ch : ascii) : (PyStr.code ch =? Unicode.plus)%N = Ascii.eqb ch "+".
Proof. destruct ch as [[] [] [] [] [] [] [] []]; vm_compute; reflexivity. Qed.

Lemma lstrip_codes (l : list ascii) :
  Unicode.lstrip (map PyStr.code l) = map PyStr.code (PyStr.lstrip_chars l).
Proof.
  induction l as [|ch l IH]; [reflexivity|].
  cbn [map Unicode.lstrip PyStr.lstrip_chars]. rewrite isspace_code.
  destruct (PyStr.isspace ch); [exact IH | reflexivity].
Qed.

Lemma strip_of_string (s : string) :
  Unicode.strip (Unicode.of_string s) = Unicode.of_string (PyStr.strip s).
Proof.
  unfold Unicode.strip, Unicode.rstrip, Unicode.of_string, PyStr.strip,
    PyStr.rstrip_chars.
  rewrite PyStrFacts.chars_str, lstrip_codes, <- map_rev, lstrip_codes, <- map_rev.
  reflexivity.
Qed.

Lemma filter_codes (P : N -> Prop) (Q : ascii -> Prop)
    `{!forall x, Decision (P x)} `{!forall x, Decision (Q x)} (l : list ascii) :
  (forall ch, P (PyStr.code ch) <-> Q ch) ->
  filter P (map PyStr.code l) = map PyStr.code (filter Q l).
Proof.
  intros HPQ. induction l as [|ch l IH]; [reflexivity|].
  cbn [map]. rewrite (filter_cons Q ch), (filter_cons P (PyStr.code ch)), IH.
  destruct (decide (P (PyStr.code ch))) as [HP | HP], (decide (Q ch)) as [HQ | HQ];
    try reflexivity; exfalso; apply HPQ in HP || apply HPQ in HQ; contradiction.
Qed.

Lemma clean_phone_of_string (decimal : N -> bool) (s : string) :
  (forall ch, decimal (PyStr.code ch) = PyStr.is_decimal ch) ->
  Unicode.clean_phone decimal (Unicode.of_string s) = Unicode.of_string (clean_phone s).
Proof.
  intros Hdec. unfold Unicode.clean_phone, Unicode.of_string, clean_phone.
  rewrite PyStrFacts.chars_str. apply filter_codes.
  intros ch. rewrite Hdec, plus_code. reflexivity.
Qed.

Lemma startswith_plus_of_string (s : string) :
  Unicode.startswith_plus (Unicode.of_string s) = PyStr.startswith s "+".
Proof.
  unfold Unicode.of_string, PyStr.startswith. destruct s as [|ch s]; [reflexivity|].
  change (PyStr.chars (String ch s)) with (ch :: PyStr.chars s).
  cbn [map Unicode.startswith_plus]. rewrite plus_code.
  change (PyStr.chars "+") with ["+"%char]. cbn [PyStr.starts_with].
  rewrite andb_true_r. apply Ascii.eqb_sym.
Qed.

Lemma isdigit_of_string (digit : N -> bool) (s : string) :
  (forall ch, digit (PyStr.code ch) = PyStr.isdigit_char ch) ->
  Unicode.isdigit digit (Unicode.of_string s) = PyStr.isdigit s.
Proof.
  intros Hdig. unfold Unicode.of_string, PyStr.isdigit.
  assert (Hall : forall l, forallb digit (map PyStr.code l)
                           = forallb PyStr.isdigit_char l).
  { induction l as [|ch l IH]; [reflexivity|]. cbn [map forallb].
    rewrite Hdig, IH. reflexivity. }
  destruct s as [|ch s]; [reflexivity|].
  change (PyStr.chars (String ch s)) with (ch :: PyStr.chars s).
  cbn [map Unicode.isdigit PyStr.truthy andb]. rewrite <- Hall. reflexivity.
Qed.

(** On a message of code points below 256 the phone step of
    [apply_answer_to_step] is [Unicode.phone_step], for any two classes
    that are the interpreter's below 256. *)
Lemma phone_step_of_string py_float (decimal digit : N -> bool)
    (msg : string) (c : Candidate) :
  (forall ch, decimal (PyStr.code ch) = PyStr.is_decimal ch) ->
  (forall ch, digit (PyStr.code ch) = PyStr.isdigit_char ch) ->
  let result := apply_answer_to_step py_float INTAKE_PHONE msg c in
  Unicode.phone_step decimal digit (Unicode.of_string msg)
    (option_map Unicode.of_string (phone c))
  = (fst result, option_map Unicode.of_string (phone (snd result))).
Proof.
  intros Hdec Hdig. cbv zeta. unfold Unicode.phone_step, apply_answer_to_step.
  cbv zeta. rewrite strip_of_string, (clean_phone_of_string decimal _ Hdec).
  rewrite startswith_plus_of_string, (isdigit_of_string digit _ Hdig).
  unfold phone_accepted, PyStr.len.
  replace (6 <=? length (Unicode.of_string (clean_phone (PyStr.strip msg))))%nat
    with (Z.of_nat (String.length (clean_phone (PyStr.strip msg))) >=? 6).
  2: { unfold Unicode.of_string. rewrite length_map, PyStrFacts.length_chars.
       rewrite Z.geb_leb.
       destruct (Z.leb_spec 6 (Z.of_nat (String.length (clean_phone (PyStr.strip msg)))));
         destruct (Nat.leb_spec 6 (String.length (clean_phone (PyStr.strip msg))));
         try reflexivity; lia. }
  destruct ((Z.of_nat (String.length (clean_phone (PyStr.strip msg))) >=? 6)
            && (PyStr.startswith (clean_phone (PyStr.strip msg)) "+"
                || PyStr.isdigit (clean_phone (PyStr.strip msg))));
    reflexivity.
Qed.

Lemma some_classes_below_256 (ch : ascii) :
  Unicode.some_decimal (PyStr.code ch) = PyStr.is_decimal ch
  /\ Unicode.some_digit (PyStr.code ch) = PyStr.isdigit_char ch.
Proof. destruct ch as [[] [] [] [] [] [] [] []]; vm_compute; split; reflexivity. Qed.

(** C2, as stated, fails: "+12+3456" is accepted and committed with a '+'
    in the middle, which is not "digits with at most one leading '+'",
    whatever counts as a digit besides the plus sign. *)
Lemma phone_inner_plus_committed :
  fst (apply_answer_to_step Fragment.py_float INTAKE_PHONE "+12+3456" Candidate_default)
  = true
  /\ phone (snd (apply_answer_to_step Fragment.py_float INTAKE_PHONE "+12+3456"
                   Candidate_default))
     = Some "+12+3456"
  /\ (forall digit : N -> bool,
        digit Unicode.plus = false ->
        ~ Unicode.digits_after_optional_plus digit (Unicode.of_string "+12+3456")).
Proof.
  split; [vm_compute; reflexivity|]. split; [vm_compute; reflexivity|].
  intros digit Hplus.
  change (Unicode.of_string "+12+3456")
    with [Unicode.plus; 49; 50; Unicode.plus; 51; 52; 53; 54]%N.
  intros [H | [rest [Hr H]]].
  - inversion H as [|? ? Hd _]. congruence.
  - injection Hr as <-.
    do 2 (inversion H as [|? ? _ H']; subst; clear H; rename H' into H).
    inversion H as [|? ? Hd _]. congruence.
Qed.

(** The field validator of the schema keeps an inner '+' as well. *)
Lemma normalize_phone_keeps_inner_plus :
  normalize_phone (Some "+12 +3456") = Some "+12+3456".
Proof. vm_compute. reflexivity. Qed.

(* ================================================================== *)
(** * Intake turns *)
(* ================================================================== *)

Lemma apply_answer_rejected (py_float : string -> option pyfloat)
    (st : Step) (text : string) (c : Candidate) :
  fst (apply_answer_to_step py_float st text c) = false ->
  snd (apply_answer_to_step py_float st text c) = c.
Proof.
  unfold apply_answer_to_step. cbv zeta.
  destruct st; try (intros _; reflexivity);
    repeat match goal with
           | |- context [if ?b then _ else _] => destruct b
           | |- context [match ?o with Some _ => _ | None => _ end] => destruct o
           end; cbn [fst snd]; congruence.
Qed.

Lemma next_step_not_generated c st n :
  next_step c st = Some n -> n <> TECHNICAL_QA /\ n <> FOLLOWUP /\ n <> END.
Proof.
  rewrite next_step_by_rules. intros [= <-].
  unfold Spec.step_by_rules. destruct (consent_given c); [|repeat split; discriminate].
  unfold Spec.required_fields. cbn [List.find fst].
  repeat match goal with
         | |- context [if ?b then _ else _] => destruct b
         end; repeat split; discriminate.
Qed.

Lemma with_candidate_same (s : Session) : with_candidate (candidate s) s = s.
Proof. destruct s; reflexivity. Qed.

Lemma generation_block_idle json_loads (env : Env) (s : Session) :
  step (state s) <> GENERATE_QA -> generation_block json_loads env s = s.
Proof.
  intros H. unfold generation_block.
  rewrite bool_decide_eq_false_2 by exact H. reflexivity.
Qed.

Lemma intake_step_not_generate (st : Step) : st ∈ INTAKE_STEPS -> st <> GENERATE_QA.
Proof.
  intros Hin E. rewrite E in Hin. apply list_elem_of_In in Hin.
  cbn in Hin. intuition discriminate.
Qed.

(** The run of a message at an intake step, by what the rule answers. *)
Lemma intake_run json_loads py_float (s : Session) (prompt : string) (env : Env) :
  step (state s) ∈ INTAKE_STEPS ->
  PyStr.truthy prompt = true ->
  detect_exit prompt = false ->
  script_run json_loads py_float (Some prompt) env s
  = if fst (apply_answer_to_step py_float (step (state s)) prompt (candidate s))
    then with_state
           (set_step
              (Spec.step_by_rules
                 (snd (apply_answer_to_step py_float (step (state s)) prompt
                         (candidate s))))
              (state s))
           (with_candidate
              (snd (apply_answer_to_step py_float (step (state s)) prompt (candidate s)))
              s)
    else s.
Proof.
  intros Hstep Ht Hexit.
  pose proof (apply_answer_rejected py_float (step (state s)) prompt (candidate s))
    as Hsame.
  unfold script_run, user_turn_reruns, user_turn. rewrite Ht, Hexit. cbv zeta.
  rewrite !bool_decide_eq_true_2 by exact Hstep.
  destruct (apply_answer_to_step py_float (step (state s)) prompt (candidate s))
    as [accepted c']. cbn [fst snd] in *.
  destruct accepted.
  - rewrite next_step_by_rules. reflexivity.
  - rewrite Hsame by reflexivity. rewrite with_candidate_same.
    apply generation_block_idle, intake_step_not_generate, Hstep.
Qed.

(** C10. At an intake step, a message that the step's rule rejects (the
    call of [apply_answer_to_step] in the turn returns [False]) leaves the
    whole session as it was at the end of the run: every field of the
    candidate, and the step. The candidate changes only when the rule has
    accepted the message; the run then commits the candidate the rule
    built and sets the step to what [next_step] gives for it. The turn
    consults the rule for every message but an exit request, which it
    handles first. *)
Theorem intake_turn_commits_only_accepted_input
    (json_loads : string -> option json) (py_float : string -> option pyfloat)
    (s : Session) (prompt : string) (env : Env) :
  step (state s) ∈ INTAKE_STEPS ->
  PyStr.truthy prompt = true ->
  let s' := script_run json_loads py_float (Some prompt) env s in
  (turn_verdict py_float prompt s = Some false ->
   candidate s' = candidate s /\ step (state s') = step (state s) /\ s' = s)
  /\ (candidate s' <> candidate s -> turn_verdict py_float prompt s = Some true)
  /\ (turn_verdict py_float prompt s = Some true ->
      candidate s'
      = snd (apply_answer_to_step py_float (step (state s)) prompt (candidate s))
      /\ next_step (candidate s') (state s) = Some (step (state s')))
  /\ (turn_verdict py_float prompt s = None <-> detect_exit prompt = true).
Proof.
  intros Hstep Ht s'. subst s'. unfold turn_verdict.
  rewrite bool_decide_eq_true_2 by exact Hstep.
  destruct (detect_exit prompt) eqn:Hexit.
  - assert (Hrun : script_run json_loads py_float (Some prompt) env s
                   = with_state (set_step END (set_exit_detected true (state s))) s).
    { unfold script_run, user_turn_reruns, user_turn. rewrite Ht, Hexit. reflexivity. }
    rewrite Hrun.
    split; [discriminate|]. split; [intros H; exfalso; apply H; reflexivity|].
    split; [discriminate|]. split; reflexivity.
  - rewrite (intake_run json_loads py_float s prompt env Hstep Ht Hexit).
    pose proof (apply_answer_rejected py_float (step (state s)) prompt (candidate s))
      as Hsame.
    destruct (apply_answer_to_step py_float (step (state s)) prompt (candidate s))
      as [accepted c']. cbn [fst snd] in *.
    destruct accepted.
    + split; [discriminate|]. split; [reflexivity|].
      split; [|split; discriminate].
      intros _. split; [reflexivity|]. rewrite next_step_by_rules. reflexivity.
    + split; [intros _; repeat split; reflexivity|].
      split; [intros H; exfalso; apply H; reflexivity|].
      split; [discriminate | split; discriminate].
Qed.

(* ================================================================== *)
(** * The answers and scores of a session *)
(* ================================================================== *)

Lemma apply_answer_keeps_assessment (py_float : string -> option pyfloat)
    (st : Step) (text : string) (c : Candidate) :
  let c' := snd (apply_answer_to_step py_float st text c) in
  technical_questions c' = technical_questions c
  /\ technical_answers c' = technical_answers c
  /\ answer_scores c' = answer_scores c.
Proof.
  unfold apply_answer_to_step. cbv zeta.
  destruct st; try (repeat split; reflexivity);
    repeat match goal with
           | |- context [if ?b then _ else _] => destruct b
           | |- context [match ?o with Some _ => _ | None => _ end] => destruct o
           end; repeat split; reflexivity.
Qed.

Lemma py_index_elem {A : Type} (l : list A) (i : Z) (x : A) :
  py_index l i = Some x -> x ∈ l.
Proof.
  unfold py_index. intros H.
  repeat match type of H with
         | context [if ?b then _ else _] => destruct b
         end; try discriminate; eauto using list_elem_of_lookup_2.
Qed.

(** What [handle_technical_answer] does to the session: nothing, or it
    records an answer, and maybe a score, under the id of one of the
    generated questions. *)
Lemma handle_technical_answer_effect json_loads (text : string)
    (service : nat -> reply) (s : Session) :
  let s' := outcome_session (handle_technical_answer json_loads text service s) in
  technical_questions (candidate s') = technical_questions (candidate s)
  /\ generated_questions s' = generated_questions s
  /\ questions_generated s' = questions_generated s
  /\ (s' = s
      \/ exists q a,
           q ∈ generated_questions s
           /\ technical_answers (candidate s')
              = <[q_question_id q := a]> (technical_answers (candidate s))
           /\ (answer_scores (candidate s') = answer_scores (candidate s)
               \/ exists sc, answer_scores (candidate s')
                             = <[q_question_id q := sc]> (answer_scores (candidate s)))).
Proof.
  unfold handle_technical_answer. cbv zeta.
  destruct (negb (PyStr.truthy text) || _); [simpl; tauto|].
  destruct (_ <? _); [|simpl; tauto].
  destruct (py_index _ _) as [q|] eqn:Hq; [|simpl; tauto].
  apply py_index_elem in Hq.
  match goal with
  | |- context [match ?scored with Some _ => _ | None => Raised _ end] =>
      destruct scored as [sc|]
  end.
  - destruct (_ <? _); [destruct (py_index _ _)|]; destruct s as [c st g gq];
      simpl; repeat split; right; eexists q, _; (split; [exact Hq|]);
      (split; [reflexivity|]); right; eexists; reflexivity.
  - destruct s as [c st g gq]. simpl. repeat split. right.
    eexists q, _. split; [exact Hq|]. split; [reflexivity|]. left. reflexivity.
Qed.

Lemma elem_question_ids (q : QuestionRecord) (c : Candidate) :
  q ∈ technical_questions c -> q_question_id q ∈ Spec.question_ids c.
Proof.
  intros H. unfold Spec.question_ids. apply elem_of_list_to_set.
  apply list_elem_of_fmap. exists q. split; [reflexivity | exact H].
Qed.

Lemma handle_technical_answer_inv json_loads (text : string)
    (service : nat -> reply) (s : Session) :
  session_inv s -> questions_generated s = true ->
  session_inv (outcome_session (handle_technical_answer json_loads text service s)).
Proof.
  intros (Hsame & [Ha Hs] & Hpre) Hgen.
  destruct (handle_technical_answer_effect json_loads text service s)
    as (Hq & Hg & Hqg & Heff).
  set (s' := outcome_session _) in *.
  unfold session_inv, Spec.keys_are_question_ids, Spec.question_ids.
  rewrite Hq, Hg, Hqg. split; [exact Hsame|]. split; [|congruence].
  destruct Heff as [-> | (q & a & Hin & Hans & Hsc)]; [split; assumption|].
  rewrite Hsame in Hin. apply elem_question_ids in Hin.
  unfold Spec.question_ids in *. rewrite Hans. split.
  - rewrite dom_insert_L. apply union_least; [|exact Ha].
    apply singleton_subseteq_l, Hin.
  - destruct Hsc as [-> | [sc ->]]; [exact Hs|]. rewrite dom_insert_L.
    apply union_least; [|exact Hs]. apply singleton_subseteq_l, Hin.
Qed.

Lemma handle_technical_answer_grow json_loads (text : string)
    (service : nat -> reply) (s : Session) :
  Spec.keys_grow s (outcome_session (handle_technical_answer json_loads text service s)).
Proof.
  destruct (handle_technical_answer_effect json_loads text service s)
    as (_ & _ & _ & Heff).
  set (s' := outcome_session _) in *. unfold Spec.keys_grow.
  destruct Heff as [-> | (q & a & _ & -> & Hsc)]; [split; reflexivity|].
  split; [rewrite dom_insert_L; apply union_subseteq_r|].
  destruct Hsc as [-> | [sc ->]];
    [reflexivity | rewrite dom_insert_L; apply union_subseteq_r].
Qed.

Lemma keys_grow_refl (s : Session) : Spec.keys_grow s s.
Proof. split; reflexivity. Qed.

Lemma keys_grow_trans (s1 s2 s3 : Session) :
  Spec.keys_grow s1 s2 -> Spec.keys_grow s2 s3 -> Spec.keys_grow s1 s3.
Proof. intros [A1 B1] [A2 B2]. split; etrans; eassumption. Qed.

Lemma user_turn_grow json_loads py_float (prompt : string)
    (service : nat -> reply) (s : Session) :
  Spec.keys_grow s (user_turn json_loads py_float prompt service s).
Proof.
  unfold user_turn. destruct (detect_exit prompt); [(split; reflexivity)|].
  cbv zeta. case_bool_decide.
  - pose proof (apply_answer_keeps_assessment py_float (step (state s)) prompt
                  (candidate s)) as (_ & Ha & Hs).
    destruct (apply_answer_to_step _ _ _ _) as [accepted c]. cbn [snd] in *.
    unfold Spec.keys_grow.
    destruct accepted; [destruct (next_step _ _)|]; simpl; rewrite Ha, Hs;
      split; reflexivity.
  - case_bool_decide.
    + pose proof (handle_technical_answer_grow json_loads prompt service s) as H1.
      destruct (handle_technical_answer _ _ _ _); exact H1.
    + case_bool_decide; (split; reflexivity).
Qed.

Lemma generation_block_grow json_loads (env : Env) (s : Session) :
  Spec.keys_grow s (generation_block json_loads env s).
Proof.
  unfold generation_block. destruct (_ && _); [|(split; reflexivity)].
  destruct (generate_questions_sync _ _ _ _ _) as [qa drawn].
  destruct (materialize _ _ _); (split; reflexivity).
Qed.

Lemma user_turn_inv json_loads py_float (prompt : string)
    (service : nat -> reply) (s : Session) :
  session_inv s -> session_inv (user_turn json_loads py_float prompt service s).
Proof.
  intros Hinv. pose proof Hinv as (Hsame & [Ha Hs] & Hpre).
  unfold user_turn. destruct (detect_exit prompt).
  { repeat split; try assumption; try (apply Hpre; assumption). discriminate. }
  cbv zeta. case_bool_decide as Hintake.
  - pose proof (apply_answer_keeps_assessment py_float (step (state s)) prompt
                  (candidate s)) as (Hq' & Ha' & Hs').
    destruct (apply_answer_to_step _ _ _ _) as [accepted c]. cbn [snd] in *.
    assert (Hc : session_inv (with_candidate c s)).
    { unfold session_inv, Spec.keys_are_question_ids, Spec.question_ids.
      simpl. rewrite Hq', Ha', Hs'. repeat split; try assumption;
        apply Hpre; assumption. }
    destruct accepted; [|exact Hc].
    destruct (next_step c (state (with_candidate c s))) as [n|] eqn:Hn; [|exact Hc].
    apply next_step_not_generated in Hn as (Hn & _).
    destruct Hc as (Hc1 & Hc2 & Hc3). repeat split; try apply Hc2; try assumption;
      try (apply Hc3; assumption).
  - case_bool_decide as Htech.
    + assert (Hgen : questions_generated s = true).
      { destruct (questions_generated s); [reflexivity|].
        destruct (Hpre eq_refl) as (_ & _ & Hne). contradiction. }
      pose proof (handle_technical_answer_inv json_loads prompt service s Hinv Hgen)
        as H1.
      destruct (handle_technical_answer _ _ _ _); exact H1.
    + case_bool_decide as Hfollow; [|exact Hinv].
      repeat split; try assumption; apply Hpre; assumption.
Qed.

Lemma generation_block_inv json_loads (env : Env) (s : Session) :
  session_inv s -> session_inv (generation_block json_loads env s).
Proof.
  intros Hinv. pose proof Hinv as (Hsame & [Ha Hs] & Hpre).
  unfold generation_block.
  destruct (bool_decide _ && negb _) eqn:Hcond; [|exact Hinv].
  apply andb_true_iff in Hcond as [_ Hgen]. apply negb_true_iff in Hgen.
  destruct (Hpre Hgen) as (Hae & Hse & _).
  destruct (generate_questions_sync _ _ _ _ _) as [qa drawn].
  unfold session_inv, Spec.keys_are_question_ids.
  destruct (materialize _ _ _); simpl; rewrite Hae, Hse, !dom_empty_L;
    repeat split; try apply empty_subseteq; try discriminate.
Qed.

(** What the turn and the generation block keep, a run keeps. *)
Lemma script_run_preserves json_loads py_float (P : Session -> Prop)
    (prompt : option string) (env : Env) (s : Session) :
  (forall p s0, P s0 -> P (user_turn json_loads py_float p (score_service env) s0)) ->
  (forall s0, P s0 -> P (generation_block json_loads env s0)) ->
  P s -> P (script_run json_loads py_float prompt env s).
Proof.
  intros Hu Hg Hs. unfold script_run.
  destruct prompt as [p|]; [|apply Hg, Hs].
  destruct (PyStr.truthy p); [|apply Hg, Hs].
  destruct (user_turn_reruns _ _ _ _ _); [apply Hu, Hs | apply Hg, Hu, Hs].
Qed.

Lemma reachable_inv json_loads py_float (s : Session) :
  reachable json_loads py_float s -> session_inv s.
Proof.
  induction 1 as [|s prompt env Hs IH].
  - unfold session_inv, Spec.keys_are_question_ids. simpl. rewrite !dom_empty_L.
    repeat split; try apply empty_subseteq; discriminate.
  - apply script_run_preserves;
      [intros; now apply user_turn_inv | intros; now apply generation_block_inv
      | exact IH].
Qed.

(** C9. In every state a session reaches, the keys of [technical_answers]
    and of [answer_scores] are question ids of [technical_questions], and a
    run of the script, whatever the message and the environment, only adds
    keys to the two mappings. *)
Theorem answer_keys_grow_within_question_ids
    (json_loads : string -> option json) (py_float : string -> option pyfloat) :
  forall s : Session,
    reachable json_loads py_float s ->
    Spec.keys_are_question_ids s
    /\ forall (prompt : option string) (env : Env),
         Spec.keys_grow s (script_run json_loads py_float prompt env s).
Proof.
  intros s Hs. split; [apply (reachable_inv _ _ _ Hs)|].
  intros prompt env.
  apply (script_run_preserves json_loads py_float (Spec.keys_grow s)).
  - intros p s0 H. eapply keys_grow_trans; [exact H | apply user_turn_grow].
  - intros s0 H. eapply keys_grow_trans; [exact H | apply generation_block_grow].
  - apply keys_grow_refl.
Qed.

Lemma answer_keys_grow_within_question_ids_witness :
  Spec.keys_are_question_ids Sample.at_first_question
  /\ Spec.keys_grow Sample.at_first_question
       (Sample.run "Lists are mutable, tuples are not." Sample.env_down
          Sample.at_first_question).
Proof.
  assert (H : reachable Fragment.json_loads Fragment.py_float Sample.at_first_question).
  { unfold Sample.at_first_question, Sample.at_generation, Sample.at_email,
      Sample.run, Sample.rerun.
    repeat apply reachable_run. apply reachable_initial. }
  destruct (answer_keys_grow_within_question_ids _ _ _ H) as [H1 H2].
  split; [exact H1 | apply H2].
Defined.

Lemma intake_turn_commits_only_accepted_input_witness :
  Sample.run "not an email" Sample.env_down Sample.at_email = Sample.at_email.
Proof.
  destruct (intake_turn_commits_only_accepted_input Fragment.json_loads
              Fragment.py_float Sample.at_email "not an email" Sample.env_down)
    as [Hrejected _].
  - vm_compute. apply list_elem_of_In. simpl. tauto.
  - vm_compute. reflexivity.
  - apply Hrejected. vm_compute. reflexivity.
Defined.

(* ================================================================== *)
(** * The question generator *)
(* ================================================================== *)

Lemma py_prefix_length {A : Type} (k : Z) (l : list A) :
  0 <= k -> Z.of_nat (length (py_prefix k l)) = Z.min k (Z.of_nat (length l)).
Proof.
  intros Hk. unfold py_prefix. destruct (Z.ltb_spec k 0); [lia|].
  rewrite length_take. lia.
Qed.

Lemma py_prefix_Forall {A : Type} (P : A -> Prop) (k : Z) (l : list A) :
  Forall P l -> Forall P (py_prefix k l).
Proof. intros H. unfold py_prefix. destruct (k <? 0); apply Forall_take, H. Qed.

Lemma py_prefix_nonempty {A : Type} (k : Z) (l : list A) :
  1 <= k -> l <> [] -> py_prefix k l <> [].
Proof.
  intros Hk Hl Hp. apply (f_equal (fun x => Z.of_nat (length x))) in Hp.
  rewrite py_prefix_length in Hp by lia. destruct l; [congruence|].
  simpl in Hp. lia.
Qed.

Lemma retry_some {A : Type} (n i : nat) (call : nat -> option A) (a : A) :
  retry n i call = Some a -> exists j, call j = Some a.
Proof.
  revert i. induction n as [|n IH]; intros i; simpl; [discriminate|].
  destruct (call i) eqn:E; [intros [= <-]; eauto | apply IH].
Qed.

Lemma validate_difficulty_in (v : option json) (d : string) :
  validate_difficulty v = Some d -> d ∈ DIFFICULTIES.
Proof.
  unfold validate_difficulty.
  destruct v as [[]|]; try discriminate.
  - case_bool_decide; [intros [= <-]; assumption | discriminate].
  - intros [= <-]. apply list_elem_of_In. simpl. tauto.
Qed.

Lemma QAQuestion_new_difficulty (it : json) (q : QAQuestion) :
  QAQuestion_new it = Built q -> difficulty q ∈ DIFFICULTIES.
Proof.
  unfold QAQuestion_new. destruct it; try discriminate.
  destruct (QAQuestion_fields kv) as [q'|] eqn:E; [|discriminate].
  intros [= <-]. unfold QAQuestion_fields in E.
  destruct (assoc_last "topic" kv ≫= validate_str); [|discriminate].
  destruct (assoc_last "question" kv ≫= validate_str); [|discriminate].
  simpl in E.
  destruct (validate_difficulty _) eqn:Hd; [|discriminate].
  destruct (validate_question_id _); [|discriminate].
  simpl in E. injection E as <-. simpl. eauto using validate_difficulty_in.
Qed.

Lemma build_items_difficulty (l : list json) (qs : list QAQuestion) :
  build_items l = Some qs -> Forall (fun q => difficulty q ∈ DIFFICULTIES) qs.
Proof.
  revert qs. induction l as [|it l IH]; intros qs; simpl.
  - intros [= <-]. constructor.
  - destruct (QAQuestion_new it) eqn:E; [|apply IH|discriminate].
    destruct (build_items l) as [qs'|]; [|discriminate].
    intros [= <-]. constructor; eauto using QAQuestion_new_difficulty.
Qed.

Lemma medium_in_difficulties : "medium" ∈ DIFFICULTIES.
Proof. apply list_elem_of_In. simpl. tauto. Qed.

Lemma fallback_items_difficulty (stack : list string) (k : Z) :
  Forall (fun q => difficulty q ∈ DIFFICULTIES) (_fallback_items stack k).
Proof.
  unfold _fallback_items. apply Forall_forall. intros q Hq.
  rewrite <- ?list_elem_of_In in Hq.
  apply list_elem_of_fmap in Hq as (t & -> & _). apply medium_in_difficulties.
Qed.

Lemma or_default_nonempty {A : Type} (l : list A) (x : A) : or_default l [x] <> [].
Proof. destruct l; discriminate. Qed.

Lemma fallback_items_nonempty (stack : list string) (k : Z) :
  1 <= k -> _fallback_items stack k <> [].
Proof.
  intros Hk H. unfold _fallback_items in H. apply fmap_nil_inv in H.
  revert H. apply py_prefix_nonempty; [exact Hk | apply or_default_nonempty].
Qed.

Lemma generate_call_props json_loads (stack : list string) (k : Z) (r : reply)
    (qa : QASet) :
  0 <= k ->
  generate_call json_loads stack k r = Some qa ->
  Z.of_nat (length qa) <= k
  /\ Forall (fun q => difficulty q ∈ DIFFICULTIES) qa
  /\ (1 <= k -> qa <> []).
Proof.
  intros Hk. unfold generate_call. destruct r as [|raw]; [discriminate|].
  cbv zeta.
  match goal with
  | |- context [mbind _ ?m] => destruct m as [items|] eqn:E
  end; [|discriminate].
  simpl. intros [= <-].
  assert (Hitems : Forall (fun q => difficulty q ∈ DIFFICULTIES) items).
  { destruct (_best_effort_json json_loads raw); try (injection E as <-; constructor).
    destruct (assoc_last "items" kv) as [[]|];
      try (injection E as <-; constructor).
    eauto using build_items_difficulty. }
  split; [rewrite py_prefix_length by exact Hk; lia|]. split.
  - apply py_prefix_Forall. destruct items; [apply fallback_items_difficulty|].
    exact Hitems.
  - intros H1. apply py_prefix_nonempty; [exact H1|].
    destruct items; [apply fallback_items_nonempty, H1 | discriminate].
Qed.

Lemma pick_question_from_map (t : string) (used : list string)
    (m : list (string * string)) (q : string) :
  pick_question t used m = Some q -> q ∈ map snd m.
Proof.
  induction m as [|[key q'] m IH]; simpl; [discriminate|].
  destruct (_ || _); [destruct (negb _)|].
  - intros [= <-]. left.
  - intros H. right. apply IH, H.
  - intros H. right. apply IH, H.
Qed.

Lemma questions_map_nonempty : Forall (fun q => q <> "") (map snd questions_map).
Proof. repeat constructor; discriminate. Qed.

Lemma fallback_loop_length (techs used : list string) (draws : nat -> N) (i : nat) :
  length (fallback_loop techs used draws i) = length techs.
Proof.
  revert used i. induction techs as [|t techs IH]; intros used i;
    cbn [fallback_loop length]; [reflexivity | now rewrite IH].
Qed.

Lemma fallback_loop_items (techs used : list string) (draws : nat -> N) (i : nat) :
  Forall (fun q => question q <> "" /\ difficulty q = "medium" /\ topic q ∈ techs)
         (fallback_loop techs used draws i).
Proof.
  revert used i. induction techs as [|t techs IH]; intros used i;
    cbn [fallback_loop]; constructor.
  - cbn [question difficulty topic]. split; [|split; [reflexivity | left]].
    destruct (pick_question _ _ _) as [q|] eqn:E.
    + apply pick_question_from_map in E.
      pose proof questions_map_nonempty as H.
      rewrite Forall_forall in H. apply H. rewrite <- ?list_elem_of_In. exact E.
    + intros H. apply (f_equal String.length) in H.
      rewrite PyStrFacts.length_app in H. cbn [String.length] in H. lia.
  - eapply Forall_impl; [apply IH|]. cbv beta. intros q (H1 & H2 & H3).
    repeat split; try assumption. right. exact H3.
Qed.

Lemma pad_items_length (n : nat) (draws : nat -> N) (i : nat) :
  length (pad_items n draws i) = n.
Proof.
  revert i. induction n as [|n IH]; intros i; simpl; [reflexivity | now rewrite IH].
Qed.

Lemma pad_items_items (n : nat) (draws : nat -> N) (i : nat) :
  Forall (fun q => question q <> "" /\ difficulty q = "medium" /\ topic q = "general")
         (pad_items n draws i).
Proof.
  revert i. induction n as [|n IH]; intros i; simpl; constructor; [|apply IH].
  simpl. repeat split. discriminate.
Qed.

Lemma enhanced_fallback_props (stack : list string) (k : Z) (draws : nat -> N) :
  0 <= k ->
  let qa := fst (enhanced_fallback stack k draws) in
  Z.of_nat (length qa) = k
  /\ Forall (fun q => question q <> "" /\ difficulty q = "medium") qa
  /\ (Forall (fun t => t <> "") stack -> Forall (fun q => topic q <> "") qa).
Proof.
  intros Hk. unfold enhanced_fallback. cbv zeta. cbn [fst].
  set (base := or_default stack ["general software engineering"]).
  set (head := fallback_loop (py_prefix k base) [] draws 0).
  assert (Hlen : Z.of_nat (length head) <= k).
  { subst head. rewrite fallback_loop_length, py_prefix_length by exact Hk. lia. }
  split; [|split].
  - rewrite py_prefix_length, length_app, pad_items_length by exact Hk. lia.
  - apply py_prefix_Forall, Forall_app. split.
    + eapply Forall_impl; [apply fallback_loop_items|]. simpl. tauto.
    + eapply Forall_impl; [apply pad_items_items|]. simpl. tauto.
  - intros Hstack. apply py_prefix_Forall, Forall_app. split.
    + assert (Hbase : Forall (fun t => t <> "") (py_prefix k base)).
      { apply py_prefix_Forall. subst base.
        destruct stack; [repeat constructor; discriminate | exact Hstack]. }
      eapply Forall_impl; [apply fallback_loop_items|]. simpl.
      intros q (_ & _ & Hin). rewrite Forall_forall in Hbase. apply Hbase.
      rewrite <- ?list_elem_of_In. exact Hin.
    + eapply Forall_impl; [apply pad_items_items|]. simpl.
      intros q (_ & _ & ->). discriminate.
Qed.

Lemma all_attempts_raise json_loads (stack : list string) (k : Z)
    (service : nat -> reply) :
  (forall i, (i < 3)%nat -> service i = Raises) ->
  generate_stack_questions json_loads stack k service = None.
Proof.
  intros H. unfold generate_stack_questions. cbn [retry]. unfold generate_call.
  rewrite !H by lia. reflexivity.
Qed.

Lemma retry_first {A : Type} (n i : nat) (call : nat -> option A) (a : A) :
  retry n i call = Some a ->
  exists j, (i <= j < i + n)%nat /\ call j = Some a
            /\ forall i', (i <= i' < j)%nat -> call i' = None.
Proof.
  revert i. induction n as [|n IH]; intros i; cbn [retry]; [discriminate|].
  destruct (call i) eqn:E.
  - intros [= <-]. exists i. split; [lia|]. split; [exact E|]. intros i' Hi. lia.
  - intros H. apply IH in H as (j & Hj & Hc & Hbefore). exists j.
    split; [lia|]. split; [exact Hc|]. intros i' Hi.
    destruct (decide (i' = i)) as [-> | Hne]; [exact E | apply Hbefore; lia].
Qed.

Lemma generate_call_collected json_loads (stack : list string) (k : Z) (raw : string) :
  generate_call json_loads stack k (Content raw)
  = (items ← collected_items json_loads raw;
     Some (py_prefix k match items with
                       | [] => _fallback_items (normalize_stack stack) k
                       | _ :: _ => items
                       end)).
Proof. reflexivity. Qed.

Lemma normalize_stack_nonempty (stack : list string) :
  Forall (fun t => t <> "") (normalize_stack stack).
Proof.
  unfold normalize_stack. apply Forall_forall. intros t Hin.
  rewrite <- ?list_elem_of_In in Hin.
  apply list_elem_of_fmap in Hin as (s & -> & Hs).
  apply list_elem_of_filter in Hs as [Hs _].
  apply andb_true_iff in Hs as [_ Hs]. intros E. rewrite E in Hs. discriminate.
Qed.

Lemma fallback_items_written (stack : list string) (k : Z) :
  Forall (fun t => t <> "") stack ->
  Forall (fun q => topic q <> "" /\ question q <> "" /\ difficulty q = "medium")
         (_fallback_items stack k).
Proof.
  intros Hst. unfold _fallback_items. cbv zeta. apply Forall_fmap.
  apply py_prefix_Forall.
  assert (Hbase : Forall (fun t => t <> "")
                         (or_default stack ["general software engineering"])).
  { destruct stack; [repeat constructor; discriminate | exact Hst]. }
  eapply Forall_impl; [exact Hbase|]. intros t Ht. cbn.
  split; [exact Ht|]. split; [discriminate | reflexivity].
Qed.

Lemma fallback_items_full (stack : list string) (k : Z) :
  0 <= k -> k <= Z.of_nat (length stack) ->
  Z.of_nat (length (py_prefix k (_fallback_items stack k))) = k.
Proof.
  intros Hk Hlen. unfold _fallback_items. cbv zeta.
  rewrite py_prefix_length, length_map, py_prefix_length by exact Hk.
  destruct stack; cbn [or_default length] in *; lia.
Qed.

Lemma py_prefix_is_prefix {A : Type} (k : Z) (l : list A) :
  exists rest, l = py_prefix k l ++ rest.
Proof.
  unfold py_prefix. destruct (k <? 0); eexists; symmetry; apply take_drop.
Qed.

(** C1 (amended). For every decoder, stack, service behaviour and [k >= 0],
    every question that the generation returns has a difficulty among easy,
    medium and hard. When every attempt of the service call ends in an
    error, it returns exactly [k] questions, each with a non-empty question
    text and difficulty medium, and with a non-empty topic if no entry of
    the stack is empty. Otherwise the questions come from the first attempt
    that returned: when its reply holds valid items, the questions are
    those items from the first on, as the service wrote them, and exactly
    the first [k] when there are that many; when it holds none, the
    operation writes the questions itself, each with a non-empty topic, a
    non-empty question text and difficulty medium, exactly [k] of them when
    the stack has [k] entries that are not blank. *)
Theorem generation_complete_where_the_code_pads
    (json_loads : string -> option json) (stack : list string) (k : Z)
    (service : nat -> reply) (draws : nat -> N) :
  0 <= k ->
  let qa := fst (generate_questions_sync json_loads stack k service draws) in
  Forall (fun q => difficulty q ∈ ["easy"; "medium"; "hard"]) qa
  /\ (generate_stack_questions json_loads stack k service = None ->
      Z.of_nat (length qa) = k
      /\ Forall (fun q => question q <> "" /\ difficulty q = "medium") qa
      /\ (Forall (fun t => t <> "") stack -> Forall (fun q => topic q <> "") qa))
  /\ (generate_stack_questions json_loads stack k service <> None ->
      exists (j : nat) (raw : string) (items : list QAQuestion),
        (j < 3)%nat /\ service j = Content raw
        /\ (forall i, (i < j)%nat ->
              generate_call json_loads stack k (service i) = None)
        /\ collected_items json_loads raw = Some items
        /\ match items with
           | [] =>
               Forall (fun q => topic q <> "" /\ question q <> ""
                                /\ difficulty q = "medium") qa
               /\ (k <= Z.of_nat (length (normalize_stack stack)) ->
                   Z.of_nat (length qa) = k)
           | _ :: _ =>
               (exists rest, items = qa ++ rest)
               /\ (k <= Z.of_nat (length items) ->
                   qa = take (Z.to_nat k) items /\ Z.of_nat (length qa) = k)
           end).
Proof.
  intros Hk qa. subst qa. unfold generate_questions_sync.
  pose proof (enhanced_fallback_props stack k draws Hk) as (Hlen & Hmed & Htopic).
  destruct (generate_stack_questions json_loads stack k service) as [qa|] eqn:E;
    cbn [fst].
  - unfold generate_stack_questions in E.
    pose proof (retry_first _ _ _ _ E) as (j & Hj & Hcall & Hbefore).
    split; [apply (generate_call_props json_loads stack k (service j) qa Hk Hcall)|].
    split; [discriminate|]. intros _.
    destruct (service j) as [|raw] eqn:Hs; [discriminate|].
    rewrite generate_call_collected in Hcall.
    destruct (collected_items json_loads raw) as [items|] eqn:Hit; [|discriminate].
    cbn in Hcall. injection Hcall as <-.
    exists j, raw, items. split; [lia|]. split; [exact Hs|].
    split; [intros i Hi; apply Hbefore; lia|]. split; [exact Hit|].
    destruct items as [|it items].
    + split.
      * apply py_prefix_Forall, fallback_items_written, normalize_stack_nonempty.
      * intros Hst. apply fallback_items_full; assumption.
    + split; [apply py_prefix_is_prefix|]. intros Hn.
      assert (Hp : py_prefix k (it :: items) = take (Z.to_nat k) (it :: items)).
      { unfold py_prefix. destruct (Z.ltb_spec k 0); [lia | reflexivity]. }
      split; [exact Hp|]. rewrite py_prefix_length by exact Hk. lia.
  - split.
    + eapply Forall_impl; [exact Hmed|]. simpl. intros q [_ ->].
      apply medium_in_difficulties.
    + split; [intros _; repeat split; assumption | congruence].
Qed.

Lemma generation_complete_where_the_code_pads_witness :
  Z.of_nat (length (fst (generate_questions_sync Fragment.json_loads
                           ["python"; "sql"] 5 Sample.service_down
                           Sample.counting_draws))) = 5.
Proof.
  destruct (generation_complete_where_the_code_pads Fragment.json_loads
              ["python"; "sql"] 5 Sample.service_down Sample.counting_draws)
    as (_ & Hfail & _); [lia|].
  destruct Hfail as [Hlen _]; [|exact Hlen].
  apply all_attempts_raise. reflexivity.
Defined.

(** C1, as stated, fails: an item that the service returns with empty
    texts is passed on with its empty topic and question, here as the first
    of five questions. *)
Lemma generator_passes_blank_item_on :
  fst (generate_questions_sync Fragment.json_loads ["python"] 5
         (fun _ => Content Sample.five_items_one_blank) Sample.counting_draws)
  = [mkQAQuestion "" "" "easy" None; mkQAQuestion "a" "b" "medium" None;
     mkQAQuestion "c" "d" "medium" None; mkQAQuestion "e" "f" "medium" None;
     mkQAQuestion "g" "h" "medium" None].
Proof. vm_compute. reflexivity. Qed.

(** With a reply in prose [_fallback_items] writes one question for each
    technology and adds none: a stack of one technology gives one question
    for [k = 5], where the fallback of [generate_questions_sync] gives
    five. *)
Lemma prose_reply_one_question :
  length (fst (generate_questions_sync Fragment.json_loads ["python"] 5
                 Sample.service_prose Sample.counting_draws)) = 1%nat
  /\ length (fst (generate_questions_sync Fragment.json_loads ["python"] 5
                    Sample.service_down Sample.counting_draws)) = 5%nat.
Proof. split; vm_compute; reflexivity. Qed.

(* ================================================================== *)
(** * Question ids *)
(* ================================================================== *)





(** One step of [materialize], by the id the question carries. *)
Lemma materialize_cons (q : QAQuestion) (rest : list QAQuestion)
    (draws : nat -> N) (i : nat) :
  materialize (q :: rest) draws i =
  match Spec.carried_id q with
  | Some qid =>
      mkQuestionRecord (topic q) (question q) (difficulty q) qid
      :: materialize rest draws i
  | None =>
      mkQuestionRecord (topic q) (question q) (difficulty q) (uuid_prefix (draws i))
      :: materialize rest draws (S i)
  end.
Proof.
  cbn [materialize]. unfold Spec.carried_id.
  destruct (question_id q) as [qid|]; [destruct (PyStr.truthy qid)|]; reflexivity.
Qed.



Lemma materialize_length (items : list QAQuestion) (draws : nat -> N) (i : nat) :
  length (materialize items draws i) = length items.
Proof.
  revert i. induction items as [|q rest IH]; intros i; [reflexivity|].
  rewrite materialize_cons. destruct (Spec.carried_id q); cbn [length];
    now rewrite IH.
Qed.












(** Two draws with the same first eight digits give two questions the same
    id: the uniqueness of the assigned ids is that of the draws. *)
Lemma colliding_draws_give_equal_ids :
  map q_question_id
    (materialize
       (fst (generate_questions_sync Fragment.json_loads ["python"] 2
               Sample.service_down (fun _ => 12345%N)))
       (fun _ => 12345%N)
       (snd (generate_questions_sync Fragment.json_loads ["python"] 2
               Sample.service_down (fun _ => 12345%N))))
  = ["00000000"; "00000000"].
Proof. vm_compute. reflexivity. Qed.



(* ================================================================== *)
(** * Trimming *)
(* ================================================================== *)

Module StripFacts.

Import PyStr.

Lemma lstrip_split (l : list ascii) :
  exists ws, l = ws ++ lstrip_chars l /\ forallb isspace ws = true.
Proof.
  induction l as [|c l (ws & Hl & Hws)]; [exists []; split; reflexivity|].
  cbn [lstrip_chars]. destruct (isspace c) eqn:E.
  - exists (c :: ws). split; [cbn; congruence | cbn; now rewrite E].
  - exists []. split; reflexivity.
Qed.

Lemma lstrip_app_nonspace (l1 : list ascii) (c : ascii) (r : list ascii) :
  isspace c = false -> lstrip_chars (l1 ++ c :: r) = lstrip_chars l1 ++ c :: r.
Proof.
  intros Hc. induction l1 as [|x l1 IH]; cbn [app lstrip_chars].
  - rewrite Hc. reflexivity.
  - destruct (isspace x); [exact IH | reflexivity].
Qed.

Lemma lstrip_fixed (c : ascii) (r : list ascii) :
  isspace c = false -> lstrip_chars (c :: r) = c :: r.
Proof. intros H. cbn. now rewrite H. Qed.

Lemma lstrip_head (l : list ascii) (c : ascii) (r : list ascii) :
  lstrip_chars l = c :: r -> isspace c = false.
Proof.
  induction l as [|x l IH]; cbn [lstrip_chars]; [discriminate|].
  destruct (isspace x) eqn:E; [exact IH | intros [= <- _]; exact E].
Qed.

Lemma lstrip_idem (l : list ascii) : lstrip_chars (lstrip_chars l) = lstrip_chars l.
Proof.
  destruct (lstrip_chars l) as [|c r] eqn:E; [reflexivity|].
  apply lstrip_fixed. eapply lstrip_head, E.
Qed.

Lemma rstrip_split (l : list ascii) :
  exists ws, l = rstrip_chars l ++ ws /\ forallb isspace ws = true.
Proof.
  unfold rstrip_chars. destruct (lstrip_split (rev l)) as (ws & H & Hws).
  exists (rev ws). split.
  - rewrite <- (rev_involutive l), H at 1. now rewrite rev_app_distr.
  - rewrite forallb_forall in *. intros x Hx. apply Hws. now apply in_rev.
Qed.

Lemma rstrip_idem (l : list ascii) : rstrip_chars (rstrip_chars l) = rstrip_chars l.
Proof. unfold rstrip_chars. now rewrite rev_involutive, lstrip_idem. Qed.

(** A text that begins with a character that is no white space keeps its
    beginning under [rstrip]. *)
Lemma rstrip_keeps_head (c : ascii) (r : list ascii) :
  isspace c = false -> exists r', rstrip_chars (c :: r) = c :: r'.
Proof.
  intros Hc. unfold rstrip_chars. cbn [rev].
  rewrite lstrip_app_nonspace by exact Hc.
  rewrite rev_app_distr. cbn. eauto.
Qed.

Lemma strip_chars_idem (l : list ascii) :
  rstrip_chars (lstrip_chars (rstrip_chars (lstrip_chars l)))
  = rstrip_chars (lstrip_chars l).
Proof.
  destruct (lstrip_chars l) as [|c r] eqn:E; [reflexivity|].
  pose proof (lstrip_head _ _ _ E) as Hc.
  destruct (rstrip_keeps_head c r Hc) as [r' Hr].
  rewrite Hr, (lstrip_fixed c r' Hc), <- Hr. apply rstrip_idem.
Qed.

(** Trimming twice is trimming once. *)
Lemma strip_idem (s : string) : strip (strip s) = strip s.
Proof.
  unfold strip. rewrite PyStrFacts.chars_str. f_equal. apply strip_chars_idem.
Qed.

(** The trimmed text with the white space cut off around it. *)
Lemma strip_split (s : string) :
  exists ws1 ws2,
    chars s = ws1 ++ chars (strip s) ++ ws2
    /\ forallb isspace ws1 = true /\ forallb isspace ws2 = true.
Proof.
  unfold strip. rewrite PyStrFacts.chars_str.
  destruct (lstrip_split (chars s)) as (ws1 & H1 & Hw1).
  destruct (rstrip_split (lstrip_chars (chars s))) as (ws2 & H2 & Hw2).
  exists ws1, ws2. split; [|split; assumption].
  rewrite H1 at 1. now rewrite H2 at 1.
Qed.

(** A piece that begins and ends with characters that are no white space
    survives trimming, wherever it stands. *)
Lemma strip_keeps_inner (l1 l3 : list ascii) (c d : ascii) (mid : list ascii) :
  isspace c = false -> isspace d = false ->
  exists a b,
    rstrip_chars (lstrip_chars (l1 ++ (c :: mid ++ [d]) ++ l3))
    = a ++ (c :: mid ++ [d]) ++ b.
Proof.
  intros Hc Hd. cbn [app]. rewrite lstrip_app_nonspace by exact Hc.
  unfold rstrip_chars.
  replace (rev (lstrip_chars l1 ++ c :: (mid ++ [d]) ++ l3))
    with (rev l3 ++ d :: rev mid ++ c :: rev (lstrip_chars l1)).
  2:{ rewrite !rev_app_distr. cbn [rev]. rewrite !rev_app_distr. cbn.
      repeat (rewrite <- app_assoc; cbn [app]). rewrite ?rev_involutive.
      reflexivity. }
  rewrite lstrip_app_nonspace by exact Hd.
  exists (lstrip_chars l1), (rev (lstrip_chars (rev l3))).
  rewrite rev_app_distr. cbn [rev]. rewrite !rev_app_distr, !rev_involutive.
  cbn. repeat (rewrite <- app_assoc; cbn [app]). rewrite ?rev_involutive.
  reflexivity.
Qed.

Lemma space_is_lower (c : ascii) : isspace c = true -> lower_char c = c.
Proof.
  unfold isspace, lower_char. set (n := code c). intros H.
  destruct ((65 <=? n) && (n <=? 90)
            || (192 <=? n) && (n <=? 222) && negb (n =? 215))%N eqn:E;
    [|reflexivity].
  exfalso. rewrite !orb_true_iff, !andb_true_iff, !N.leb_le, !N.eqb_eq in H.
  rewrite !orb_true_iff, !andb_true_iff, !N.leb_le in E. lia.
Qed.

Lemma truthy_chars (s : string) : truthy s = true <-> chars s <> [].
Proof. destruct s; cbn; split; congruence || discriminate. Qed.

End StripFacts.

(* ================================================================== *)
(** * Exit detection on the untrimmed text *)
(* ================================================================== *)

Lemma strip_keeps_piece (l1 l2 l3 : list ascii) :
  l2 <> [] -> forallb (fun c => negb (PyStr.isspace c)) l2 = true ->
  exists a b,
    PyStr.rstrip_chars (PyStr.lstrip_chars (l1 ++ l2 ++ l3)) = a ++ l2 ++ b.
Proof.
  intros Hne Hall.
  destruct l2 as [|c r]; [congruence|].
  assert (Hc : PyStr.isspace c = false).
  { cbn in Hall. apply andb_true_iff in Hall as [H _]. now apply negb_true_iff. }
  destruct (exists_last (l := c :: r)) as (r' & d & Hr); [discriminate|].
  assert (Hd : PyStr.isspace d = false).
  { rewrite Hr, forallb_app in Hall. apply andb_true_iff in Hall as [_ H].
    cbn in H. rewrite andb_true_r in H. now apply negb_true_iff. }
  cbn [app]. rewrite StripFacts.lstrip_app_nonspace by exact Hc.
  change (c :: r ++ l3) with ((c :: r) ++ l3). rewrite Hr.
  unfold PyStr.rstrip_chars.
  replace (rev (PyStr.lstrip_chars l1 ++ (r' ++ [d]) ++ l3))
    with (rev l3 ++ d :: rev r' ++ rev (PyStr.lstrip_chars l1)).
  2:{ rewrite !rev_app_distr. cbn.
      repeat (rewrite <- app_assoc; cbn [app]). reflexivity. }
  rewrite StripFacts.lstrip_app_nonspace by exact Hd.
  exists (PyStr.lstrip_chars l1), (rev (PyStr.lstrip_chars (rev l3))).
  rewrite rev_app_distr. cbn [rev]. rewrite !rev_app_distr, !rev_involutive.
  cbn. repeat (rewrite <- app_assoc; cbn [app]). f_equal.
  rewrite (app_comm_cons r (rev (PyStr.lstrip_chars (rev l3))) c), Hr.
  rewrite <- app_assoc. reflexivity.
Qed.

Lemma lower_preimage_nonspace (l k : list ascii) :
  map PyStr.lower_char l = k ->
  forallb (fun c => negb (PyStr.isspace c)) k = true ->
  forallb (fun c => negb (PyStr.isspace c)) l = true.
Proof.
  intros <-. rewrite !forallb_forall. intros H c Hc.
  destruct (PyStr.isspace c) eqn:E; [|reflexivity].
  specialize (H (PyStr.lower_char c) (in_map _ _ _ Hc)).
  rewrite (StripFacts.space_is_lower c E), E in H. discriminate.
Qed.

Lemma exit_keywords_solid :
  Forall (fun kw => PyStr.chars kw <> []
                    /\ forallb (fun c => negb (PyStr.isspace c)) (PyStr.chars kw) = true)
         EXIT_KEYWORDS.
Proof. repeat constructor; discriminate. Qed.

Lemma contains_lower_strip (kw text : string) :
  kw ∈ EXIT_KEYWORDS ->
  PyStr.contains kw (PyStr.lower (PyStr.strip text)) = true
  <-> PyStr.contains kw (PyStr.lower text) = true.
Proof.
  intros Hkw. unfold PyStr.contains, PyStr.lower.
  rewrite !PyStrFacts.chars_str, !PyStrFacts.contains_chars_spec.
  destruct (StripFacts.strip_split text) as (ws1 & ws2 & Hsplit & _).
  split.
  - intros (pre & post & H). rewrite Hsplit, !map_app, H.
    exists (map PyStr.lower_char ws1 ++ pre), (post ++ map PyStr.lower_char ws2).
    repeat (rewrite <- app_assoc; cbn [app]). reflexivity.
  - intros (pre & post & H).
    apply fmap_app_inv in H as (l1 & l23 & -> & H & Htext).
    symmetry in H. apply fmap_app_inv in H as (l2 & l3 & Hk & -> & ->).
    pose proof exit_keywords_solid as Hsolid. rewrite Forall_forall in Hsolid.
    rewrite <- ?list_elem_of_In in Hsolid.
    destruct (Hsolid kw) as [Hne Hall].
    { rewrite <- ?list_elem_of_In. exact Hkw. }
    assert (Hl2 : l2 <> []).
    { intros ->. apply Hne. rewrite Hk. reflexivity. }
    pose proof (lower_preimage_nonspace l2 _ (eq_sym Hk) Hall) as Hl2s.
    destruct (strip_keeps_piece l1 l2 l3 Hl2 Hl2s) as (a & b & Hs).
    unfold PyStr.strip. rewrite PyStrFacts.chars_str, Htext, Hs, !map_app.
    exists (map PyStr.lower_char a), (map PyStr.lower_char b).
    rewrite Hk. reflexivity.
Qed.

Lemma detect_exit_scan (text : string) :
  detect_exit text
  = existsb (fun kw => PyStr.contains kw (PyStr.lower (PyStr.strip text))) EXIT_KEYWORDS.
Proof.
  unfold detect_exit. destruct (PyStr.truthy text) eqn:Ht; cbn [negb].
  - case_bool_decide as Hin; [|reflexivity].
    symmetry. apply existsb_elem_of.
    exists (PyStr.lower (PyStr.strip text)). split; [exact Hin|].
    apply PyStrFacts.contains_refl.
  - apply PyStrFacts.truthy_false in Ht. subst text. vm_compute. reflexivity.
Qed.

(** X1. Neither the trimming nor the exact-match test of [detect_exit]
    changes its answer: it is true exactly when an exit keyword occurs in
    the lowercased text as it was typed, white space included. *)
Theorem detect_exit_scans_whole_text (text : string) :
  detect_exit text = true <->
  exists kw : string, kw ∈ EXIT_KEYWORDS /\ PyStr.occurs_in kw (PyStr.lower text).
Proof.
  rewrite detect_exit_scan, existsb_elem_of. split.
  - intros (kw & Hkw & H). exists kw. split; [exact Hkw|].
    apply PyStrFacts.contains_spec. now apply (contains_lower_strip kw text Hkw).
  - intros (kw & Hkw & H). exists kw. split; [exact Hkw|].
    apply (contains_lower_strip kw text Hkw). now apply PyStrFacts.contains_spec.
Qed.

(* ================================================================== *)
(** * The completeness check and the next step *)
(* ================================================================== *)

Lemma is_intake_complete_by_rules (c : Candidate) :
  is_intake_complete c
  = Some (bool_decide (Spec.step_by_rules c = GENERATE_QA)).
Proof.
  unfold is_intake_complete, required_fields, Spec.step_by_rules,
    Spec.required_fields.
  cbn [is_intake_complete_loop List.find fst].
  change (getattr_or_none c "full_name") with (attr_of_str (full_name c)).
  change (getattr_or_none c "email") with (attr_of_str (email c)).
  change (getattr_or_none c "phone") with (attr_of_str (phone c)).
  change (getattr_or_none c "years_experience")
    with (attr_of_float (years_experience c)).
  change (getattr_or_none c "desired_positions") with (AList (desired_positions c)).
  change (getattr_or_none c "current_location")
    with (attr_of_str (current_location c)).
  change (getattr_or_none c "tech_stack") with (AList (tech_stack c)).
  unfold Spec.unset_text, Spec.unset_number, Spec.unset_sequence.
  assert (Hblank : forall s, negb (PyStr.truthy (PyStr.strip s))
                             = bool_decide (PyStr.strip s = "")).
  { intros s. destruct (PyStr.strip s); reflexivity. }
  destruct (full_name c) as [n|]; cbn [attr_of_str mbind option_bind];
    [rewrite Hblank; destruct (bool_decide (PyStr.strip n = ""))|];
    try (destruct (consent_given c); reflexivity).
  destruct (email c) as [e|]; cbn [attr_of_str mbind option_bind];
    [rewrite Hblank; destruct (bool_decide (PyStr.strip e = ""))|];
    try (destruct (consent_given c); reflexivity).
  destruct (phone c) as [p|]; cbn [attr_of_str mbind option_bind];
    [rewrite Hblank; destruct (bool_decide (PyStr.strip p = ""))|];
    try (destruct (consent_given c); reflexivity).
  destruct (years_experience c) as [y|]; cbn [attr_of_float mbind option_bind];
    try (destruct (consent_given c); reflexivity).
  destruct (desired_positions c) as [|d ds]; cbn [attr_falsy mbind option_bind];
    try (destruct (consent_given c); reflexivity).
  destruct (current_location c) as [l|]; cbn [attr_of_str mbind option_bind];
    [rewrite Hblank; destruct (bool_decide (PyStr.strip l = ""))|];
    try (destruct (consent_given c); reflexivity).
  destruct (tech_stack c) as [|t ts]; cbn [attr_falsy mbind option_bind];
    destruct (consent_given c); reflexivity.
Qed.

(** X2. [is_intake_complete] never raises, and it answers true exactly
    when [next_step] moves on to [GENERATE_QA]: the two functions of
    core/state.py agree on when the intake is over. *)
Theorem is_intake_complete_iff_next_step_generates
    (c : Candidate) (st : ConversationState) :
  exists b : bool,
    is_intake_complete c = Some b
    /\ (b = true <-> next_step c st = Some GENERATE_QA).
Proof.
  exists (bool_decide (Spec.step_by_rules c = GENERATE_QA)).
  split; [apply is_intake_complete_by_rules|].
  rewrite next_step_by_rules, bool_decide_eq_true. split; congruence.
Qed.

(* ================================================================== *)
(** * The chat history *)
(* ================================================================== *)

Lemma last_some_snoc {A : Type} (l : list A) (x : A) :
  List.last (map Some (l ++ [x])) None = Some x.
Proof. rewrite map_app. apply last_last. Qed.

Lemma last_some_lookup {A : Type} (l : list A) (x : A) :
  List.last (map Some l) None = Some x ->
  exists l', l = l' ++ [x].
Proof.
  destruct l as [|a l] using rev_ind; [discriminate|].
  rewrite last_some_snoc. intros [= ->]. eauto.
Qed.

Lemma no_repeat_snoc (h : list message) (m m' : message) :
  Wf.no_repeat (h ++ [m]) -> m <> m' -> Wf.no_repeat ((h ++ [m]) ++ [m']).
Proof.
  intros Hh Hne i x H1 H2.
  destruct (decide (S i < length (h ++ [m]))%nat) as [Hlt|Hge].
  - rewrite lookup_app_l in H1 by lia. rewrite lookup_app_l in H2 by lia.
    exact (Hh i x H1 H2).
  - assert (Hi : i = length h).
    { apply lookup_lt_Some in H2. rewrite !length_app in *. cbn in *. lia. }
    subst i. rewrite lookup_app_l in H1 by (rewrite length_app; cbn; lia).
    rewrite lookup_app_r in H1 by lia. rewrite Nat.sub_diag in H1.
    rewrite lookup_app_r in H2 by (rewrite length_app; cbn; lia).
    rewrite length_app in H2. cbn in H1, H2.
    replace (S (length h) - (length h + 1))%nat with 0%nat in H2 by lia.
    cbn in H2. congruence.
Qed.

Lemma append_message_no_repeat (role content : string) (h : list message) :
  Wf.no_repeat h -> Wf.no_repeat (append_message role content h).
Proof.
  intros Hh. unfold append_message.
  destruct (List.last (map Some h) None) as [[r c]|] eqn:E.
  - apply last_some_lookup in E as [h' ->].
    destruct (String.eqb r role && String.eqb c content) eqn:Eq; [exact Hh|].
    apply no_repeat_snoc; [exact Hh|]. intros [= -> ->].
    rewrite !String.eqb_refl in Eq. discriminate.
  - destruct h as [|a h] using rev_ind; [|rewrite last_some_snoc in E; discriminate].
    intros i x H1 H2. destruct i; discriminate.
Qed.

(** X3. However the messages arrive, a history built with [append_message]
    never holds the same message twice in a row, and appending the message
    that is already the last one changes nothing. *)
Theorem append_message_never_repeats (msgs : list message) (role content : string) :
  let history := fold_left (fun h m => append_message (fst m) (snd m) h) msgs [] in
  Wf.no_repeat history
  /\ append_message role content (append_message role content history)
     = append_message role content history.
Proof.
  intros history. split.
  - subst history. induction msgs as [|m l IH] using rev_ind.
    + intros i x H1 H2. cbn in H1. rewrite lookup_nil in H1. discriminate.
    + rewrite fold_left_app. apply append_message_no_repeat, IH.
  - generalize history. clear. intros h. unfold append_message at 2 3.
    assert (Hdone : forall h', append_message role content (h' ++ [(role, content)])
                               = h' ++ [(role, content)]).
    { intros h'. unfold append_message. rewrite last_some_snoc, !String.eqb_refl.
      reflexivity. }
    destruct (List.last (map Some h) None) as [[r c]|] eqn:E; [|apply Hdone].
    destruct (String.eqb r role && String.eqb c content) eqn:Eq; [|apply Hdone].
    unfold append_message. rewrite E, Eq. reflexivity.
Qed.

(* ================================================================== *)
(** * Masking *)
(* ================================================================== *)

Lemma stars_hidden (n : nat) :
  filter (fun ch => ch <> "*"%char) (repeat "*"%char n) = [].
Proof.
  induction n as [|n IH]; [reflexivity|]. cbn [repeat].
  rewrite filter_cons_False by (intros H; apply H; reflexivity). exact IH.
Qed.

Lemma shown_length (l : list ascii) :
  (length (filter (fun ch => ch <> "*"%char) l) <= length l)%nat.
Proof. apply length_filter. Qed.

(** X4. [mask_phone] returns a text exactly as long as the phone number
    with everything but digits and '+' removed, and shows at most six of
    its characters: all others are stars. A number of four or fewer kept
    characters is hidden completely. *)
Theorem mask_phone_length_and_cover (phone : string) :
  let cleaned := clean_phone phone in
  String.length (mask_phone phone) = String.length cleaned
  /\ (length (filter (fun ch => ch <> "*"%char) (PyStr.chars (mask_phone phone)))
      <= 6)%nat
  /\ ((String.length cleaned <= 4)%nat ->
      mask_phone phone = PyStr.str (repeat "*"%char (String.length cleaned))).
Proof.
  intros cleaned. subst cleaned. unfold mask_phone.
  destruct (PyStr.truthy phone) eqn:Ht; cbn [negb].
  2:{ apply PyStrFacts.truthy_false in Ht. subst phone. repeat split.
      cbn. lia. }
  cbv zeta. rewrite !PyStrFacts.length_chars.
  set (l := PyStr.chars (clean_phone phone)).
  assert (Hl : String.length (clean_phone phone) = length l).
  { subst l. now rewrite PyStrFacts.length_chars. }
  rewrite Hl. set (n := length l) in *.
  assert (Hn : length l = n) by reflexivity.
  destruct (Nat.leb_spec n 4).
  - rewrite PyStrFacts.length_str, PyStrFacts.chars_str, repeat_length, stars_hidden.
    repeat split. cbn. lia.
  - destruct (PyStr.startswith _ _); [destruct (Nat.leb_spec n 6)|];
      rewrite PyStrFacts.length_str, PyStrFacts.chars_str;
      rewrite ?length_app, ?length_take, ?length_drop, ?repeat_length;
      rewrite ?filter_app, ?stars_hidden, ?length_app;
      (split; [lia|]); (split; [|lia]); cbn [app length];
      repeat match goal with
             | |- context [length (filter ?P ?x)] =>
                 let H := fresh in
                 pose proof (length_filter P x) as H;
                 generalize dependent (length (filter P x)); intros
             end;
      rewrite ?length_take, ?length_drop in *; lia.
Qed.

Lemma split_at_first_spec (c : ascii) (l a b : list ascii) :
  split_at_first c l = Some (a, b) -> l = a ++ c :: b /\ c ∉ a.
Proof.
  revert a b. induction l as [|x l IH]; intros a b; cbn [split_at_first];
    [discriminate|].
  destruct (Ascii.eqb_spec x c) as [->|Hne].
  - intros [= <- <-]. split; [reflexivity | apply not_elem_of_nil].
  - destruct (split_at_first c l) as [[a' b']|]; [|discriminate].
    cbn. intros [= <- <-]. destruct (IH a' b' eq_refl) as [-> Hnot].
    split; [reflexivity|]. apply not_elem_of_cons. split; [congruence | exact Hnot].
Qed.

Lemma split_at_first_found (c : ascii) (a b : list ascii) :
  c ∉ a -> split_at_first c (a ++ c :: b) = Some (a, b).
Proof.
  induction a as [|x a IH]; intros Hnot; cbn [app split_at_first].
  - now rewrite Ascii.eqb_refl.
  - apply not_elem_of_cons in Hnot as [Hne Hnot].
    destruct (Ascii.eqb_spec x c) as [->|_]; [congruence|].
    rewrite (IH Hnot). reflexivity.
Qed.

Lemma contains_char (c : ascii) (a b : list ascii) :
  PyStr.contains (String c "") (PyStr.str (a ++ c :: b)) = true.
Proof.
  apply PyStrFacts.contains_spec. exists (PyStr.str a), (PyStr.str b).
  apply PyStrFacts.chars_inj.
  rewrite !PyStrFacts.chars_app, !PyStrFacts.chars_str. reflexivity.
Qed.

(** X5. For an address whose local part (the text before the first '@') is
    [name] and whose rest is [domain]: [mask_email] raises if [name] is
    empty; otherwise it keeps the domain, shows the first character of
    [name], and the last one only if [name] has more than two characters,
    and puts stars everywhere between, one star if [name] has one or two
    characters. *)
Theorem mask_email_shape (name domain : list ascii) :
  "@"%char ∉ name ->
  let email := PyStr.str (name ++ "@"%char :: domain) in
  match name with
  | [] => mask_email email = None
  | first :: rest =>
      mask_email email
      = Some (PyStr.str
                ((first :: repeat "*"%char (Nat.max 1 (length name - 2))
                  ++ (if (length name <=? 2)%nat then []
                      else [List.last rest first]))
                 ++ "@"%char :: domain))
  end.
Proof.
  intros Hnot email. subst email. unfold mask_email.
  rewrite contains_char. rewrite PyStrFacts.chars_str.
  rewrite (split_at_first_found _ _ _ Hnot).
  assert (Ht : PyStr.truthy (PyStr.str (name ++ "@"%char :: domain)) = true).
  { apply StripFacts.truthy_chars. rewrite PyStrFacts.chars_str.
    destruct name; discriminate. }
  rewrite Ht. cbn [negb orb].
  destruct name as [|first rest]; [reflexivity|].
  cbv zeta. destruct (Nat.leb_spec (length (first :: rest)) 2) as [Hle|Hgt].
  - cbn [length] in *. replace (S (length rest) - 2)%nat with 0%nat by lia.
    reflexivity.
  - cbn [length] in *.
    replace (Nat.max 1 (S (length rest) - 2)) with (S (length rest) - 2)%nat by lia.
    destruct rest as [|x rest]; [cbn in Hgt; lia | reflexivity].
Qed.

Lemma mask_email_shape_witness :
  mask_email "jane.doe@example.com" = Some "j******e@example.com".
Proof.
  pose proof (mask_email_shape (PyStr.chars "jane.doe") (PyStr.chars "example.com"))
    as H.
  cbv zeta in H. apply H.
  intros Hin. apply list_elem_of_In in Hin. vm_compute in Hin.
  intuition discriminate.
Defined.

Lemma email_body_local (l : list ascii) :
  email_body l = true ->
  exists loc dom, split_at_first "@" l = Some (loc, dom) /\ loc <> [].
Proof.
  unfold email_body. destruct (split_at_first "@" l) as [[loc dom]|]; [|discriminate].
  intros H. exists loc, dom. split; [reflexivity|].
  destruct loc; [discriminate | discriminate].
Qed.

Lemma split_at_first_app (c : ascii) (l x a b : list ascii) :
  split_at_first c l = Some (a, b) -> split_at_first c (l ++ x) = Some (a, b ++ x).
Proof.
  intros H. apply split_at_first_spec in H as [-> Hnot].
  rewrite <- app_assoc. cbn [app]. apply split_at_first_found, Hnot.
Qed.

(** X6. An address that [EMAIL_RX] accepts, as every address the intake
    commits is, is always masked without an exception: its local part is
    never empty. *)
Theorem accepted_email_is_maskable (email : string) :
  EMAIL_RX_match email = true -> exists masked, mask_email email = Some masked.
Proof.
  intros H.
  assert (Hsplit : exists loc dom,
            split_at_first "@" (PyStr.chars email) = Some (loc, dom) /\ loc <> []).
  { unfold EMAIL_RX_match in H. cbv zeta in H. apply orb_true_iff in H as [H|H].
    - apply email_body_local, H.
    - destruct (rev (PyStr.chars email)) as [|c r] eqn:E; [discriminate|].
      apply andb_true_iff in H as [_ H].
      apply email_body_local in H as (loc & dom & Hs & Hne).
      exists loc, (dom ++ [c]). split; [|exact Hne].
      rewrite <- (rev_involutive (PyStr.chars email)), E. cbn [rev].
      apply split_at_first_app, Hs. }
  destruct Hsplit as (loc & dom & Hs & Hne).
  unfold mask_email. destruct (_ || _); [eauto|].
  rewrite Hs. destruct loc; [congruence | eauto].
Qed.

Lemma accepted_email_is_maskable_witness :
  exists masked, mask_email "jane@x.com" = Some masked.
Proof. apply accepted_email_is_maskable. vm_compute. reflexivity. Defined.

(* ================================================================== *)
(** * Comma-separated lists *)
(* ================================================================== *)

Lemma filter_strip_pieces (l : list string) :
  filter (fun t => PyStr.truthy t = true) (map PyStr.strip l)
  = map PyStr.strip (filter (fun s => PyStr.truthy (PyStr.strip s) = true) l).
Proof.
  induction l as [|s l IH]; [reflexivity|]. cbn [map].
  destruct (PyStr.truthy (PyStr.strip s)) eqn:E.
  - rewrite !filter_cons_True by exact E. cbn [map]. now rewrite IH.
  - rewrite !filter_cons_False by (rewrite E; discriminate). exact IH.
Qed.

Lemma comma_list_entries (val : string) :
  Forall (fun t => t <> "" /\ Wf.trimmed t) (comma_list val).
Proof.
  unfold comma_list. apply Forall_forall. intros t Ht.
  rewrite <- ?list_elem_of_In in Ht.
  apply list_elem_of_fmap in Ht as (s & -> & Hs).
  apply list_elem_of_filter in Hs as [Hs _].
  split; [|apply StripFacts.strip_idem].
  intros E. rewrite E in Hs. discriminate.
Qed.

Lemma clean_entries_fixed (l : list string) :
  Forall (fun t => t <> "" /\ Wf.trimmed t) l ->
  filter (fun t => PyStr.truthy t = true) (map PyStr.strip l) = l.
Proof.
  induction 1 as [|t l [Hne Htr] _ IH]; [reflexivity|]. cbn [map].
  rewrite Htr. rewrite filter_cons_True by (destruct t; [congruence | reflexivity]).
  now rewrite IH.
Qed.

(** X7. The list that the intake commits for the positions and for the
    tech stack is what the schema's normalizers make of the typed text,
    and they leave it as it is: it has no empty entry and no entry with
    white space around it. *)
Theorem committed_list_is_normal (val : string) :
  norm_stack (RStr val) = comma_list val
  /\ norm_positions (RStr val) = comma_list val
  /\ norm_stack (RList (comma_list val)) = comma_list val
  /\ norm_positions (RList (comma_list val)) = comma_list val
  /\ Forall (fun t => t <> "" /\ PyStr.strip t = t) (comma_list val).
Proof.
  assert (H1 : norm_stack (RStr val) = comma_list val).
  { unfold norm_stack, comma_list. rewrite map_map.
    rewrite (map_ext _ PyStr.strip) by (intros s; apply StripFacts.strip_idem).
    apply filter_strip_pieces. }
  pose proof (comma_list_entries val) as H.
  repeat split; try exact H1; try exact (clean_entries_fixed _ H); exact H.
Qed.

(* ================================================================== *)
(** * What the scorer makes of the service's answers *)
(* ================================================================== *)

Lemma validate_str_items_strings (l : list string) :
  validate_str_items (map JStr l) = Some l.
Proof.
  induction l as [|s l IH]; [reflexivity|]. cbn [map validate_str_items].
  rewrite IH. reflexivity.
Qed.

Lemma dict_get_found (kv : list (string * json)) (key : string) (dflt v : json) :
  assoc_last key kv = Some v -> dict_get kv key dflt = v.
Proof. unfold dict_get. now intros ->. Qed.

(** X8. When the reply decodes to an object with an integer score, a string
    reasoning and two lists of strings, [score_answer] returns exactly these,
    with the score clamped: 0 for a negative one, 10 for one above 10. *)
Theorem score_answer_clamps_reported_score
    (json_loads : string -> option json)
    (question answer topic difficulty : string) (experience_years : pyfloat)
    (service : nat -> reply) (raw : string) (kv : list (string * json))
    (n : Z) (r : string) (st im : list string) :
  service 0%nat = Content raw ->
  json_loads raw = Some (JDict kv) ->
  assoc_last "score" kv = Some (JInt n) ->
  assoc_last "reasoning" kv = Some (JStr r) ->
  assoc_last "strengths" kv = Some (JList (map JStr st)) ->
  assoc_last "improvements" kv = Some (JList (map JStr im)) ->
  score_answer json_loads question answer topic difficulty experience_years service
  = Some {| score := Z.max 0 (Z.min 10 n); reasoning := r;
            strengths := st; improvements := im |}.
Proof.
  intros Hs Hj Hn Hr Hst Him.
  unfold score_answer. cbn [retry]. unfold score_answer_call, score_answer_try.
  rewrite Hs. unfold _extract_json. rewrite Hj.
  rewrite (dict_get_found _ _ _ _ Hn), (dict_get_found _ _ _ _ Hr),
    (dict_get_found _ _ _ _ Hst), (dict_get_found _ _ _ _ Him).
  unfold py_min_int, py_max_int, AnswerScore_new, AnswerScore_checked.
  cbn [py_lt_int mbind option_bind].
  destruct (Z.ltb_spec n 10);
    cbn [py_gt_int mbind option_bind validate_int validate_str validate_str_list].
  - destruct (Z.gtb_spec n 0);
      cbn [validate_int mbind option_bind]; rewrite !validate_str_items_strings;
      cbn [mbind option_bind].
    + replace (Z.max 0 (Z.min 10 n)) with n by lia.
      destruct (Z.leb_spec 0 n), (Z.leb_spec n 10); try lia. reflexivity.
    + replace (Z.max 0 (Z.min 10 n)) with 0 by lia. reflexivity.
  - rewrite !validate_str_items_strings. cbn [mbind option_bind].
    replace (Z.max 0 (Z.min 10 n)) with 10 by lia. reflexivity.
Qed.

Lemma score_answer_clamps_reported_score_witness :
  score_answer Fragment.json_loads "q" "a" "t" "hard" (FFin 3)
    (fun _ => Content (Fragment.quoted
       "{'score': 42, 'reasoning': 'fine', 'strengths': ['a'], 'improvements': []}"))
  = Some {| score := 10; reasoning := "fine"; strengths := ["a"];
            improvements := [] |}.
Proof.
  apply (score_answer_clamps_reported_score Fragment.json_loads "q" "a" "t" "hard"
           (FFin 3) _
           (Fragment.quoted
              "{'score': 42, 'reasoning': 'fine', 'strengths': ['a'], 'improvements': []}")
           [("score", JInt 42); ("reasoning", JStr "fine");
            ("strengths", JList [JStr "a"]); ("improvements", JList [])]
           42 "fine" ["a"] []);
    vm_compute; reflexivity.
Defined.

(** X9. When the reply does not decode, and its part from the first '{' to
    the last '}', where it has one, does not decode either, [score_answer]
    returns the neutral default, score 5, and not the rule-based score. A
    reply without braces, or with its last '}' before its first '{', has no
    such part. *)
Theorem score_answer_neutral_on_undecodable
    (json_loads : string -> option json)
    (question answer topic difficulty : string) (experience_years : pyfloat)
    (service : nat -> reply) (raw : string) :
  service 0%nat = Content raw ->
  json_loads raw = None ->
  (PyStr.find "{" raw <> -1 -> PyStr.rfind "}" raw <> -1 ->
   PyStr.find "{" raw < PyStr.rfind "}" raw ->
   json_loads (PyStr.slice raw (PyStr.find "{" raw) (PyStr.rfind "}" raw + 1)) = None) ->
  score_answer json_loads question answer topic difficulty experience_years service
  = Some {| score := 5; reasoning := "Unable to parse detailed scoring.";
            strengths := ["Answer provided"];
            improvements := ["Could provide more detail"] |}.
Proof.
  intros Hs H1 H2.
  unfold score_answer. cbn [retry]. unfold score_answer_call, score_answer_try.
  rewrite Hs. unfold _extract_json. rewrite H1. cbv zeta.
  destruct (Z.eqb_spec (PyStr.find "{" raw) (-1)) as [E1 | E1]; cbn [negb andb];
    [reflexivity|].
  destruct (Z.eqb_spec (PyStr.rfind "}" raw) (-1)) as [E2 | E2]; cbn [negb andb];
    [reflexivity|].
  rewrite Z.gtb_ltb.
  destruct (Z.ltb_spec (PyStr.find "{" raw) (PyStr.rfind "}" raw)) as [E3 | E3];
    [|reflexivity].
  rewrite (H2 E1 E2 E3). reflexivity.
Qed.

Lemma score_answer_neutral_on_undecodable_witness :
  score (default (mkAnswerScore 0 "" [] [])
           (score_answer Fragment.json_loads "q" "a long and careful answer" "t"
              "easy" (FFin 3) (fun _ => Content "8/10 - good answer"))) = 5.
Proof.
  rewrite (score_answer_neutral_on_undecodable Fragment.json_loads _ _ _ _ _
             (fun _ => Content "8/10 - good answer") "8/10 - good answer").
  - reflexivity.
  - reflexivity.
  - vm_compute. reflexivity.
  - intros H. exfalso. apply H. vm_compute. reflexivity.
Defined.

(** X10. When the service call raises, or the reply decodes to something
    that is no object (a list, a number, a string, null), [score_answer]
    returns what the rule-based scorer returns for the answer. *)
Theorem score_answer_rule_based_on_failure
    (json_loads : string -> option json)
    (question answer topic difficulty : string) (experience_years : pyfloat)
    (service : nat -> reply) :
  (service 0%nat = Raises
   \/ exists raw v, service 0%nat = Content raw /\ json_loads raw = Some v
                    /\ forall kv, v <> JDict kv) ->
  score_answer json_loads question answer topic difficulty experience_years service
  = simple_score_answer answer topic difficulty.
Proof.
  intros H. unfold score_answer. cbn [retry].
  unfold score_answer_call, score_answer_try.
  destruct (simple_score_answer_returns answer topic difficulty) as (a & Ha & _).
  destruct H as [-> | (raw & v & -> & Hj & Hv)].
  - rewrite Ha. reflexivity.
  - unfold _extract_json. rewrite Hj.
    destruct v; try (rewrite Ha; reflexivity). exfalso. eapply Hv. reflexivity.
Qed.

Lemma score_answer_rule_based_on_failure_witness :
  score_answer Fragment.json_loads "q" "short" "t" "hard" (FFin 3) Sample.service_down
  = simple_score_answer "short" "t" "hard".
Proof.
  apply score_answer_rule_based_on_failure. left. reflexivity.
Defined.

(* ================================================================== *)
(** * JSON wrapped in prose *)
(* ================================================================== *)

Lemma find_from_first (c : ascii) (pre rest : list ascii) (i : Z) :
  c ∉ pre -> PyStr.find_from c (pre ++ c :: rest) i = i + Z.of_nat (length pre).
Proof.
  revert i. induction pre as [|x pre IH]; intros i Hnot; cbn [app PyStr.find_from].
  - rewrite Ascii.eqb_refl. cbn. lia.
  - apply not_elem_of_cons in Hnot as [Hne Hnot].
    destruct (Ascii.eqb_spec x c) as [->|_]; [congruence|].
    rewrite (IH _ Hnot). cbn [length]. lia.
Qed.

Lemma rfind_from_absent (c : ascii) (l : list ascii) (i last : Z) :
  c ∉ l -> PyStr.rfind_from c l i last = last.
Proof.
  revert i. induction l as [|x l IH]; intros i Hnot; cbn [PyStr.rfind_from];
    [reflexivity|].
  apply not_elem_of_cons in Hnot as [Hne Hnot].
  destruct (Ascii.eqb_spec x c) as [->|_]; [congruence|]. apply IH, Hnot.
Qed.

Lemma rfind_from_last (c : ascii) (a post : list ascii) (i last : Z) :
  c ∉ post -> PyStr.rfind_from c (a ++ c :: post) i last = i + Z.of_nat (length a).
Proof.
  revert i last. induction a as [|x a IH]; intros i last Hnot;
    cbn [app PyStr.rfind_from].
  - rewrite Ascii.eqb_refl, (rfind_from_absent _ _ _ _ Hnot). cbn. lia.
  - rewrite (IH _ _ Hnot). cbn [length]. lia.
Qed.

(** The text from the first '{' to the last '}' of a text that wraps an
    object in prose is the object. *)
Lemma slice_of_wrapped (pre body post : list ascii) :
  "{"%char ∉ pre -> "}"%char ∉ post ->
  let text := PyStr.str (pre ++ ("{"%char :: body ++ ["}"%char]) ++ post) in
  let start := PyStr.find "{" text in
  let end_ := PyStr.rfind "}" text in
  (negb (start =? -1) && negb (end_ =? -1) && (end_ >? start)) = true
  /\ PyStr.slice text start (end_ + 1) = PyStr.str ("{"%char :: body ++ ["}"%char]).
Proof.
  intros Hpre Hpost text start end_.
  assert (Hstart : start = Z.of_nat (length pre)).
  { subst start text. unfold PyStr.find. rewrite PyStrFacts.chars_str.
    cbn [app]. rewrite find_from_first by exact Hpre. lia. }
  assert (Hend : end_ = Z.of_nat (length pre + S (length body))).
  { subst end_ text. unfold PyStr.rfind. rewrite PyStrFacts.chars_str.
    replace (pre ++ ("{"%char :: body ++ ["}"%char]) ++ post)
      with ((pre ++ "{"%char :: body) ++ "}"%char :: post).
    2:{ cbn [app]. repeat (rewrite <- app_assoc; cbn [app]). reflexivity. }
    rewrite rfind_from_last by exact Hpost. rewrite length_app. cbn [length]. lia. }
  split.
  - rewrite Hstart, Hend. rewrite !andb_true_iff, !negb_true_iff, !Z.eqb_neq.
    repeat split; try lia. apply Z.gtb_lt. lia.
  - unfold PyStr.slice. subst text. rewrite PyStrFacts.chars_str, Hstart, Hend.
    f_equal. rewrite Nat2Z.id.
    replace (Z.to_nat (Z.of_nat (length pre + S (length body)) + 1 - Z.of_nat (length pre)))
      with (length ("{"%char :: body ++ ["}"%char])).
    2:{ cbn [length]. rewrite length_app. cbn [length]. lia. }
    rewrite drop_app_length. apply take_app_length.
Qed.

(** X11. A reply that does not decode as a whole but wraps one object in
    prose (no '{' before it, no '}' after it) is read as that object, by the
    scorer's [_extract_json] and by the generator's [_best_effort_json]
    alike. *)
Theorem object_wrapped_in_prose_is_extracted
    (json_loads : string -> option json)
    (pre body post : list ascii) (v : json) :
  "{"%char ∉ pre -> "}"%char ∉ post ->
  let obj := PyStr.str ("{"%char :: body ++ ["}"%char]) in
  let text := PyStr.str (pre ++ PyStr.chars obj ++ post) in
  json_loads text = None ->
  json_loads obj = Some v ->
  _extract_json json_loads text = v /\ _best_effort_json json_loads text = v.
Proof.
  intros Hpre Hpost obj text Ht Ho. subst obj text.
  rewrite PyStrFacts.chars_str in *.
  destruct (slice_of_wrapped pre body post Hpre Hpost) as [Hcond Hslice].
  cbv zeta in Hcond, Hslice.
  unfold _extract_json, _best_effort_json. rewrite Ht. cbv zeta.
  rewrite Hcond, Hslice, Ho. split; reflexivity.
Qed.

Lemma object_wrapped_in_prose_is_extracted_witness :
  _extract_json Fragment.json_loads
    (Fragment.quoted "Here you go: {'score': 7} Hope it helps!")
  = JDict [("score", JInt 7)].
Proof.
  apply (object_wrapped_in_prose_is_extracted Fragment.json_loads
           (PyStr.chars "Here you go: ")
           (PyStr.chars (Fragment.quoted "'score': 7"))
           (PyStr.chars " Hope it helps!") (JDict [("score", JInt 7)])).
  - intros H. apply list_elem_of_In in H. vm_compute in H. intuition discriminate.
  - intros H. apply list_elem_of_In in H. vm_compute in H. intuition discriminate.
  - vm_compute. reflexivity.
  - vm_compute. reflexivity.
Defined.

(* ================================================================== *)
(** * The generator without a usable reply *)
(* ================================================================== *)

Lemma py_prefix_idem {A : Type} (k : Z) (l : list A) :
  0 <= k -> py_prefix k (py_prefix k l) = py_prefix k l.
Proof.
  intros Hk. unfold py_prefix. destruct (Z.ltb_spec k 0); [lia|].
  rewrite take_take. f_equal. lia.
Qed.

Lemma py_prefix_map {A B : Type} (f : A -> B) (k : Z) (l : list A) :
  py_prefix k (map f l) = map f (py_prefix k l).
Proof.
  unfold py_prefix. rewrite length_map. destruct (k <? 0); symmetry; apply fmap_take.
Qed.

(** X12. When the first reply yields nothing that decodes, the generator
    returns one question per technology of the trimmed stack without blank
    entries, or one on "general software engineering" if that is empty, cut
    at [k]: their number is [min(k, max(1, n))] for [n] technologies, not
    [k], and each asks to explain the core principles of its topic. *)
Theorem undecodable_reply_gives_one_question_per_technology
    (json_loads : string -> option json) (stack : list string) (k : Z)
    (service : nat -> reply) (raw : string) :
  0 <= k ->
  service 0%nat = Content raw ->
  _best_effort_json json_loads raw = JNull ->
  exists qa : QASet,
    generate_stack_questions json_loads stack k service = Some qa
    /\ map topic qa
       = py_prefix k (or_default (normalize_stack stack) ["general software engineering"])
    /\ Forall (fun q => question q
                        = "Briefly explain core principles of " +:+ topic q +:+ "."
                        /\ difficulty q = "medium" /\ question_id q = None) qa
    /\ Z.of_nat (length qa)
       = Z.min k (Z.max 1 (Z.of_nat (length (normalize_stack stack)))).
Proof.
  intros Hk Hs Hj. unfold generate_stack_questions. cbn [retry].
  unfold generate_call. rewrite Hs. cbv zeta. rewrite Hj.
  cbn [mbind option_bind]. unfold _fallback_items.
  set (base := or_default (normalize_stack stack) ["general software engineering"]).
  eexists. split; [reflexivity|].
  rewrite py_prefix_map, py_prefix_idem by exact Hk. split; [|split].
  - rewrite map_map. cbn [topic]. apply map_id.
  - apply Forall_forall. intros q Hq. rewrite <- ?list_elem_of_In in Hq.
    apply list_elem_of_fmap in Hq as (t & -> & _). repeat split.
  - rewrite length_map, py_prefix_length by exact Hk. subst base.
    destruct (normalize_stack stack); cbn [or_default length]; lia.
Qed.

Lemma undecodable_reply_gives_one_question_per_technology_witness :
  exists qa : QASet,
    generate_stack_questions Fragment.json_loads [" python "; ""; "sql"] 5
      Sample.service_prose = Some qa
    /\ map topic qa = ["python"; "sql"].
Proof.
  destruct (undecodable_reply_gives_one_question_per_technology
              Fragment.json_loads [" python "; ""; "sql"] 5 Sample.service_prose
              "Sorry, I cannot help with that.")
    as (qa & H1 & H2 & _); [lia | reflexivity | vm_compute; reflexivity |].
  exists qa. split; [exact H1 | exact H2].
Defined.

(* ================================================================== *)
(** * The fallback's question table *)
(* ================================================================== *)

Lemma pick_question_unused (t : string) (used : list string)
    (m : list (string * string)) (q : string) :
  pick_question t used m = Some q -> q ∉ used.
Proof.
  induction m as [|[key q'] m IH]; cbn [pick_question]; [discriminate|].
  destruct (_ || _); [|exact IH].
  case_bool_decide as Hin; cbn [negb]; [exact IH | intros [= <-]; exact Hin].
Qed.

Lemma table_question_head (q : string) :
  q ∈ map snd questions_map -> exists c r, q = String c r /\ c <> "D"%char.
Proof.
  intros H. pose proof (Forall_forall (fun q => exists c r, q = String c r /\ c <> "D"%char)
                          (map snd questions_map)) as [Hall _].
  rewrite <- ?list_elem_of_In in Hall. apply Hall; [|rewrite <- ?list_elem_of_In; exact H].
  repeat constructor; eexists _, _; (split; [reflexivity | discriminate]).
Qed.

Lemma generic_question_not_in_table (tech : string) :
  "Describe a challenging project you worked on using " +:+ tech
  +:+ " and how you solved key problems." ∉ map snd questions_map.
Proof.
  intros H. apply table_question_head in H as (c & r & H & Hc).
  apply (f_equal PyStr.chars) in H. rewrite PyStrFacts.chars_app in H.
  cbn in H. injection H as H _. congruence.
Qed.

Lemma fallback_loop_table_questions (techs used : list string)
    (draws : nat -> N) (i : nat) :
  let asked := filter (fun q => q ∈ map snd questions_map)
                      (map question (fallback_loop techs used draws i)) in
  NoDup asked /\ forall q, q ∈ asked -> q ∉ used.
Proof.
  revert used i. induction techs as [|t techs IH]; intros used i;
    cbn [fallback_loop map].
  - cbn. split; [constructor | intros q H; inversion H].
  - cbn [question].
    destruct (pick_question _ used questions_map) as [q|] eqn:E.
    + pose proof (pick_question_from_map _ _ _ _ E) as Hin.
      pose proof (pick_question_unused _ _ _ _ E) as Hun.
      rewrite filter_cons_True by exact Hin.
      destruct (IH (q :: used) (S i)) as [Hnd Hfresh]. cbv zeta in Hnd, Hfresh.
      split.
      * apply NoDup_cons. split; [|exact Hnd].
        intros H. apply (Hfresh q H). left.
      * intros q' Hq'. apply elem_of_cons in Hq' as [-> | Hq']; [exact Hun|].
        intros H. apply (Hfresh q' Hq'). right. exact H.
    + rewrite filter_cons_False by apply generic_question_not_in_table.
      apply IH.
Qed.

(** X13. The fallback of [generate_questions_sync] never asks a question of
    its table twice, even when technologies repeat or overlap (such as
    "sql" and "mysql"): the table questions among those it returns are
    pairwise distinct. *)
Theorem fallback_asks_each_table_question_once
    (stack : list string) (k : Z) (draws : nat -> N) :
  NoDup (filter (fun q => q ∈ map snd questions_map)
                (map question (fst (enhanced_fallback stack k draws)))).
Proof.
  unfold enhanced_fallback. cbv zeta. cbn [fst].
  set (techs := py_prefix k (or_default stack ["general software engineering"])).
  set (head := fallback_loop techs [] draws 0).
  assert (Hpad : forall n j, filter (fun q => q ∈ map snd questions_map)
                               (map question (pad_items n draws j)) = []).
  { induction n as [|n IHn]; intros j; [reflexivity|]. cbn [pad_items map question].
    rewrite filter_cons_False; [apply IHn|].
    intros H. apply list_elem_of_In in H. vm_compute in H. intuition discriminate. }
  assert (Hall : NoDup (filter (fun q => q ∈ map snd questions_map)
                          (map question (head ++ pad_items
                             (Z.to_nat (k - Z.of_nat (length head))) draws (length head))))).
  { rewrite map_app, filter_app, Hpad, app_nil_r.
    apply (fallback_loop_table_questions techs [] draws 0). }
  revert Hall. generalize (head ++ pad_items (Z.to_nat (k - Z.of_nat (length head)))
                             draws (length head)).
  intros l Hl. unfold py_prefix.
  assert (Htake : forall n, NoDup (filter (fun q => q ∈ map snd questions_map)
                                     (map question (take n l)))).
  { intros n. rewrite <- (take_drop n l) in Hl.
    rewrite map_app, filter_app in Hl. apply NoDup_app in Hl. tauto. }
  destruct (k <? 0); apply Htake.
Qed.

(* ================================================================== *)
(** * The shape of a session *)
(* ================================================================== *)

Lemma score_answer_returns (json_loads : string -> option json)
    (question answer topic difficulty : string) (experience_years : pyfloat)
    (service : nat -> reply) :
  exists sc : AnswerScore,
    score_answer json_loads question answer topic difficulty experience_years service
    = Some sc /\ 0 <= score sc <= 10.
Proof.
  unfold score_answer. cbn [retry]. unfold score_answer_call.
  destruct (score_answer_try json_loads (service 0%nat)) as [a|] eqn:E.
  - exists a. split; [reflexivity|].
    unfold score_answer_try in E.
    destruct (service 0%nat); [discriminate|].
    destruct (_extract_json json_loads raw); try discriminate.
    destruct (py_min_int _ _); [|discriminate]. cbn [mbind option_bind] in E.
    destruct (py_max_int _ _); [|discriminate]. cbn [mbind option_bind] in E.
    eauto using AnswerScore_new_range.
  - destruct (simple_score_answer_returns answer topic difficulty) as [a [Ha Hr]].
    exists a. rewrite Ha. split; [reflexivity | exact Hr].
Qed.

Lemma py_index_in_range {A : Type} (l : list A) (i : Z) :
  0 <= i < Z.of_nat (length l) -> exists x, py_index l i = Some x.
Proof.
  intros H. unfold py_index. destruct (Z.ltb_spec i 0); [lia|].
  apply lookup_lt_is_Some. lia.
Qed.

(** An answer of ten characters or more to the current question is
    recorded and scored. *)
Lemma handle_technical_answer_accepts json_loads (text : string)
    (service : nat -> reply) (s : Session) :
  PyStr.truthy text = true ->
  10 <= PyStr.len (PyStr.strip text) ->
  0 <= current_question_index (state s) < Z.of_nat (length (generated_questions s)) ->
  exists q sc,
    py_index (generated_questions s) (current_question_index (state s)) = Some q
    /\ 0 <= score sc <= 10
    /\ handle_technical_answer json_loads text service s
       = Returned true (answered text q sc s).
Proof.
  intros Ht Hlen Hidx. unfold handle_technical_answer, answered.
  rewrite Ht. cbn [negb orb].
  destruct (Z.ltb_spec (PyStr.len (PyStr.strip text)) 10); [lia|].
  cbv zeta.
  destruct (Z.ltb_spec (current_question_index (state s))
              (Z.of_nat (length (generated_questions s)))); [|lia].
  destruct (py_index_in_range _ _ Hidx) as [q Hq]. rewrite Hq.
  destruct (score_answer_returns json_loads (q_question q) (PyStr.strip text)
              (q_topic q) (q_difficulty q)
              (match years_experience (candidate s) with
               | Some y => y
               | None => FFin 0
               end) service) as (sc & Hsc & Hrange).
  rewrite Hsc. exists q, sc. split; [reflexivity|]. split; [exact Hrange|].
  destruct (Z.ltb_spec (current_question_index (state s) + 1)
              (Z.of_nat (length (generated_questions s)))); [|reflexivity].
  destruct (py_index_in_range (generated_questions s)
              (current_question_index (state s) + 1)) as [q' Hq']; [lia|].
  rewrite Hq'. reflexivity.
Qed.

Lemma handle_technical_answer_rejects json_loads (text : string)
    (service : nat -> reply) (s : Session) :
  PyStr.len (PyStr.strip text) < 10 ->
  handle_technical_answer json_loads text service s = Returned false s.
Proof.
  intros H. unfold handle_technical_answer.
  destruct (Z.ltb_spec (PyStr.len (PyStr.strip text)) 10); [|lia].
  rewrite orb_true_r. reflexivity.
Qed.

Lemma next_step_in_phase (c : Candidate) (st : ConversationState) (n : Step) :
  next_step c st = Some n -> n = Spec.step_by_rules c /\ Wf.intake_phase n.
Proof.
  rewrite next_step_by_rules. intros [= <-]. split; [reflexivity|].
  unfold Spec.step_by_rules, Wf.intake_phase, INTAKE_STEPS.
  destruct (consent_given c); [|left; apply list_elem_of_In; cbn; tauto].
  unfold Spec.required_fields. cbn [List.find fst].
  repeat match goal with
         | |- context [if ?b then _ else _] => destruct b
         end;
    try (left; apply list_elem_of_In; cbn; tauto); right; reflexivity.
Qed.

Lemma intake_phase_steps (st : Step) :
  Wf.intake_phase st ->
  st <> GREETING /\ st <> TECHNICAL_QA /\ st <> FOLLOWUP /\ st <> END.
Proof.
  intros [H | ->]; [|repeat split; discriminate].
  apply list_elem_of_In in H. cbn in H.
  repeat split; intros ->; intuition discriminate.
Qed.

Lemma apply_answer_keeps_overall (py_float : string -> option pyfloat)
    (st : Step) (text : string) (c : Candidate) :
  overall_score (snd (apply_answer_to_step py_float st text c)) = overall_score c.
Proof.
  unfold apply_answer_to_step. cbv zeta.
  destruct st; try reflexivity;
    repeat match goal with
           | |- context [if ?b then _ else _] => destruct b
           | |- context [match ?o with Some _ => _ | None => _ end] => destruct o
           end; reflexivity.
Qed.

Lemma years_in_range_bounds (y : pyfloat) :
  years_in_range y = true -> exists q : Q, y = FFin q /\ (0 <= q)%Q /\ (q <= 50)%Q.
Proof.
  destruct y as [q| |]; try discriminate. cbn [years_in_range].
  intros H. apply andb_true_iff in H as [H1 H2].
  exists q. split; [reflexivity|]. split; now apply Qle_bool_iff.
Qed.

Lemma long_enough_length (val : string) :
  long_enough val = true -> 2 <= PyStr.len (PyStr.strip val).
Proof.
  unfold long_enough. intros H. apply andb_true_iff in H as [_ H].
  rewrite Z.geb_leb in H. now apply Z.leb_le.
Qed.

(** The intake rules set a field only to a value that passes them. *)
Lemma apply_answer_fields_valid (py_float : string -> option pyfloat)
    (st : Step) (text : string) (c : Candidate) :
  Wf.fields_valid c ->
  Wf.fields_valid (snd (apply_answer_to_step py_float st text c)).
Proof.
  intros Hc. pose proof Hc as (Hn & He & Hp & Hy & Hl & Hd & Ht).
  unfold apply_answer_to_step. cbv zeta.
  destruct st; try exact Hc.
  - destruct (existsb _ _); exact Hc.
  - destruct (long_enough _) eqn:E; [|exact Hc].
    refine (conj _ (conj He (conj Hp (conj Hy (conj Hl (conj Hd Ht)))))).
    intros n [= <-].
    split; [apply long_enough_length, E | apply StripFacts.strip_idem].
  - destruct (EMAIL_RX_match _) eqn:E; [|exact Hc].
    refine (conj Hn (conj _ (conj Hp (conj Hy (conj Hl (conj Hd Ht)))))).
    intros e [= <-]. exact E.
  - destruct (phone_accepted _) eqn:E; [|exact Hc].
    refine (conj Hn (conj He (conj _ (conj Hy (conj Hl (conj Hd Ht)))))).
    intros p [= <-]. split.
    + unfold phone_accepted in E. apply andb_true_iff in E as [E _].
      rewrite Z.geb_leb in E. now apply Z.leb_le.
    + apply clean_phone_kept.
  - destruct (py_float _) as [y|]; [|exact Hc].
    destruct (years_in_range y) eqn:E; [|exact Hc].
    refine (conj Hn (conj He (conj Hp (conj _ (conj Hl (conj Hd Ht)))))).
    intros y' [= <-]. apply years_in_range_bounds, E.
  - destruct (long_enough _); [|exact Hc].
    refine (conj Hn (conj He (conj Hp (conj Hy (conj Hl (conj _ Ht)))))).
    apply comma_list_entries.
  - destruct (long_enough _) eqn:E; [|exact Hc].
    refine (conj Hn (conj He (conj Hp (conj Hy (conj _ (conj Hd Ht)))))).
    intros n [= <-].
    split; [apply long_enough_length, E | apply StripFacts.strip_idem].
  - destruct (long_enough _); [|exact Hc].
    refine (conj Hn (conj He (conj Hp (conj Hy (conj Hl (conj Hd _)))))).
    apply comma_list_entries.
Qed.

(** The generator is asked for five questions and returns between one and
    five, whatever the service does. *)
Lemma generate_questions_sync_length json_loads (stack : list string)
    (service : nat -> reply) (draws : nat -> N) :
  (1 <= length (fst (generate_questions_sync json_loads stack 5 service draws)) <= 5)%nat.
Proof.
  unfold generate_questions_sync.
  destruct (generate_stack_questions json_loads stack 5 service) as [qa|] eqn:E;
    cbn [fst].
  - unfold generate_stack_questions in E. apply retry_some in E as [j E].
    apply generate_call_props in E as (Hlen & _ & Hne); [|lia].
    assert (Hqa : qa <> []) by (apply Hne; lia).
    destruct qa; [congruence|]. cbn [length] in *. lia.
  - pose proof (enhanced_fallback_props stack 5 draws) as H. cbv zeta in H.
    destruct H as (Hlen & _); lia.
Qed.


Lemma exit_wf (s : Session) :
  Wf.session_wf s ->
  Wf.session_wf (with_state (set_step END (set_exit_detected true (state s))) s).
Proof.
  intros [H1 H2 H3 H4 H5 H6 H7 H8 H9 H10 H11 H12].
  constructor; session_fields; try assumption; try discriminate.
  - intros Hp. apply intake_phase_steps in Hp. tauto.
  - intros v Hv. destruct (H11 v Hv) as [Hc _]. split; [exact Hc | right; reflexivity].
  - split; reflexivity.
Qed.

Lemma intake_steps_phase (st : Step) : st ∈ INTAKE_STEPS -> Wf.intake_phase st.
Proof. intros H. left. exact H. Qed.

Lemma intake_turn_wf (py_float : string -> option pyfloat) (prompt : string)
    (s : Session) (c : Candidate) (n : Step) :
  Wf.session_wf s ->
  step (state s) ∈ INTAKE_STEPS ->
  c = snd (apply_answer_to_step py_float (step (state s)) prompt (candidate s)) ->
  next_step c (state s) = Some n ->
  Wf.session_wf (with_state (set_step n (state s)) (with_candidate c s)).
Proof.
  intros [H1 H2 H3 H4 H5 H6 H7 H8 H9 H10 H11 H12] Hin Hc Hn.
  apply next_step_in_phase in Hn as [Hn Hphase].
  pose proof (intake_phase_steps _ Hphase) as (N1 & N2 & N3 & N4).
  pose proof (intake_phase_steps _ (intake_steps_phase _ Hin)) as (O1 & O2 & O3 & O4).
  destruct (H2 (intake_steps_phase _ Hin)) as [_ Hqg].
  pose proof (apply_answer_keeps_assessment py_float (step (state s)) prompt
                (candidate s)) as Hk. cbv zeta in Hk. rewrite <- Hc in Hk.
  destruct Hk as (Hq' & Ha' & Hs').
  pose proof (apply_answer_keeps_overall py_float (step (state s)) prompt
                (candidate s)) as Ho. rewrite <- Hc in Ho.
  constructor; session_fields; try assumption; try contradiction.
  - intros _. split; assumption.
  - subst c. apply apply_answer_fields_valid, H3.
  - intros E. congruence.
  - rewrite Ha', Hs'. exact H9.
  - rewrite Hs'. exact H10.
  - intros v Hv. rewrite Ho in Hv. destruct (H11 v Hv) as [_ [E | E]]; contradiction.
  - split; [|contradiction]. intros E. apply H12 in E. contradiction.
Qed.

Lemma answered_wf (text : string) (q : QuestionRecord) (sc : AnswerScore)
    (s : Session) :
  Wf.session_wf s ->
  step (state s) = TECHNICAL_QA ->
  0 <= score sc <= 10 ->
  Wf.session_wf (answered text q sc s).
Proof.
  intros [H1 H2 H3 H4 H5 H6 H7 H8 H9 H10 H11 H12] Hstep Hsc.
  destruct (H6 Hstep) as [Hqg Hidx]. destruct (H5 Hqg) as [Hrules Hlen].
  assert (Hnone : overall_score (candidate s) = None).
  { destruct (overall_score (candidate s)) as [v|] eqn:E; [|reflexivity].
    destruct (H11 v eq_refl) as [_ [E' | E']]; congruence. }
  assert (Hexit : exit_detected (state s) = true -> False).
  { intros E. apply H12 in E. congruence. }
  unfold answered. cbv zeta.
  destruct (Z.ltb_spec (current_question_index (state s) + 1)
              (Z.of_nat (length (generated_questions s)))) as [Hlt | Hge].
  - constructor; session_fields; try assumption; try congruence.
    + intros _. split; assumption.
    + lia.
    + rewrite !dom_insert_L, H9. reflexivity.
    + apply map_Forall_insert_2; assumption.
  - constructor; session_fields; try assumption; try discriminate; try congruence.
    + intros Hp. apply intake_phase_steps in Hp. tauto.
    + intros _. split; [exact Hqg | eexists; reflexivity].
    + lia.
    + rewrite !dom_insert_L, H9. reflexivity.
    + apply map_Forall_insert_2; assumption.
    + intros v [= <-]. split; [reflexivity | left; reflexivity].
    + split; [intros E; destruct (Hexit E) | discriminate].
Qed.

Lemma followup_wf (text : option string) (s : Session) :
  Wf.session_wf s ->
  Wf.session_wf (with_candidate (set_additional_comments text (candidate s)) s).
Proof.
  intros [H1 H2 H3 H4 H5 H6 H7 H8 H9 H10 H11 H12].
  constructor; session_fields; assumption.
Qed.

Lemma blank_is_short (text : string) :
  PyStr.truthy text = false -> PyStr.len (PyStr.strip text) < 10.
Proof.
  intros H. apply PyStrFacts.truthy_false in H. subst text. vm_compute. reflexivity.
Qed.

(** A turn keeps the shape of the session. *)
Lemma user_turn_wf json_loads py_float (prompt : string) (service : nat -> reply)
    (s : Session) :
  Wf.session_wf s -> Wf.session_wf (user_turn json_loads py_float prompt service s).
Proof.
  intros Hwf. unfold user_turn. destruct (detect_exit prompt); [apply exit_wf, Hwf|].
  cbv zeta. case_bool_decide as Hintake.
  - pose proof (apply_answer_rejected py_float (step (state s)) prompt (candidate s))
      as Hrej.
    pose proof (intake_turn_wf py_float prompt s) as Hacc.
    destruct (apply_answer_to_step py_float (step (state s)) prompt (candidate s))
      as [accepted c]. cbn [fst snd] in *.
    destruct accepted.
    + destruct (next_step c (state (with_candidate c s))) as [n|] eqn:Hn.
      * apply (Hacc c n Hwf Hintake eq_refl Hn).
      * rewrite next_step_by_rules in Hn. discriminate.
    + rewrite Hrej by reflexivity. rewrite with_candidate_same. exact Hwf.
  - case_bool_decide as Htech.
    + destruct (Z.lt_ge_cases (PyStr.len (PyStr.strip prompt)) 10) as [Hshort | Hlong].
      * rewrite handle_technical_answer_rejects by exact Hshort. exact Hwf.
      * assert (Ht : PyStr.truthy prompt = true).
        { destruct (PyStr.truthy prompt) eqn:E; [reflexivity|].
          apply blank_is_short in E. lia. }
        destruct (Wf.wf_technical s Hwf Htech) as [_ Hidx].
        pose proof (Wf.wf_index s Hwf) as Hpos.
        destruct (handle_technical_answer_accepts json_loads prompt service s Ht Hlong)
          as (q & sc & _ & Hsc & ->); [lia|].
        apply answered_wf; assumption.
    + case_bool_decide as Hfollow; [apply followup_wf, Hwf | exact Hwf].
Qed.

(** The generation block keeps the shape of the session, and leaves with
    the step off [GENERATE_QA]. *)
Lemma generation_block_wf json_loads (env : Env) (s : Session) :
  Wf.session_wf s ->
  Wf.session_wf (generation_block json_loads env s)
  /\ step (state (generation_block json_loads env s)) <> GENERATE_QA.
Proof.
  intros Hwf. unfold generation_block.
  destruct (bool_decide (step (state s) = GENERATE_QA)) eqn:Hstep; cbn [andb].
  2: { apply bool_decide_eq_false in Hstep. split; assumption. }
  apply bool_decide_eq_true in Hstep.
  destruct Hwf as [H1 H2 H3 H4 H5 H6 H7 H8 H9 H10 H11 H12].
  destruct (H2 (or_intror Hstep)) as [Hrules Hqg]. rewrite Hqg. cbn [negb].
  pose proof (generate_questions_sync_length json_loads (tech_stack (candidate s))
                (gen_service env) (draws env)) as Hlen.
  destruct (generate_questions_sync _ _ _ _ _) as [qa drawn]. cbn [fst] in Hlen.
  rewrite <- (materialize_length qa (draws env) drawn) in Hlen.
  destruct (materialize qa (draws env) drawn) as [|q0 rest] eqn:Hm.
  { cbn [length] in Hlen. lia. }
  split; [|session_fields; discriminate].
  constructor; session_fields; try assumption; try discriminate; try congruence.
  - intros Hp. apply intake_phase_steps in Hp. tauto.
  - intros _. split; [|exact Hlen].
    change (Spec.step_by_rules (candidate s) = GENERATE_QA). congruence.
  - intros _. split; [reflexivity|]. cbn [length]. lia.
  - cbn [length]. lia.
  - intros v Hv. destruct (H11 v Hv) as [_ [E | E]]; congruence.
  - split; [|discriminate]. intros E. apply H12 in E. congruence.
Qed.

Lemma script_run_wf json_loads py_float (prompt : option string) (env : Env)
    (s : Session) :
  Wf.session_wf s -> Wf.session_wf (script_run json_loads py_float prompt env s).
Proof.
  intros Hwf. apply script_run_preserves;
    [intros; now apply user_turn_wf
    | intros s0 H0; now apply (generation_block_wf json_loads env s0 H0)
    | exact Hwf].
Qed.

Lemma initial_session_wf : Wf.session_wf initial_session.
Proof.
  constructor; unfold initial_session, Candidate_default; session_fields;
    try discriminate; try (intros; discriminate).
  - intros _. split; reflexivity.
  - repeat split; try (intros; discriminate); constructor.
  - intros _. split; reflexivity.
  - cbn [length]. lia.
  - reflexivity.
  - split; discriminate.
Qed.

(** Every state of a session has the shape. *)
Lemma reachable_wf json_loads py_float (s : Session) :
  reachable json_loads py_float s -> Wf.session_wf s.
Proof.
  induction 1 as [|s prompt env Hs IH].
  - apply initial_session_wf.
  - apply script_run_wf, IH.
Qed.

Lemma sample_reachable_email :
  reachable Fragment.json_loads Fragment.py_float Sample.at_email.
Proof.
  unfold Sample.at_email, Sample.run.
  repeat apply reachable_run. apply reachable_initial.
Defined.

Lemma sample_reachable_generation :
  reachable Fragment.json_loads Fragment.py_float Sample.at_generation.
Proof.
  unfold Sample.at_generation, Sample.at_email, Sample.run.
  repeat apply reachable_run. apply reachable_initial.
Defined.

Lemma sample_reachable_first_question :
  reachable Fragment.json_loads Fragment.py_float Sample.at_first_question.
Proof.
  unfold Sample.at_first_question, Sample.rerun.
  apply reachable_run, sample_reachable_generation.
Defined.

Lemma sample_reachable_followup :
  reachable Fragment.json_loads Fragment.py_float Sample.at_followup.
Proof.
  unfold Sample.at_followup, Sample.run.
  do 5 apply reachable_run. apply sample_reachable_first_question.
Defined.

(** X14. In every state a session is in at the end of a run, the step is
    never [GREETING], and while the step is an intake step or [GENERATE_QA]
    it is the step that [next_step] computes from the candidate: the
    conversation asks for the first field still unset, never for one
    already filled, and stands at [GENERATE_QA], until the next run
    generates the questions, exactly when no field is left; no question
    exists yet. *)
Theorem intake_step_is_next_step
    (json_loads : string -> option json) (py_float : string -> option pyfloat)
    (s : Session) :
  reachable json_loads py_float s ->
  step (state s) <> GREETING
  /\ (step (state s) ∈ INTAKE_STEPS \/ step (state s) = GENERATE_QA ->
      next_step (candidate s) (state s) = Some (step (state s))
      /\ questions_generated s = false
      /\ generated_questions s = []).
Proof.
  intros Hr. pose proof (reachable_wf _ _ _ Hr) as Hwf.
  split; [apply Hwf|]. intros Hin.
  destruct (Wf.wf_intake s Hwf Hin) as [Hstep Hqg].
  rewrite next_step_by_rules, <- Hstep.
  split; [reflexivity|]. split; [exact Hqg | apply (Wf.wf_before s Hwf Hqg)].
Qed.

Lemma intake_step_is_next_step_witness :
  step (state Sample.at_generation) = GENERATE_QA
  /\ next_step (candidate Sample.at_generation) (state Sample.at_generation)
     = Some (step (state Sample.at_generation)).
Proof.
  assert (Hgen : step (state Sample.at_generation) = GENERATE_QA).
  { vm_compute. reflexivity. }
  destruct (intake_step_is_next_step _ _ _ sample_reachable_generation) as (_ & H).
  split; [exact Hgen | apply (H (or_intror Hgen))].
Defined.

(** X15. In every state a session reaches, each intake field that is set
    holds a value its rule accepted: name and location are trimmed and at
    least two characters long, the email matches [EMAIL_RX], the phone has
    at least six characters, each one a character that the pattern [\d]
    matches or a plus sign, the years of experience are a finite number
    between 0 and 50, and the entries of the two lists are trimmed and
    non-empty. The messages of a session are texts of code points below
    256. *)
Theorem committed_fields_pass_their_rules
    (json_loads : string -> option json) (py_float : string -> option pyfloat)
    (s : Session) :
  reachable json_loads py_float s -> Wf.fields_valid (candidate s).
Proof.
  intros Hr. pose proof (reachable_wf _ _ _ Hr) as Hwf. apply Hwf.
Qed.

Lemma committed_fields_pass_their_rules_witness :
  Wf.fields_valid (candidate Sample.at_first_question).
Proof.
  apply (committed_fields_pass_their_rules _ _ _ sample_reachable_first_question).
Defined.

(** X16. In every state a session reaches: if the questions have been
    generated, the intake is complete and there are between one and five
    questions; the steps [TECHNICAL_QA] and [FOLLOWUP] occur only after the
    generation; and at [TECHNICAL_QA] the current index is within the
    list, so reading the current question never raises. *)
Theorem questions_follow_complete_intake
    (json_loads : string -> option json) (py_float : string -> option pyfloat)
    (s : Session) :
  reachable json_loads py_float s ->
  (questions_generated s = true ->
   is_intake_complete (candidate s) = Some true
   /\ (1 <= length (technical_questions (candidate s)) <= 5)%nat)
  /\ (step (state s) = TECHNICAL_QA \/ step (state s) = FOLLOWUP ->
      questions_generated s = true)
  /\ (step (state s) = TECHNICAL_QA ->
      0 <= current_question_index (state s)
      /\ exists q : QuestionRecord,
           py_index (generated_questions s) (current_question_index (state s)) = Some q
           /\ q ∈ technical_questions (candidate s)).
Proof.
  intros Hr. pose proof (reachable_wf _ _ _ Hr) as Hwf.
  destruct (reachable_inv _ _ _ Hr) as (Hsame & _ & _).
  split; [|split].
  - intros Hqg. destruct (Wf.wf_generated s Hwf Hqg) as [Hrules Hlen].
    rewrite is_intake_complete_by_rules, <- Hsame.
    rewrite bool_decide_eq_true_2 by exact Hrules. split; [reflexivity | exact Hlen].
  - intros [H | H]; [apply (Wf.wf_technical s Hwf H) | apply (Wf.wf_followup s Hwf H)].
  - intros Hstep. destruct (Wf.wf_technical s Hwf Hstep) as [_ Hidx].
    pose proof (Wf.wf_index s Hwf) as Hpos. split; [lia|].
    destruct (py_index_in_range (generated_questions s)
                (current_question_index (state s))) as [q Hq]; [lia|].
    exists q. split; [exact Hq|]. rewrite <- Hsame. apply (py_index_elem _ _ _ Hq).
Qed.

Lemma questions_follow_complete_intake_witness :
  questions_generated Sample.at_first_question = true
  /\ is_intake_complete (candidate Sample.at_first_question) = Some true
  /\ (1 <= length (technical_questions (candidate Sample.at_first_question)) <= 5)%nat.
Proof.
  assert (Hqg : questions_generated Sample.at_first_question = true).
  { vm_compute. reflexivity. }
  destruct (questions_follow_complete_intake _ _ _ sample_reachable_first_question)
    as (H & _ & _).
  split; [exact Hqg | apply (H Hqg)].
Defined.

(** X17. In every state a session reaches, an answer is recorded under a
    question id exactly when a score is, and every recorded score lies
    between 0 and 10. *)
Theorem every_answer_is_scored
    (json_loads : string -> option json) (py_float : string -> option pyfloat)
    (s : Session) :
  reachable json_loads py_float s ->
  (forall qid : string,
     is_Some (technical_answers (candidate s) !! qid)
     <-> is_Some (answer_scores (candidate s) !! qid))
  /\ (forall (qid : string) (sc : AnswerScore),
        answer_scores (candidate s) !! qid = Some sc -> 0 <= score sc <= 10).
Proof.
  intros Hr. pose proof (reachable_wf _ _ _ Hr) as Hwf. split.
  - intros qid. rewrite <- !elem_of_dom, (Wf.wf_dom s Hwf). reflexivity.
  - intros qid sc H. apply (Wf.wf_scores s Hwf qid sc H).
Qed.

Lemma every_answer_is_scored_witness :
  is_Some (technical_answers (candidate Sample.at_followup) !! "00000000")
  <-> is_Some (answer_scores (candidate Sample.at_followup) !! "00000000").
Proof.
  apply (every_answer_is_scored _ _ _ sample_reachable_followup).
Defined.

(** X18. In every state a session reaches, an overall score is present
    only at the steps [FOLLOWUP] and [END], where it is
    [calculate_overall_score] of the recorded scores; and at [FOLLOWUP] it
    is always present. *)
Theorem overall_score_is_of_recorded_scores
    (json_loads : string -> option json) (py_float : string -> option pyfloat)
    (s : Session) :
  reachable json_loads py_float s ->
  (forall v : Q,
     overall_score (candidate s) = Some v ->
     v = calculate_overall_score (answer_scores (candidate s))
     /\ (step (state s) = FOLLOWUP \/ step (state s) = END))
  /\ (step (state s) = FOLLOWUP ->
      overall_score (candidate s)
      = Some (calculate_overall_score (answer_scores (candidate s)))).
Proof.
  intros Hr. pose proof (reachable_wf _ _ _ Hr) as Hwf. split.
  - apply Hwf.
  - intros Hstep. destruct (Wf.wf_followup s Hwf Hstep) as [_ [v Hv]].
    destruct (Wf.wf_overall s Hwf v Hv) as [-> _]. exact Hv.
Qed.

Lemma overall_score_is_of_recorded_scores_witness :
  step (state Sample.at_followup) = FOLLOWUP
  /\ overall_score (candidate Sample.at_followup)
     = Some (calculate_overall_score (answer_scores (candidate Sample.at_followup))).
Proof.
  assert (Hstep : step (state Sample.at_followup) = FOLLOWUP).
  { vm_compute. reflexivity. }
  destruct (overall_score_is_of_recorded_scores _ _ _ sample_reachable_followup)
    as [_ H].
  split; [exact Hstep | apply (H Hstep)].
Defined.

Lemma not_intake_step (st : Step) :
  st = TECHNICAL_QA \/ st = FOLLOWUP \/ st = END \/ st = GENERATE_QA \/ st = GREETING ->
  st ∉ INTAKE_STEPS.
Proof.
  intros H Hin. apply list_elem_of_In in Hin. cbn in Hin.
  intuition congruence.
Qed.

(** X19. In every state a session reaches, the exit flag is set exactly at
    the step [END], and at [END] no run of the script, whatever the message
    and the environment, changes the session. *)
Theorem session_is_final_after_exit
    (json_loads : string -> option json) (py_float : string -> option pyfloat)
    (s : Session) :
  reachable json_loads py_float s ->
  (exit_detected (state s) = true <-> step (state s) = END)
  /\ (step (state s) = END ->
      forall (prompt : option string) (env : Env),
        script_run json_loads py_float prompt env s = s).
Proof.
  intros Hr. pose proof (reachable_wf _ _ _ Hr) as Hwf.
  split; [apply Hwf|]. intros Hend prompt env.
  assert (Hex : exit_detected (state s) = true) by (apply Hwf, Hend).
  assert (Hturn : forall p, user_turn json_loads py_float p (score_service env) s = s).
  { intros p. unfold user_turn. destruct (detect_exit p).
    - destruct s as [c [st ex i qa] g gq]. cbn in Hend, Hex. subst. reflexivity.
    - cbv zeta.
      rewrite bool_decide_eq_false_2 by (apply not_intake_step; tauto).
      rewrite Hend. reflexivity. }
  apply (script_run_preserves json_loads py_float (fun s0 => s0 = s)).
  - intros p s0 ->. apply Hturn.
  - intros s0 ->. apply generation_block_idle. rewrite Hend. discriminate.
  - reflexivity.
Qed.

Lemma session_is_final_after_exit_witness :
  step (state Sample.after_exit) = END
  /\ Sample.run "I agree" Sample.env_down Sample.after_exit = Sample.after_exit.
Proof.
  assert (Hr : reachable Fragment.json_loads Fragment.py_float Sample.after_exit).
  { unfold Sample.after_exit, Sample.run. apply reachable_run, sample_reachable_email. }
  assert (Hend : step (state Sample.after_exit) = END) by (vm_compute; reflexivity).
  destruct (session_is_final_after_exit _ _ _ Hr) as [_ H].
  split; [exact Hend | apply (H Hend)].
Defined.

Lemma answered_fields (text : string) (q : QuestionRecord) (sc : AnswerScore)
    (s : Session) :
  technical_answers (candidate (answered text q sc s))
  = <[q_question_id q := PyStr.strip text]> (technical_answers (candidate s))
  /\ answer_scores (candidate (answered text q sc s))
     = <[q_question_id q := sc]> (answer_scores (candidate s))
  /\ current_question_index (state (answered text q sc s))
     = current_question_index (state s) + 1
  /\ (current_question_index (state s) + 1 < Z.of_nat (length (generated_questions s)) ->
      step (state (answered text q sc s)) = step (state s)
      /\ overall_score (candidate (answered text q sc s)) = overall_score (candidate s))
  /\ (Z.of_nat (length (generated_questions s)) <= current_question_index (state s) + 1 ->
      step (state (answered text q sc s)) = FOLLOWUP
      /\ overall_score (candidate (answered text q sc s))
         = Some (calculate_overall_score
                   (answer_scores (candidate (answered text q sc s))))).
Proof.
  unfold answered. cbv zeta.
  destruct (Z.ltb_spec (current_question_index (state s) + 1)
              (Z.of_nat (length (generated_questions s)))) as [Hlt | Hge];
    session_fields.
  - split; [reflexivity|]. split; [reflexivity|]. split; [reflexivity|].
    split; [intros _; split; reflexivity | intros H; lia].
  - split; [reflexivity|]. split; [reflexivity|]. split; [reflexivity|].
    split; [intros H; lia | intros _; split; reflexivity].
Qed.

(** X20. At the step [TECHNICAL_QA] of a reachable session, for a message
    that is no exit request: a message whose trimmed text has fewer than
    ten characters leaves the session as it was; any other message is
    recorded, trimmed, under the id of the current question, together with
    a score between 0 and 10, and the index moves on by one; while
    questions remain the step stays [TECHNICAL_QA] without overall score,
    after the last one the step is [FOLLOWUP] and the overall score is
    [calculate_overall_score] of the recorded scores. No exception of the
    scorer or of the list access reaches the turn. *)
Theorem technical_answer_is_recorded
    (json_loads : string -> option json) (py_float : string -> option pyfloat)
    (s : Session) (prompt : string) (env : Env) :
  reachable json_loads py_float s ->
  step (state s) = TECHNICAL_QA ->
  detect_exit prompt = false ->
  let s' := script_run json_loads py_float (Some prompt) env s in
  let idx := current_question_index (state s) in
  let n := Z.of_nat (length (technical_questions (candidate s))) in
  (PyStr.len (PyStr.strip prompt) < 10 -> s' = s)
  /\ (10 <= PyStr.len (PyStr.strip prompt) ->
      exists (q : QuestionRecord) (sc : AnswerScore),
        py_index (technical_questions (candidate s)) idx = Some q
        /\ 0 <= score sc <= 10
        /\ technical_answers (candidate s')
           = <[q_question_id q := PyStr.strip prompt]> (technical_answers (candidate s))
        /\ answer_scores (candidate s')
           = <[q_question_id q := sc]> (answer_scores (candidate s))
        /\ current_question_index (state s') = idx + 1
        /\ (idx + 1 < n ->
            step (state s') = TECHNICAL_QA /\ overall_score (candidate s') = None)
        /\ (idx + 1 = n ->
            step (state s') = FOLLOWUP
            /\ overall_score (candidate s')
               = Some (calculate_overall_score (answer_scores (candidate s'))))).
Proof.
  intros Hr Hstep Hexit s' idx n. subst s' idx n.
  pose proof (reachable_wf _ _ _ Hr) as Hwf.
  destruct (reachable_inv _ _ _ Hr) as (Hsame & _ & _).
  destruct (Wf.wf_technical s Hwf Hstep) as [_ Hidx].
  pose proof (Wf.wf_index s Hwf) as Hpos.
  assert (Hnone : overall_score (candidate s) = None).
  { destruct (overall_score (candidate s)) as [v|] eqn:E; [|reflexivity].
    destruct (Wf.wf_overall s Hwf v E) as [_ [E' | E']]; congruence. }
  assert (Hturn : user_turn json_loads py_float prompt (score_service env) s
                  = outcome_session
                      (handle_technical_answer json_loads prompt (score_service env) s)).
  { unfold user_turn. rewrite Hexit. cbv zeta.
    rewrite bool_decide_eq_false_2 by (apply not_intake_step; tauto).
    rewrite bool_decide_eq_true_2 by exact Hstep.
    destruct (handle_technical_answer _ _ _ _); reflexivity. }
  assert (Hreruns : user_turn_reruns json_loads py_float prompt (score_service env) s
                    = match handle_technical_answer json_loads prompt
                              (score_service env) s with
                      | Returned flag _ => flag
                      | Raised _ => true
                      end).
  { unfold user_turn_reruns. rewrite Hexit. cbv zeta.
    rewrite bool_decide_eq_false_2 by (apply not_intake_step; tauto).
    rewrite bool_decide_eq_true_2 by exact Hstep. reflexivity. }
  assert (Hidle : generation_block json_loads env s = s).
  { apply generation_block_idle. rewrite Hstep. discriminate. }
  rewrite <- Hsame. split.
  - intros Hshort. unfold script_run.
    destruct (PyStr.truthy prompt); [|exact Hidle].
    rewrite Hreruns, Hturn, handle_technical_answer_rejects by exact Hshort.
    exact Hidle.
  - intros Hlong.
    assert (Ht : PyStr.truthy prompt = true).
    { destruct (PyStr.truthy prompt) eqn:E; [reflexivity|].
      apply blank_is_short in E. lia. }
    destruct (handle_technical_answer_accepts json_loads prompt (score_service env) s
                Ht Hlong) as (q & sc & Hq & Hsc & Hans); [lia|].
    pose proof (answered_fields prompt q sc s) as (F1 & F2 & F3 & F4 & F5).
    assert (Hrun : script_run json_loads py_float (Some prompt) env s
                   = answered prompt q sc s).
    { unfold script_run. rewrite Ht, Hreruns, Hturn, Hans. reflexivity. }
    rewrite Hrun. exists q, sc.
    split; [exact Hq|]. split; [exact Hsc|]. split; [exact F1|].
    split; [exact F2|]. split; [exact F3|]. split.
    + intros H. destruct (F4 H) as [E1 E2]. split; congruence.
    + intros H. apply F5. lia.
Qed.

Lemma technical_answer_is_recorded_witness :
  step (state Sample.at_first_question) = TECHNICAL_QA
  /\ detect_exit "Lists are mutable, tuples are not." = false
  /\ 10 <= PyStr.len (PyStr.strip "Lists are mutable, tuples are not.")
  /\ exists (q : QuestionRecord) (sc : AnswerScore),
       py_index (technical_questions (candidate Sample.at_first_question))
         (current_question_index (state Sample.at_first_question)) = Some q
       /\ 0 <= score sc <= 10
       /\ technical_answers
            (candidate (Sample.run "Lists are mutable, tuples are not." Sample.env_down
                          Sample.at_first_question))
          = <[q_question_id q := PyStr.strip "Lists are mutable, tuples are not."]>
              (technical_answers (candidate Sample.at_first_question)).
Proof.
  assert (H1 : step (state Sample.at_first_question) = TECHNICAL_QA).
  { vm_compute. reflexivity. }
  assert (H2 : detect_exit "Lists are mutable, tuples are not." = false).
  { vm_compute. reflexivity. }
  assert (H3 : 10 <= PyStr.len (PyStr.strip "Lists are mutable, tuples are not.")).
  { vm_compute. discriminate. }
  destruct (technical_answer_is_recorded _ _ _ "Lists are mutable, tuples are not."
              Sample.env_down sample_reachable_first_question H1 H2) as [_ H].
  destruct (H H3) as (q & sc & Hq & Hsc & Ha & _).
  split; [exact H1|]. split; [exact H2|]. split; [exact H3|].
  exists q, sc. split; [exact Hq|]. split; [exact Hsc | exact Ha].
Defined.

Lemma user_turn_keeps_questions json_loads py_float (prompt : string)
    (service : nat -> reply) (s : Session) :
  questions_generated (user_turn json_loads py_float prompt service s)
  = questions_generated s
  /\ generated_questions (user_turn json_loads py_float prompt service s)
     = generated_questions s
  /\ technical_questions (candidate (user_turn json_loads py_float prompt service s))
     = technical_questions (candidate s).
Proof.
  unfold user_turn. destruct (detect_exit prompt); [repeat split; reflexivity|].
  cbv zeta. case_bool_decide as Hintake.
  - pose proof (apply_answer_keeps_assessment py_float (step (state s)) prompt
                  (candidate s)) as H. cbv zeta in H. destruct H as (Hq & _ & _).
    destruct (apply_answer_to_step _ _ _ _) as [accepted c]. cbn [snd] in Hq.
    destruct accepted; [destruct (next_step _ _)|]; session_fields;
      repeat split; try reflexivity; exact Hq.
  - case_bool_decide as Htech.
    + pose proof (handle_technical_answer_effect json_loads prompt service s) as H.
      cbv zeta in H. destruct H as (H1 & H2 & H3 & _).
      destruct (handle_technical_answer _ _ _ _); cbn [outcome_session] in *;
        repeat split; assumption.
    + case_bool_decide; repeat split; reflexivity.
Qed.

(** X21. Once the questions are generated, no run of the script, whatever
    the message and the environment, generates them again or changes the
    list: the flag stays set and both names keep their list. *)
Theorem questions_are_generated_once
    (json_loads : string -> option json) (py_float : string -> option pyfloat)
    (s : Session) (prompt : option string) (env : Env) :
  questions_generated s = true ->
  questions_generated (script_run json_loads py_float prompt env s) = true
  /\ generated_questions (script_run json_loads py_float prompt env s)
     = generated_questions s
  /\ technical_questions (candidate (script_run json_loads py_float prompt env s))
     = technical_questions (candidate s).
Proof.
  intros Hqg.
  apply (script_run_preserves json_loads py_float
           (fun s0 => questions_generated s0 = true
                      /\ generated_questions s0 = generated_questions s
                      /\ technical_questions (candidate s0)
                         = technical_questions (candidate s))).
  - intros p s0 (E1 & E2 & E3).
    destruct (user_turn_keeps_questions json_loads py_float p (score_service env) s0)
      as (K1 & K2 & K3).
    split; [congruence|]. split; congruence.
  - intros s0 (E1 & E2 & E3).
    assert (Hidle : generation_block json_loads env s0 = s0).
    { unfold generation_block. rewrite E1. cbn [negb]. rewrite andb_false_r.
      reflexivity. }
    rewrite Hidle. split; [exact E1|]. split; assumption.
  - split; [exact Hqg|]. split; reflexivity.
Qed.

Lemma questions_are_generated_once_witness :
  questions_generated Sample.at_first_question = true
  /\ technical_questions
       (candidate (Sample.run "python, sql" Sample.env_down Sample.at_first_question))
     = technical_questions (candidate Sample.at_first_question).
Proof.
  assert (Hqg : questions_generated Sample.at_first_question = true).
  { vm_compute. reflexivity. }
  split; [exact Hqg|].
  apply (questions_are_generated_once Fragment.json_loads Fragment.py_float
           Sample.at_first_question (Some "python, sql") Sample.env_down Hqg).
Defined.

Lemma user_turn_from_intake json_loads py_float (prompt : string)
    (service : nat -> reply) (s : Session) :
  step (state s) ∈ INTAKE_STEPS ->
  step (state (user_turn json_loads py_float prompt service s)) = END
  \/ Wf.intake_phase (step (state (user_turn json_loads py_float prompt service s))).
Proof.
  intros Hin. unfold user_turn. destruct (detect_exit prompt); [left; reflexivity|].
  cbv zeta. rewrite bool_decide_eq_true_2 by exact Hin.
  destruct (apply_answer_to_step _ _ _ _) as [accepted c].
  destruct accepted.
  - destruct (next_step _ _) as [n|] eqn:Hn.
    + apply next_step_in_phase in Hn as [_ Hp]. right. exact Hp.
    + right. left. exact Hin.
  - right. left. exact Hin.
Qed.

Lemma generation_block_starts json_loads (env : Env) (s : Session) :
  Wf.session_wf s ->
  step (state s) = GENERATE_QA ->
  step (state (generation_block json_loads env s)) = TECHNICAL_QA
  /\ current_question_index (state (generation_block json_loads env s)) = 0
  /\ questions_generated (generation_block json_loads env s) = true.
Proof.
  intros Hwf Hstep. unfold generation_block.
  rewrite bool_decide_eq_true_2 by exact Hstep.
  destruct (Wf.wf_intake s Hwf (or_intror Hstep)) as [_ Hqg].
  rewrite Hqg. cbn [negb andb].
  pose proof (generate_questions_sync_length json_loads (tech_stack (candidate s))
                (gen_service env) (draws env)) as Hlen.
  destruct (generate_questions_sync _ _ _ _ _) as [qa drawn]. cbn [fst] in Hlen.
  rewrite <- (materialize_length qa (draws env) drawn) in Hlen.
  destruct (materialize qa (draws env) drawn) as [|q0 rest].
  - cbn [length] in Hlen. lia.
  - repeat split; reflexivity.
Qed.

(** X22. A run of the script that starts at an intake step of a reachable
    session ends at an intake step, at [END], or, when its message has
    completed the intake, at [GENERATE_QA] with the questions still to be
    generated. The run that starts at [GENERATE_QA], as the rerun does that
    the completed intake asks for, ends at [TECHNICAL_QA] with the
    questions generated and the index at the first of them, or at [END] if
    it brings an exit request. No such run ends at [FOLLOWUP]: a candidate
    is always asked a question. *)
Theorem intake_run_ends_in_intake_exit_or_first_question
    (json_loads : string -> option json) (py_float : string -> option pyfloat)
    (s : Session) (prompt : option string) (env : Env) :
  reachable json_loads py_float s ->
  let s' := script_run json_loads py_float prompt env s in
  (step (state s) ∈ INTAKE_STEPS ->
   step (state s') ∈ INTAKE_STEPS
   \/ step (state s') = END
   \/ (step (state s') = GENERATE_QA /\ questions_generated s' = false))
  /\ (step (state s) = GENERATE_QA ->
      step (state s') = END
      \/ (step (state s') = TECHNICAL_QA
          /\ current_question_index (state s') = 0
          /\ questions_generated s' = true)).
Proof.
  intros Hr s'. subst s'. pose proof (reachable_wf _ _ _ Hr) as Hwf. split.
  - intros Hin.
    assert (Hidle : generation_block json_loads env s = s)
      by (apply generation_block_idle, intake_step_not_generate, Hin).
    destruct (Wf.wf_intake s Hwf (or_introl Hin)) as [_ Hqg].
    destruct prompt as [p|]; [|cbn [script_run]; rewrite Hidle; left; exact Hin].
    destruct (PyStr.truthy p) eqn:Ht;
      [|unfold script_run; rewrite Ht, Hidle; left; exact Hin].
    destruct (detect_exit p) eqn:Hexit.
    + right. left. unfold script_run, user_turn_reruns, user_turn.
      rewrite Ht, Hexit. reflexivity.
    + rewrite (intake_run json_loads py_float s p env Hin Ht Hexit).
      set (c' := snd (apply_answer_to_step py_float (step (state s)) p (candidate s))).
      destruct (fst (apply_answer_to_step py_float (step (state s)) p (candidate s)));
        [|left; exact Hin].
      session_fields.
      destruct (next_step_in_phase c' (state s) _ (next_step_by_rules c' (state s)))
        as [_ [Hphase | Hgen]];
        [left; exact Hphase | right; right; split; assumption].
  - intros Hgen.
    assert (Hnot : step (state s) ∉ INTAKE_STEPS) by (apply not_intake_step; tauto).
    assert (Hstart := generation_block_starts json_loads env s Hwf Hgen).
    destruct prompt as [p|]; [|right; exact Hstart].
    destruct (PyStr.truthy p) eqn:Ht;
      [|unfold script_run; rewrite Ht; right; exact Hstart].
    unfold script_run, user_turn_reruns, user_turn. rewrite Ht.
    destruct (detect_exit p); [left; reflexivity|]. cbv zeta.
    rewrite !bool_decide_eq_false_2 by exact Hnot.
    rewrite !bool_decide_eq_false_2 by (rewrite Hgen; discriminate).
    right. exact Hstart.
Qed.

Lemma intake_run_ends_in_intake_exit_or_first_question_witness :
  step (state Sample.at_generation) = GENERATE_QA
  /\ (step (state (Sample.rerun Sample.env_down Sample.at_generation)) = END
      \/ (step (state (Sample.rerun Sample.env_down Sample.at_generation))
          = TECHNICAL_QA
          /\ current_question_index
               (state (Sample.rerun Sample.env_down Sample.at_generation)) = 0
          /\ questions_generated
               (Sample.rerun Sample.env_down Sample.at_generation) = true)).
Proof.
  assert (Hgen : step (state Sample.at_generation) = GENERATE_QA).
  { vm_compute. reflexivity. }
  split; [exact Hgen|].
  apply (proj2 (intake_run_ends_in_intake_exit_or_first_question Fragment.json_loads
                  Fragment.py_float Sample.at_generation None Sample.env_down
                  sample_reachable_generation) Hgen).
Defined.

(* ================================================================== *)
(** * The progress display and the order of the intake *)
(* ================================================================== *)

Lemma nonspace_strip (s : string) (ch : ascii) :
  ch ∈ PyStr.chars s -> PyStr.isspace ch = false -> PyStr.strip s <> "".
Proof.
  intros Hin Hns E.
  destruct (StripFacts.strip_split s) as (ws1 & ws2 & Hs & H1 & H2).
  rewrite E in Hs. change (PyStr.chars "") with (@nil ascii) in Hs.
  cbn [app] in Hs. rewrite Hs in Hin.
  rewrite forallb_forall in H1, H2.
  apply elem_of_app in Hin as [Hin | Hin]; apply list_elem_of_In in Hin.
  - rewrite (H1 _ Hin) in Hns. discriminate.
  - rewrite (H2 _ Hin) in Hns. discriminate.
Qed.

Lemma digit_or_plus_nonspace (ch : ascii) :
  PyStr.is_decimal ch = true \/ ch = "+"%char -> PyStr.isspace ch = false.
Proof.
  intros [H | ->]; [|vm_compute; reflexivity].
  unfold PyStr.is_decimal in H. cbv zeta in H.
  apply andb_true_iff in H as [H1 H2]. apply N.leb_le in H1, H2.
  unfold PyStr.isspace. cbv zeta.
  repeat match goal with
         | |- context [(?a <=? ?b)%N] => destruct (N.leb_spec a b)
         | |- context [(?a =? ?b)%N] => destruct (N.eqb_spec a b)
         end; cbn; try reflexivity; lia.
Qed.

Lemma email_has_at (e : string) :
  EMAIL_RX_match e = true -> "@"%char ∈ PyStr.chars e.
Proof.
  intros H. unfold EMAIL_RX_match in H. cbv zeta in H.
  apply orb_true_iff in H as [H|H].
  - apply email_body_local in H as (loc & dom & Hs & _).
    apply split_at_first_spec in Hs as [-> _].
    apply elem_of_app. right. apply elem_of_cons. left. reflexivity.
  - destruct (rev (PyStr.chars e)) as [|c r] eqn:E; [discriminate|].
    apply andb_true_iff in H as [_ H].
    apply email_body_local in H as (loc & dom & Hs & _).
    apply split_at_first_spec in Hs as [Hr _].
    rewrite <- (rev_involutive (PyStr.chars e)), E. cbn [rev]. rewrite Hr.
    apply elem_of_app. left. apply elem_of_app. right. apply elem_of_cons.
    left. reflexivity.
Qed.

Lemma text_flag (o : option string) :
  (forall v, o = Some v -> PyStr.strip v <> "") ->
  Spec.unset_text o = negb (bool_of_text o).
Proof.
  intros H. destruct o as [v|]; [|reflexivity].
  cbn [Spec.unset_text bool_of_text].
  rewrite bool_decide_eq_false_2 by (apply H; reflexivity).
  destruct v; [|reflexivity]. exfalso. apply (H EmptyString eq_refl). reflexivity.
Qed.

Lemma trimmed_text_set (n : string) :
  2 <= PyStr.len n -> Wf.trimmed n -> PyStr.strip n <> "".
Proof.
  intros Hlen Ht. rewrite Ht. intros ->. vm_compute in Hlen. apply Hlen. reflexivity.
Qed.

(** On a candidate whose fields passed the intake rules, a field counts as
    done in the progress display exactly when [next_step] sees it as set. *)
Lemma flags_unset (c : Candidate) :
  Wf.fields_valid c ->
  Spec.unset_text (full_name c) = negb (bool_of_text (full_name c))
  /\ Spec.unset_text (email c) = negb (bool_of_text (email c))
  /\ Spec.unset_text (phone c) = negb (bool_of_text (phone c))
  /\ Spec.unset_number (years_experience c)
     = negb (match years_experience c with Some _ => true | None => false end)
  /\ Spec.unset_sequence (desired_positions c)
     = negb (match desired_positions c with [] => false | _ :: _ => true end)
  /\ Spec.unset_text (current_location c) = negb (bool_of_text (current_location c))
  /\ Spec.unset_sequence (tech_stack c)
     = negb (match tech_stack c with [] => false | _ :: _ => true end).
Proof.
  intros (Hn & He & Hp & _ & Hl & _ & _).
  split; [|split; [|split; [|split; [|split; [|split]]]]].
  - apply text_flag. intros v Hv. destruct (Hn v Hv). now apply trimmed_text_set.
  - apply text_flag. intros v Hv. apply (nonspace_strip v "@").
    + apply email_has_at, He, Hv.
    + vm_compute. reflexivity.
  - apply text_flag. intros v Hv. destruct (Hp v Hv) as [Hlen Hch].
    destruct (PyStr.chars v) as [|ch r] eqn:E.
    + rewrite <- (PyStrFacts.str_chars v), E in Hlen. vm_compute in Hlen.
      exfalso. apply Hlen. reflexivity.
    + apply (nonspace_strip v ch).
      * rewrite E. apply elem_of_cons. left. reflexivity.
      * apply digit_or_plus_nonspace. inversion Hch; assumption.
  - destruct (years_experience c); reflexivity.
  - destruct (desired_positions c); reflexivity.
  - apply text_flag. intros v Hv. destruct (Hl v Hv). now apply trimmed_text_set.
  - destruct (tech_stack c); reflexivity.
Qed.


(** When the first [k] fields are done, the step by the rules is the
    [k]-th intake step, or [GENERATE_QA] after the last. *)
Lemma step_of_flags (c : Candidate) (k : nat) :
  Wf.fields_valid c -> filled_up_to k c -> (k <= 8)%nat ->
  (INTAKE_STEPS ++ [GENERATE_QA]) !! k = Some (Spec.step_by_rules c).
Proof.
  intros Hv Hf Hk.
  destruct (flags_unset c Hv) as (E1 & E2 & E3 & E4 & E5 & E6 & E7).
  unfold Spec.step_by_rules, Spec.required_fields. cbn [List.find fst].
  rewrite E1, E2, E3, E4, E5, E6, E7. clear E1 E2 E3 E4 E5 E6 E7.
  unfold filled_up_to, progress_fields in Hf. cbn [map snd] in Hf.
  name_flags c.
  do 9 (destruct k as [|k];
        [cbn in Hf; injection Hf as -> -> -> -> -> -> -> ->; reflexivity|]).
  lia.
Qed.

Lemma completed_of_flags (c : Candidate) (k : nat) :
  filled_up_to k c -> (k <= 8)%nat -> completed c = k.
Proof.
  intros Hf Hk. unfold completed.
  unfold filled_up_to, progress_fields in *. cbn [map snd List.filter] in *.
  name_flags c.
  do 9 (destruct k as [|k];
        [cbn in Hf; injection Hf as -> -> -> -> -> -> -> ->; reflexivity|]).
  lia.
Qed.

Lemma long_enough_truthy (val : string) :
  long_enough val = true -> PyStr.truthy (PyStr.strip val) = true.
Proof.
  intros H. apply long_enough_length in H.
  destruct (PyStr.strip val); [|reflexivity].
  vm_compute in H. exfalso. apply H. reflexivity.
Qed.

Lemma email_truthy (e : string) : EMAIL_RX_match e = true -> PyStr.truthy e = true.
Proof.
  intros H. apply email_has_at in H. destruct e; [|reflexivity].
  inversion H.
Qed.

Lemma phone_truthy (p : string) : phone_accepted p = true -> PyStr.truthy p = true.
Proof.
  unfold phone_accepted. intros H. apply andb_true_iff in H as [H _].
  destruct p; [|reflexivity]. vm_compute in H. discriminate.
Qed.


(** An intake rule applied at the step of the first field not yet done:
    the fields done afterwards are the same, and one more if the rule
    accepted an answer that fills the field. *)
Lemma apply_answer_flags (py_float : string -> option pyfloat)
    (st : Step) (text : string) (c : Candidate) (k : nat) :
  filled_up_to k c ->
  INTAKE_STEPS !! k = Some st ->
  filled_up_to
    (if fst (apply_answer_to_step py_float st text c) && fills st text then S k else k)
    (snd (apply_answer_to_step py_float st text c)).
Proof.
  intros Hf Hk. unfold filled_up_to, progress_fields in Hf.
  destruct k as [|[|[|[|[|[|[|[|k]]]]]]]]; [..|cbn in Hk; discriminate];
    cbn in Hk; injection Hk as <-;
    cbn [map snd replicate app Nat.sub] in Hf;
    injection Hf as F0 F1 F2 F3 F4 F5 F6 F7;
    unfold apply_answer_to_step, fills; cbv zeta.
  - destruct (existsb _ _); cbn [fst snd andb];
      unfold filled_up_to, progress_fields; candidate_fields;
      rewrite ?F0, ?F1, ?F2, ?F3, ?F4, ?F5, ?F6, ?F7; reflexivity.
  - destruct (long_enough _) eqn:E; cbn [fst snd andb];
      unfold filled_up_to, progress_fields; candidate_fields;
      rewrite ?(long_enough_truthy _ E);
      rewrite ?F0, ?F1, ?F2, ?F3, ?F4, ?F5, ?F6, ?F7; reflexivity.
  - destruct (EMAIL_RX_match _) eqn:E; cbn [fst snd andb];
      unfold filled_up_to, progress_fields; candidate_fields;
      rewrite ?(email_truthy _ E);
      rewrite ?F0, ?F1, ?F2, ?F3, ?F4, ?F5, ?F6, ?F7; reflexivity.
  - destruct (phone_accepted _) eqn:E; cbn [fst snd andb];
      unfold filled_up_to, progress_fields; candidate_fields;
      rewrite ?(phone_truthy _ E);
      rewrite ?F0, ?F1, ?F2, ?F3, ?F4, ?F5, ?F6, ?F7; reflexivity.
  - destruct (py_float _) as [y|]; [destruct (years_in_range y)|];
      cbn [fst snd andb];
      unfold filled_up_to, progress_fields; candidate_fields;
      rewrite ?F0, ?F1, ?F2, ?F3, ?F4, ?F5, ?F6, ?F7; reflexivity.
  - destruct (long_enough _); [destruct (comma_list _)|]; cbn [fst snd andb];
      unfold filled_up_to, progress_fields; candidate_fields;
      rewrite ?F0, ?F1, ?F2, ?F3, ?F4, ?F5, ?F6, ?F7; reflexivity.
  - destruct (long_enough _) eqn:E; cbn [fst snd andb];
      unfold filled_up_to, progress_fields; candidate_fields;
      rewrite ?(long_enough_truthy _ E);
      rewrite ?F0, ?F1, ?F2, ?F3, ?F4, ?F5, ?F6, ?F7; reflexivity.
  - destruct (long_enough _); [destruct (comma_list _)|]; cbn [fst snd andb];
      unfold filled_up_to, progress_fields; candidate_fields;
      rewrite ?F0, ?F1, ?F2, ?F3, ?F4, ?F5, ?F6, ?F7; reflexivity.
Qed.

Lemma handle_technical_answer_keeps_progress json_loads (text : string)
    (service : nat -> reply) (s : Session) :
  progress_fields
    (candidate (outcome_session (handle_technical_answer json_loads text service s)))
  = progress_fields (candidate s).
Proof.
  unfold handle_technical_answer. cbv zeta.
  destruct (negb (PyStr.truthy text) || _); [reflexivity|].
  destruct (_ <? _); [|reflexivity].
  destruct (py_index _ _) as [q|]; [|reflexivity].
  match goal with
  | |- context [match ?scored with Some _ => _ | None => Raised _ end] =>
      destruct scored as [sc|]
  end; [|reflexivity].
  destruct (_ <? _); [destruct (py_index _ _)|]; reflexivity.
Qed.

Lemma position_of_step (k k0 : nat) (st : Step) :
  INTAKE_STEPS !! k = Some st ->
  (INTAKE_STEPS ++ [GENERATE_QA]) !! k0 = Some st ->
  k0 = k.
Proof.
  intros Hk Hk0.
  destruct k as [|[|[|[|[|[|[|[|k]]]]]]]]; cbn in Hk; try discriminate;
    injection Hk as <-;
    destruct k0 as [|[|[|[|[|[|[|[|[|k0]]]]]]]]]; cbn in Hk0;
    try discriminate; reflexivity.
Qed.

Lemma intake_step_position (k : nat) (st : Step) :
  (INTAKE_STEPS ++ [GENERATE_QA]) !! k = Some st ->
  st ∈ INTAKE_STEPS ->
  INTAKE_STEPS !! k = Some st /\ (k < 8)%nat.
Proof.
  intros Hk Hin.
  destruct k as [|[|[|[|[|[|[|[|[|k]]]]]]]]]; cbn in Hk; try discriminate;
    try (split; [exact Hk | lia]).
  injection Hk as <-. exfalso. apply (not_intake_step GENERATE_QA); tauto.
Qed.

(** A turn keeps the fields filled in order. *)
Lemma user_turn_order json_loads py_float (prompt : string) (service : nat -> reply)
    (s : Session) :
  Wf.session_wf s ->
  (exists k, (k <= 8)%nat /\ filled_up_to k (candidate s)) ->
  exists k, (k <= 8)%nat
            /\ filled_up_to k (candidate (user_turn json_loads py_float prompt service s)).
Proof.
  intros Hwf (k & Hk & Hf). unfold user_turn.
  destruct (detect_exit prompt); [exists k; split; assumption|].
  cbv zeta. case_bool_decide as Hin.
  - destruct (Wf.wf_intake s Hwf (or_introl Hin)) as [Hstep _].
    pose proof (step_of_flags _ _ (Wf.wf_fields s Hwf) Hf Hk) as Hpos.
    rewrite <- Hstep in Hpos.
    destruct (intake_step_position _ _ Hpos Hin) as [Hk' Hlt].
    pose proof (apply_answer_flags py_float (step (state s)) prompt (candidate s) k
                  Hf Hk') as Hnew.
    destruct (apply_answer_to_step py_float (step (state s)) prompt (candidate s))
      as [accepted c]. cbn [fst snd] in Hnew.
    exists (if accepted && fills (step (state s)) prompt then S k else k).
    split; [destruct (_ && _); lia|].
    destruct accepted; [destruct (next_step _ _)|]; exact Hnew.
  - case_bool_decide.
    + exists k. split; [exact Hk|]. unfold filled_up_to.
      pose proof (handle_technical_answer_keeps_progress json_loads prompt service s)
        as E.
      destruct (handle_technical_answer _ _ _ _); cbn [outcome_session] in E;
        rewrite E; exact Hf.
    + case_bool_decide; exists k; (split; [exact Hk | exact Hf]).
Qed.

Lemma generation_block_keeps_progress json_loads (env : Env) (s : Session) :
  progress_fields (candidate (generation_block json_loads env s))
  = progress_fields (candidate s).
Proof.
  unfold generation_block. destruct (_ && _); [|reflexivity].
  destruct (generate_questions_sync _ _ _ _ _) as [qa drawn].
  destruct (materialize _ _ _); reflexivity.
Qed.

(** In every state of a session the fields are filled in order. *)
Lemma reachable_order json_loads py_float (s : Session) :
  reachable json_loads py_float s ->
  exists k, (k <= 8)%nat /\ filled_up_to k (candidate s).
Proof.
  induction 1 as [|s prompt env Hs IH].
  - exists 0%nat. split; [lia | reflexivity].
  - pose proof (reachable_wf _ _ _ Hs) as Hwf.
    apply (script_run_preserves json_loads py_float
             (fun s0 => Wf.session_wf s0
                        /\ exists k, (k <= 8)%nat /\ filled_up_to k (candidate s0))).
    + intros p s0 [W O].
      split; [apply user_turn_wf, W | apply user_turn_order; assumption].
    + intros s0 [W O]. split; [apply generation_block_wf, W|].
      unfold filled_up_to. rewrite generation_block_keeps_progress. exact O.
    + split; assumption.
Qed.

(** X23. In every state a session reaches, the fields that the progress
    display shows as done are the first [completed] of its eight, in the
    order of the display; while the step is an intake step, it is the
    step number [completed] of [INTAKE_STEPS], so the display counts the
    steps passed; and once the questions are generated the display shows
    all eight done. *)
Theorem progress_counts_the_steps_passed
    (json_loads : string -> option json) (py_float : string -> option pyfloat)
    (s : Session) :
  reachable json_loads py_float s ->
  filled_up_to (completed (candidate s)) (candidate s)
  /\ (completed (candidate s) <= total (candidate s))%nat
  /\ (step (state s) ∈ INTAKE_STEPS ->
      INTAKE_STEPS !! completed (candidate s) = Some (step (state s)))
  /\ (questions_generated s = true -> completed (candidate s) = total (candidate s)).
Proof.
  intros Hr. pose proof (reachable_wf _ _ _ Hr) as Hwf.
  destruct (reachable_order _ _ _ Hr) as (k & Hk & Hf).
  rewrite (completed_of_flags _ _ Hf Hk).
  pose proof (step_of_flags _ _ (Wf.wf_fields s Hwf) Hf Hk) as Hpos.
  split; [exact Hf|]. split; [exact Hk|]. split.
  - intros Hin. destruct (Wf.wf_intake s Hwf (or_introl Hin)) as [Hstep _].
    rewrite <- Hstep in Hpos. apply (intake_step_position _ _ Hpos Hin).
  - intros Hqg. destruct (Wf.wf_generated s Hwf Hqg) as [Hrules _].
    rewrite Hrules in Hpos. unfold total. cbn [progress_fields length].
    destruct k as [|[|[|[|[|[|[|[|[|k]]]]]]]]]; cbn in Hpos; try discriminate;
      reflexivity.
Qed.

Lemma progress_counts_the_steps_passed_witness :
  step (state Sample.at_email) ∈ INTAKE_STEPS
  /\ INTAKE_STEPS !! completed (candidate Sample.at_email)
     = Some (step (state Sample.at_email)).
Proof.
  assert (Hin : step (state Sample.at_email) ∈ INTAKE_STEPS).
  { apply list_elem_of_In. vm_compute. tauto. }
  destruct (progress_counts_the_steps_passed _ _ _ sample_reachable_email)
    as (_ & _ & H & _).
  split; [exact Hin | apply (H Hin)].
Defined.

(** X24. At an intake step of a reachable session, a message that is no
    exit request and that the step's rule accepts moves the conversation
    by exactly one step of [INTAKE_STEPS], and after the last intake step
    to the first technical question: the run of the message ends at the
    next intake step, or at [GENERATE_QA] after the last one, and the rerun
    it asks for generates the questions there. The one exception: at the
    position and the tech-stack step an accepted message without any
    entry, such as two commas, commits the empty list, and the step
    stays. *)
Theorem accepted_answer_advances_one_step
    (json_loads : string -> option json) (py_float : string -> option pyfloat)
    (s : Session) (prompt : string) (env : Env) (k : nat) :
  reachable json_loads py_float s ->
  INTAKE_STEPS !! k = Some (step (state s)) ->
  PyStr.truthy prompt = true ->
  detect_exit prompt = false ->
  fst (apply_answer_to_step py_float (step (state s)) prompt (candidate s)) = true ->
  let s1 := script_run json_loads py_float (Some prompt) env s in
  let s' := script_run json_loads py_float None env s1 in
  if fills (step (state s)) prompt
  then (INTAKE_STEPS ++ [GENERATE_QA]) !! S k = Some (step (state s1))
       /\ (INTAKE_STEPS ++ [TECHNICAL_QA]) !! S k = Some (step (state s'))
  else step (state s1) = step (state s) /\ step (state s') = step (state s).
Proof.
  intros Hr Hk Ht Hexit Hacc s1 s'. subst s' s1.
  pose proof (reachable_wf _ _ _ Hr) as Hwf.
  destruct (reachable_order _ _ _ Hr) as (k0 & Hk0 & Hf).
  assert (Hin : step (state s) ∈ INTAKE_STEPS).
  { apply list_elem_of_lookup. exists k. exact Hk. }
  destruct (Wf.wf_intake s Hwf (or_introl Hin)) as [Hstep _].
  pose proof (step_of_flags _ _ (Wf.wf_fields s Hwf) Hf Hk0) as Hpos.
  rewrite <- Hstep in Hpos.
  assert (k0 = k) by (eapply position_of_step; eassumption). subst k0.
  assert (Hlt : (k < 8)%nat) by (apply (intake_step_position _ _ Hpos Hin)).
  pose proof (apply_answer_flags py_float (step (state s)) prompt (candidate s) k
                Hf Hk) as Hnew.
  pose proof (apply_answer_fields_valid py_float (step (state s)) prompt (candidate s)
                (Wf.wf_fields s Hwf)) as Hvalid.
  pose proof (script_run_wf json_loads py_float (Some prompt) env s Hwf) as Hwf1.
  assert (Hturn : step (state (script_run json_loads py_float (Some prompt) env s))
                  = Spec.step_by_rules
                      (snd (apply_answer_to_step py_float (step (state s)) prompt
                              (candidate s)))).
  { rewrite (intake_run json_loads py_float s prompt env Hin Ht Hexit), Hacc.
    reflexivity. }
  set (s1 := script_run json_loads py_float (Some prompt) env s) in *.
  change (script_run json_loads py_float None env s1)
    with (generation_block json_loads env s1).
  clearbody s1. rewrite Hacc in Hnew. cbn [andb] in Hnew.
  destruct (fills (step (state s)) prompt).
  - pose proof (step_of_flags _ _ Hvalid Hnew ltac:(lia)) as Hpos'.
    rewrite <- Hturn in Hpos'. split; [exact Hpos'|].
    destruct (decide (step (state s1) = GENERATE_QA)) as [Hgen | Hgen].
    + destruct (generation_block_starts json_loads env s1 Hwf1 Hgen) as [-> _].
      rewrite Hgen in Hpos'.
      destruct k as [|[|[|[|[|[|[|[|k]]]]]]]]; cbn in Hpos' |- *;
        try discriminate; try reflexivity; lia.
    + rewrite generation_block_idle by exact Hgen.
      destruct k as [|[|[|[|[|[|[|[|k]]]]]]]]; cbn in Hpos' |- *;
        try exact Hpos'; try lia.
      congruence.
  - pose proof (step_of_flags _ _ Hvalid Hnew Hk0) as Hpos'.
    rewrite <- Hturn in Hpos'.
    assert (E : step (state s1) = step (state s)) by congruence.
    split; [exact E|].
    rewrite generation_block_idle; [exact E|].
    rewrite E. apply intake_step_not_generate, Hin.
Qed.

Lemma accepted_answer_advances_one_step_witness :
  if fills (step (state Sample.at_email)) "jane@x.com"
  then (INTAKE_STEPS ++ [GENERATE_QA]) !! 3%nat
       = Some (step (state (Sample.run "jane@x.com" Sample.env_down Sample.at_email)))
       /\ (INTAKE_STEPS ++ [TECHNICAL_QA]) !! 3%nat
          = Some (step (state (Sample.rerun Sample.env_down
                                 (Sample.run "jane@x.com" Sample.env_down
                                    Sample.at_email))))
  else step (state (Sample.run "jane@x.com" Sample.env_down Sample.at_email))
       = step (state Sample.at_email)
       /\ step (state (Sample.rerun Sample.env_down
                         (Sample.run "jane@x.com" Sample.env_down Sample.at_email)))
          = step (state Sample.at_email).
Proof.
  apply (accepted_answer_advances_one_step Fragment.json_loads Fragment.py_float
           Sample.at_email "jane@x.com" Sample.env_down 2 sample_reachable_email).
  - vm_compute. reflexivity.
  - vm_compute. reflexivity.
  - vm_compute. reflexivity.
  - vm_compute. reflexivity.
Defined.

(* ================================================================== *)
(** * Normalizing and checking single values *)
(* ================================================================== *)

Lemma filter_take_kept {A : Type} (P : A -> Prop) `{!forall x, Decision (P x)}
    (n : nat) (l : list A) :
  Forall P l -> filter P (take n l) = take n l.
Proof.
  intros Hall. revert n.
  induction Hall as [|x l Hx Hl IH]; intros [|n]; try reflexivity.
  cbn [firstn]. rewrite filter_cons_True by exact Hx. f_equal. apply IH.
Qed.

(** X25. [normalize_phone] keeps at most twenty characters, all of them
    digits or plus signs, and normalizing a normalized value changes
    nothing. *)
Theorem normalize_phone_is_idempotent (v : option string) :
  normalize_phone (normalize_phone v) = normalize_phone v
  /\ forall p : string,
       normalize_phone v = Some p ->
       PyStr.len p <= 20
       /\ Forall (fun ch => PyStr.isdigit_char ch = true \/ ch = "+"%char) (PyStr.chars p).
Proof.
  destruct v as [t|]; [|split; [reflexivity | discriminate]].
  cbn [normalize_phone].
  set (keep := fun ch : ascii => PyStr.isdigit_char ch || Ascii.eqb ch "+" = true).
  assert (Hall : Forall keep (filter keep (PyStr.chars t))).
  { apply Forall_forall. intros ch Hin.
    rewrite <- ?list_elem_of_In in Hin. apply list_elem_of_filter in Hin. tauto. }
  assert (Hkept : Forall keep (take 20 (filter keep (PyStr.chars t)))).
  { apply Forall_take, Hall. }
  split.
  - f_equal. f_equal. rewrite PyStrFacts.chars_str.
    rewrite (filter_take_kept keep 20 (filter keep (PyStr.chars t)) Hall).
    rewrite take_take. f_equal.
  - intros p [= <-]. split.
    + unfold PyStr.len. rewrite PyStrFacts.length_str, length_take. lia.
    + rewrite PyStrFacts.chars_str. eapply Forall_impl; [exact Hkept|].
      intros ch H. unfold keep in H. apply orb_true_iff in H as [H | H];
        [left; exact H | right; now apply Ascii.eqb_eq].
Qed.

Lemma clean_phone_chars (phone : string) :
  Forall (fun ch => PyStr.is_decimal ch || Ascii.eqb ch "+" = true)
         (PyStr.chars (clean_phone phone)).
Proof.
  unfold clean_phone. rewrite PyStrFacts.chars_str.
  apply Forall_forall. intros ch Hin. rewrite <- ?list_elem_of_In in Hin.
  apply list_elem_of_filter in Hin. tauto.
Qed.

(** X26. [validate_phone_format] always returns, on a text of any
    script, and it accepts exactly the texts that keep between six and
    twenty decimal digits and plus signs: its test of the first character
    never rejects, since a decimal digit passes [str.isdigit], and its test
    of the empty text is covered by the length. *)
Theorem validate_phone_format_is_length_check
    (decimal digit : N -> bool) (phone : Unicode.text) :
  (forall c, decimal c = true -> digit c = true) ->
  Unicode.validate_phone_format decimal digit phone
  = Some (bool_decide (6 <= length (Unicode.clean_phone decimal phone) <= 20)%nat).
Proof.
  intros Hsub. unfold Unicode.validate_phone_format.
  destruct phone as [|c0 phone0].
  { rewrite bool_decide_eq_false_2; [reflexivity|]. cbn. lia. }
  cbv zeta. set (phone := c0 :: phone0).
  pose proof (unicode_kept decimal phone) as Hch.
  rewrite <- unicode_clean_phone_keeps in Hch.
  destruct (Nat.ltb_spec (length (Unicode.clean_phone decimal phone)) 6);
    cbn [orb].
  { rewrite bool_decide_eq_false_2 by lia. reflexivity. }
  destruct (Nat.ltb_spec 20 (length (Unicode.clean_phone decimal phone))).
  { rewrite bool_decide_eq_false_2 by lia. reflexivity. }
  rewrite bool_decide_eq_true_2 by lia.
  destruct (Unicode.clean_phone decimal phone) as [|c r]; [cbn [length] in *; lia|].
  inversion Hch as [|? ? Hc _]. destruct Hc as [Hc | Hc].
  - rewrite (Hsub _ Hc). reflexivity.
  - apply N.eqb_eq in Hc. rewrite Hc, orb_true_r. reflexivity.
Qed.

Lemma validate_phone_format_is_length_check_witness :
  Unicode.validate_phone_format Unicode.some_decimal Unicode.some_digit
    [1633; 1634; 1635; 1636; 1637; 1638]%N = Some true.
Proof.
  rewrite (validate_phone_format_is_length_check Unicode.some_decimal Unicode.some_digit).
  - vm_compute. reflexivity.
  - intros c H. unfold Unicode.some_digit. rewrite H. reflexivity.
Defined.

Lemma collapse_spaces_chars (in_run : bool) (l : list ascii) :
  Forall (fun ch => PyStr.isspace ch = true -> ch = " "%char)
         (collapse_spaces in_run l).
Proof.
  revert in_run. induction l as [|c l IH]; intros in_run; cbn [collapse_spaces];
    [constructor|].
  destruct (PyStr.isspace c) eqn:E.
  - destruct in_run; [apply IH|]. constructor; [reflexivity | apply IH].
  - constructor; [congruence | apply IH].
Qed.

(** X27. The text that [sanitize_input] returns has at most a thousand
    characters, holds none of the characters it removes (angle brackets,
    braces, square brackets, backslash), and holds no white space other
    than the plain space. *)
Theorem sanitize_input_output_is_clean (text : string) :
  PyStr.len (sanitize_input text) <= 1000
  /\ Forall (fun ch => harmful ch = false
                       /\ (PyStr.isspace ch = true -> ch = " "%char))
            (PyStr.chars (sanitize_input text)).
Proof.
  unfold sanitize_input. destruct (PyStr.truthy text); cbn [negb].
  2: { split; [vm_compute; discriminate | constructor]. }
  split.
  - unfold PyStr.len. rewrite PyStrFacts.length_str, length_take. lia.
  - rewrite PyStrFacts.chars_str. apply Forall_take, Forall_forall.
    intros ch Hin. rewrite ?list_elem_of_In in Hin.
    apply filter_In in Hin as [Hin Hh].
    split; [now apply negb_true_iff in Hh|].
    pose proof (collapse_spaces_chars false (PyStr.chars (PyStr.strip text))) as H.
    rewrite Forall_forall in H. apply H.
    first [exact Hin | apply list_elem_of_In; exact Hin].
Qed.

(* ================================================================== *)
(** * Which questions are answered *)
(* ================================================================== *)

Lemma py_index_lookup {A : Type} (l : list A) (i : Z) (x : A) :
  0 <= i -> py_index l i = Some x -> l !! Z.to_nat i = Some x.
Proof.
  intros Hi. unfold py_index. destruct (Z.ltb_spec i 0); [lia|]. tauto.
Qed.

Lemma answered_answers_inv (text : string) (q : QuestionRecord) (sc : AnswerScore)
    (s : Session) :
  0 <= current_question_index (state s) < Z.of_nat (length (generated_questions s)) ->
  step (state s) = TECHNICAL_QA ->
  py_index (generated_questions s) (current_question_index (state s)) = Some q ->
  answers_inv s -> answers_inv (answered text q sc s).
Proof.
  intros Hidx Hstep Hq [Hdom _].
  pose proof (answered_fields text q sc s) as (F1 & _ & F3 & F4 & F5).
  assert (Hgq : generated_questions (answered text q sc s) = generated_questions s).
  { unfold answered. cbv zeta. destruct (_ <? _); reflexivity. }
  apply py_index_lookup in Hq; [|lia].
  split.
  - rewrite F1, F3, Hgq, dom_insert_L, Hdom.
    replace (Z.to_nat (current_question_index (state s) + 1))
      with (S (Z.to_nat (current_question_index (state s)))) by lia.
    rewrite (take_S_r _ _ _ Hq), map_app, list_to_set_app_L. cbn [map].
    rewrite (comm_L (∪)). f_equal.
    apply leibniz_equiv. symmetry. apply list_to_set_singleton.
  - intros Hf. rewrite F3, Hgq.
    destruct (Z.lt_ge_cases (current_question_index (state s) + 1)
                (Z.of_nat (length (generated_questions s)))) as [H | H]; [|lia].
    destruct (F4 H) as [E _]. congruence.
Qed.

Lemma user_turn_answers_inv json_loads py_float (prompt : string)
    (service : nat -> reply) (s : Session) :
  Wf.session_wf s -> answers_inv s ->
  answers_inv (user_turn json_loads py_float prompt service s).
Proof.
  intros Hwf Hinv. pose proof Hinv as [Hdom Hfollow]. unfold user_turn.
  destruct (detect_exit prompt).
  { split; [exact Hdom | discriminate]. }
  cbv zeta. case_bool_decide as Hin.
  - pose proof (apply_answer_keeps_assessment py_float (step (state s)) prompt
                  (candidate s)) as H. cbv zeta in H. destruct H as (_ & Ha & _).
    pose proof (not_intake_step FOLLOWUP) as Hnf.
    destruct (apply_answer_to_step _ _ _ _) as [accepted c]. cbn [snd] in Ha.
    destruct accepted.
    + destruct (next_step c _) as [n|] eqn:Hn.
      * apply next_step_not_generated in Hn as (_ & Hn & _).
        split; session_fields; [rewrite Ha; exact Hdom | contradiction].
      * split; session_fields; [rewrite Ha; exact Hdom|].
        intros E. exfalso. apply Hnf; [tauto | rewrite <- E; exact Hin].
    + split; session_fields; [rewrite Ha; exact Hdom|].
      intros E. exfalso. apply Hnf; [tauto | rewrite <- E; exact Hin].
  - case_bool_decide as Htech.
    + destruct (Z.lt_ge_cases (PyStr.len (PyStr.strip prompt)) 10) as [Hshort | Hlong].
      * rewrite handle_technical_answer_rejects by exact Hshort. exact Hinv.
      * assert (Ht : PyStr.truthy prompt = true).
        { destruct (PyStr.truthy prompt) eqn:E; [reflexivity|].
          apply blank_is_short in E. lia. }
        destruct (Wf.wf_technical s Hwf Htech) as [_ Hidx].
        pose proof (Wf.wf_index s Hwf) as Hpos.
        destruct (handle_technical_answer_accepts json_loads prompt service s Ht Hlong)
          as (q & sc & Hq & _ & ->); [lia|].
        apply answered_answers_inv; [lia | assumption..].
    + case_bool_decide as Hf; [|exact Hinv].
      split; session_fields; assumption.
Qed.

Lemma generation_block_answers_inv json_loads (env : Env) (s : Session) :
  session_inv s -> Wf.session_wf s -> answers_inv s ->
  answers_inv (generation_block json_loads env s).
Proof.
  intros (_ & _ & Hpre) Hwf Hinv. unfold generation_block.
  destruct (bool_decide (step (state s) = GENERATE_QA)) eqn:Hstep; cbn [andb];
    [|exact Hinv].
  apply bool_decide_eq_true in Hstep.
  destruct (Wf.wf_intake s Hwf (or_intror Hstep)) as [_ Hqg]. rewrite Hqg. cbn [negb].
  destruct (Hpre Hqg) as (Hempty & _ & _).
  destruct (Wf.wf_before s Hwf Hqg) as [Hzero _].
  destruct (generate_questions_sync _ _ _ _ _) as [qa drawn].
  destruct (materialize _ _ _); split; session_fields;
    rewrite ?Hempty, ?Hzero, ?dom_empty_L; try reflexivity; try discriminate.
Qed.

Lemma reachable_answers_inv json_loads py_float (s : Session) :
  reachable json_loads py_float s -> answers_inv s.
Proof.
  induction 1 as [|s prompt env Hs IH].
  - split; [|discriminate]. cbn. rewrite dom_empty_L. reflexivity.
  - pose proof (reachable_wf _ _ _ Hs) as Hwf.
    pose proof (reachable_inv _ _ _ Hs) as Hsi.
    apply (script_run_preserves json_loads py_float
             (fun s0 => session_inv s0 /\ Wf.session_wf s0 /\ answers_inv s0)).
    + intros p s0 (I & W & A).
      split; [apply user_turn_inv, I|].
      split; [apply user_turn_wf, W | apply user_turn_answers_inv; assumption].
    + intros s0 (I & W & A).
      split; [apply generation_block_inv, I|].
      split; [apply generation_block_wf, W
             | apply generation_block_answers_inv; assumption].
    + split; [exact Hsi|]. split; assumption.
Qed.

Lemma size_list_to_set_le (l : list string) :
  (size (list_to_set (C := gset string) l) <= length l)%nat.
Proof.
  induction l as [|x l IH]; cbn [list_to_set foldr length].
  - rewrite size_empty. lia.
  - rewrite size_union_alt, size_singleton.
    assert (size (list_to_set (C := gset string) l ∖ {[x]})
            <= size (list_to_set (C := gset string) l))%nat
      by (apply subseteq_size, subseteq_difference_l; reflexivity).
    lia.
Qed.

(** X28. In every state a session reaches, the questions with a recorded
    answer are the first [current_question_index] questions of the list,
    so the summary never counts more answers than questions; and at the
    step [FOLLOWUP] every question of the list has an answer and a
    score. *)
Theorem answered_questions_are_the_first_ones
    (json_loads : string -> option json) (py_float : string -> option pyfloat)
    (s : Session) :
  reachable json_loads py_float s ->
  dom (technical_answers (candidate s))
  = list_to_set
      (map q_question_id
         (take (Z.to_nat (current_question_index (state s)))
            (technical_questions (candidate s))))
  /\ (size (technical_answers (candidate s))
      <= length (technical_questions (candidate s)))%nat
  /\ (step (state s) = FOLLOWUP ->
      forall q : QuestionRecord,
        q ∈ technical_questions (candidate s) ->
        is_Some (technical_answers (candidate s) !! q_question_id q)
        /\ is_Some (answer_scores (candidate s) !! q_question_id q)).
Proof.
  intros Hr. pose proof (reachable_wf _ _ _ Hr) as Hwf.
  destruct (reachable_inv _ _ _ Hr) as (Hsame & _ & _).
  destruct (reachable_answers_inv _ _ _ Hr) as [Hdom Hfollow].
  rewrite <- Hsame. split; [exact Hdom|]. split.
  - rewrite <- size_dom, Hdom.
    etransitivity; [apply size_list_to_set_le|].
    rewrite length_map, length_take. lia.
  - intros Hstep q Hq.
    assert (Hin : q_question_id q ∈ dom (technical_answers (candidate s))).
    { rewrite Hdom, (Hfollow Hstep), Nat2Z.id, firstn_all.
      apply elem_of_list_to_set, list_elem_of_fmap. exists q. split; [reflexivity|exact Hq]. }
    split; [apply elem_of_dom, Hin|].
    apply elem_of_dom. rewrite <- (Wf.wf_dom s Hwf). exact Hin.
Qed.

Lemma answered_questions_are_the_first_ones_witness :
  step (state Sample.at_followup) = FOLLOWUP
  /\ forall q : QuestionRecord,
       q ∈ technical_questions (candidate Sample.at_followup) ->
       is_Some (technical_answers (candidate Sample.at_followup) !! q_question_id q)
       /\ is_Some (answer_scores (candidate Sample.at_followup) !! q_question_id q).
Proof.
  assert (Hstep : step (state Sample.at_followup) = FOLLOWUP).
  { vm_compute. reflexivity. }
  destruct (answered_questions_are_the_first_ones _ _ _ sample_reachable_followup)
    as (_ & _ & H).
  split; [exact Hstep | apply (H Hstep)].
Defined.

(* ================================================================== *)
(** * The two email patterns *)
(* ================================================================== *)

Lemma local_char_email_char (c : ascii) : local_char c = true -> email_char c = true.
Proof.
  destruct c as [[] [] [] [] [] [] [] []]; vm_compute; intros H;
    first [reflexivity | discriminate H].
Qed.

Lemma domain_char_email_char (c : ascii) : domain_char c = true -> email_char c = true.
Proof.
  destruct c as [[] [] [] [] [] [] [] []]; vm_compute; intros H;
    first [reflexivity | discriminate H].
Qed.

Lemma ascii_letter_email_char (c : ascii) : ascii_letter c = true -> email_char c = true.
Proof.
  destruct c as [[] [] [] [] [] [] [] []]; vm_compute; intros H;
    first [reflexivity | discriminate H].
Qed.

Lemma forallb_weaken {A : Type} (f g : A -> bool) (l : list A) :
  (forall x, f x = true -> g x = true) -> forallb f l = true -> forallb g l = true.
Proof.
  intros Hfg. induction l as [|x l IH]; [reflexivity|]. cbn [forallb].
  rewrite !andb_true_iff. intros [H1 H2]. split; [apply Hfg, H1 | apply IH, H2].
Qed.

Lemma domain_body_chars (seen : nat) (l : list ascii) :
  domain_body seen l = true -> forallb email_char l = true.
Proof.
  revert seen. induction l as [|c r IH]; intros seen; cbn [domain_body forallb];
    [discriminate|].
  rewrite orb_true_iff, !andb_true_iff. intros [[[[Hc _] _] Hr] | [Hc Hr]].
  - apply Ascii.eqb_eq in Hc. subst c. split; [vm_compute; reflexivity|].
    eapply forallb_weaken; [apply ascii_letter_email_char | exact Hr].
  - split; [apply domain_char_email_char, Hc | apply (IH _ Hr)].
Qed.

Lemma domain_body_dot (seen : nat) (l : list ascii) :
  domain_body seen l = true ->
  existsb (Ascii.eqb ".")
    (removelast (match seen with O => tail l | S _ => l end)) = true.
Proof.
  revert seen. induction l as [|c r IH]; intros seen; cbn [domain_body];
    [discriminate|].
  rewrite orb_true_iff, !andb_true_iff. intros [[[[Hc Hs] Hlen] _] | [_ Hr]].
  - apply Ascii.eqb_eq in Hc. subst c. apply Nat.ltb_lt in Hs. apply Nat.leb_le in Hlen.
    destruct seen as [|seen]; [lia|]. destruct r as [|d r]; [cbn in Hlen; lia|].
    reflexivity.
  - specialize (IH (S seen) Hr). cbn [tail] in *.
    destruct seen as [|seen]; [exact IH|].
    destruct r as [|d r]; [discriminate IH|].
    change (removelast (c :: d :: r)) with (c :: removelast (d :: r)).
    cbn [existsb]. rewrite IH. apply orb_true_r.
Qed.

Lemma validate_body_email_body (l : list ascii) :
  validate_email_body l = true -> email_body l = true.
Proof.
  unfold validate_email_body, email_body.
  destruct (split_at_first "@" l) as [[loc dom]|]; [|discriminate].
  rewrite !andb_true_iff. intros [[Hne Hloc] Hdom].
  split; [split; [split|]|].
  - exact Hne.
  - eapply forallb_weaken; [apply local_char_email_char | exact Hloc].
  - apply (domain_body_chars _ _ Hdom).
  - apply (domain_body_dot 0 dom Hdom).
Qed.

(** X29. An address that [validate_email_format] accepts is, in lower
    case, accepted by the intake's [EMAIL_RX] too: the pattern of
    core/security.py is the stricter of the two. The converse fails: the
    intake accepts a one-letter top-level domain, [validate_email_format]
    does not. *)
Theorem validate_email_format_is_stricter (email : string) :
  (validate_email_format email = true ->
   EMAIL_RX_match (PyStr.lower email) = true)
  /\ EMAIL_RX_match "a@b.c" = true
  /\ validate_email_format "a@b.c" = false.
Proof.
  split; [|split; vm_compute; reflexivity].
  unfold validate_email_format, EMAIL_RX_match.
  destruct (PyStr.truthy email); cbn [negb]; [|discriminate]. cbv zeta.
  rewrite !orb_true_iff. intros [H | H].
  - left. apply validate_body_email_body, H.
  - right. destruct (rev (PyStr.chars (PyStr.lower email))) as [|c r]; [discriminate|].
    apply andb_true_iff in H as [Hc H]. rewrite Hc. cbn [andb].
    apply validate_body_email_body, H.
Qed.

Lemma validate_email_format_is_stricter_witness :
  EMAIL_RX_match (PyStr.lower "Jane.Doe@Example.com") = true.
Proof.
  assert (H : validate_email_format "Jane.Doe@Example.com" = true).
  { vm_compute. reflexivity. }
  exact (proj1 (validate_email_format_is_stricter "Jane.Doe@Example.com") H).
Defined.
